(** * OAuth 2.0 authorization-code flow with PKCE: the client of [src/user.ts]

    A shallow embedding of the login client ([user.ts]) and the properties
    of its callback check, token exchanges, PKCE generator and expiry test.

    Conventions of the embedding.
    - A JavaScript string is a Rocq [string]: a sequence of code units
      below 256 (Latin-1), which covers every string the client builds
      itself (charsets, base64 text, binary digests).
    - A JavaScript number is an integer in [Z]; time values are
      milliseconds since the epoch.
    - [undefined] is [None]; an optional field is an [option].
    - The module-level object [LocalState], the console, the network, the
      clock and the random source live in one explicit [World] that every
      operation threads through; a thrown value is the [Throw] outcome.
    - A request handler runs to its end before the next one starts. *)

From Stdlib Require Import ZArith List Ascii String Bool Lia.
From stdpp Require Import gmap strings list.

Local Open Scope string_scope.
Local Open Scope Z_scope.

(** ** Host library: strings *)

Module JSString.

Definition charCode (c : ascii) : Z := Z.of_N (N_of_ascii c).

(** [String.fromCharCode(n)] for a code unit below 256. *)
Definition fromCharCode (n : Z) : ascii := ascii_of_N (Z.to_N (n mod 256)).

(** [s[i]]: [undefined] out of range. *)
Definition index (s : string) (i : Z) : option ascii :=
  if i <? 0 then None else String.get (Z.to_nat i) s.

(** [arr.join] with the empty separator, on an array of one-character strings, where
    [undefined] entries print as the empty string. *)
Fixpoint join_chars (l : list (option ascii)) : string :=
  match l with
  | [] => EmptyString
  | Some c :: l' => String c (join_chars l')
  | None :: l' => join_chars l'
  end.

(** [s.replace(/a/g, "b")] for single characters [a] and [b]. *)
Fixpoint replace_char (a b : ascii) (s : string) : string :=
  match s with
  | EmptyString => EmptyString
  | String c s' =>
      String (if Ascii.eqb c a then b else c) (replace_char a b s')
  end.

(** [s.replace(/a/g, empty)]. *)
Fixpoint remove_char (a : ascii) (s : string) : string :=
  match s with
  | EmptyString => EmptyString
  | String c s' =>
      if Ascii.eqb c a then remove_char a s' else String c (remove_char a s')
  end.

(** [s.split(sep)] for a one-character separator: every occurrence of
    the separator closes a field, so the result is never empty. *)
Fixpoint split_from (sep : ascii) (field : string) (s : string) : list string :=
  match s with
  | EmptyString => [field]
  | String c s' =>
      if Ascii.eqb c sep then field :: split_from sep EmptyString s'
      else split_from sep (field +:+ String c EmptyString) s'
  end.

Definition split (sep : ascii) (s : string) : list string :=
  split_from sep EmptyString s.

(** Truthiness of a string-valued slot: [undefined] and the empty string are falsy. *)
Definition truthy (o : option string) : bool :=
  match o with
  | Some s => negb (String.eqb s EmptyString)
  | None => false
  end.

(** Template-literal interpolation of an optional string. *)
Definition interpolate (o : option string) : string :=
  match o with
  | Some s => s
  | None => "undefined"
  end.

(** Decimal digits and numerals. *)
Definition digit (n : Z) : ascii := fromCharCode (48 + n mod 10).

Fixpoint pad_digits (width : nat) (n : Z) (acc : string) : string :=
  match width with
  | O => acc
  | S w => pad_digits w (n / 10) (String (digit n) acc)
  end.

(** [TextEncoder.encode]: UTF-8 bytes of a Latin-1 string. *)
Fixpoint utf8_encode (s : string) : list Z :=
  match s with
  | EmptyString => []
  | String c s' =>
      let n := charCode c in
      if n <? 128 then n :: utf8_encode s'
      else Z.lor 192 (Z.shiftr n 6) :: Z.lor 128 (Z.land n 63) :: utf8_encode s'
  end.

Definition hex_digit (n : Z) : ascii :=
  if n <? 10 then fromCharCode (48 + n) else fromCharCode (55 + n).

Definition percent (byte : Z) : string :=
  String "%" (String (hex_digit (Z.shiftr byte 4))
                (String (hex_digit (Z.land byte 15)) EmptyString)).

(** Characters [encodeURIComponent] leaves alone:
    [A-Z a-z 0-9 - _ . ! ~ * ' ( )]. *)
Definition uri_unreserved (n : Z) : bool :=
  ((65 <=? n) && (n <=? 90)) || ((97 <=? n) && (n <=? 122))
  || ((48 <=? n) && (n <=? 57))
  || (n =? 45) || (n =? 95) || (n =? 46) || (n =? 33) || (n =? 126)
  || (n =? 42) || (n =? 39) || (n =? 40) || (n =? 41).

Fixpoint encodeURIComponent (s : string) : string :=
  match s with
  | EmptyString => EmptyString
  | String c s' =>
      let n := charCode c in
      (if uri_unreserved n then String c EmptyString
       else if n <? 128 then percent n
       else percent (Z.lor 192 (Z.shiftr n 6)) +:+ percent (Z.lor 128 (Z.land n 63)))
      +:+ encodeURIComponent s'
  end.

End JSString.

(** ** Host library: base64 ([btoa]) *)

Module Base64.
Import JSString.

Definition alphabet : list ascii :=
  list_ascii_of_string
    "ABCDEFGHIJKLMNOPQRSTUVWXYZabcdefghijklmnopqrstuvwxyz0123456789+/".

(** The character of a six-bit group. *)
Definition enc (alpha : list ascii) (n : Z) : ascii :=
  nth (Z.to_nat n) alpha "A"%char.

Definition group1 (a : Z) : Z := Z.shiftr a 2.
Definition group2 (a b : Z) : Z := Z.lor (Z.shiftl (Z.land a 3) 4) (Z.shiftr b 4).
Definition group3 (b c : Z) : Z := Z.lor (Z.shiftl (Z.land b 15) 2) (Z.shiftr c 6).
Definition group4 (c : Z) : Z := Z.land c 63.

(** [btoa]: three bytes give four characters; a tail of one or two bytes
    is padded with ['=']. *)
Fixpoint btoa (s : string) : string :=
  match s with
  | EmptyString => EmptyString
  | String a EmptyString =>
      let a := charCode a in
      String (enc alphabet (group1 a))
        (String (enc alphabet (group2 a 0)) "==")
  | String a (String b EmptyString) =>
      let a := charCode a in
      let b := charCode b in
      String (enc alphabet (group1 a))
        (String (enc alphabet (group2 a b))
           (String (enc alphabet (group3 b 0)) "="))
  | String a (String b (String c rest)) =>
      let a := charCode a in
      let b := charCode b in
      let c := charCode c in
      String (enc alphabet (group1 a))
        (String (enc alphabet (group2 a b))
           (String (enc alphabet (group3 b c))
              (String (enc alphabet (group4 c)) (btoa rest))))
  end.

End Base64.

(** ** Host library: SHA-256 ([crypto.subtle.digest], FIPS 180-4) *)

Module SHA256.

Definition wrap (x : Z) : Z := x mod 4294967296.
Definition add32 (x y : Z) : Z := wrap (x + y).
Definition rotr (n x : Z) : Z :=
  Z.lor (Z.shiftr x n) (wrap (Z.shiftl x (32 - n))).
Definition xor3 (x y z : Z) : Z := Z.lxor (Z.lxor x y) z.

Definition Ch (x y z : Z) : Z := Z.lxor (Z.land x y) (Z.ldiff z x).
Definition Maj (x y z : Z) : Z :=
  xor3 (Z.land x y) (Z.land x z) (Z.land y z).
Definition Sigma0 (x : Z) : Z := xor3 (rotr 2 x) (rotr 13 x) (rotr 22 x).
Definition Sigma1 (x : Z) : Z := xor3 (rotr 6 x) (rotr 11 x) (rotr 25 x).
Definition sigma0 (x : Z) : Z := xor3 (rotr 7 x) (rotr 18 x) (Z.shiftr x 3).
Definition sigma1 (x : Z) : Z := xor3 (rotr 17 x) (rotr 19 x) (Z.shiftr x 10).

(** The first sixty-four primes. *)
Definition primes : list Z :=
  [   2;   3;   5;   7;  11;  13;  17;  19;  23;  29;  31;  37;  41;  43;
     47;  53;  59;  61;  67;  71;  73;  79;  83;  89;  97; 101; 103; 107;
    109; 113; 127; 131; 137; 139; 149; 151; 157; 163; 167; 173; 179; 181;
    191; 193; 197; 199; 211; 223; 227; 229; 233; 239; 241; 251; 257; 263;
    269; 271; 277; 281; 283; 293; 307; 311 ].

(** The integer [e]-th root of [x], found bit by bit from the top. *)
Fixpoint root_from (e : Z) (bits : nat) (x r : Z) : Z :=
  match bits with
  | O => r
  | S k =>
      let r' := r + 2 ^ Z.of_nat k in
      root_from e k x (if r' ^ e <=? x then r' else r)
  end.

(** The first 32 bits of the fractional part of the [e]-th root of [p]. *)
Definition root_fraction (e p : Z) : Z :=
  wrap (root_from e 36 (p * 2 ^ (32 * e)) 0).

(** The round constants: from the cube roots of the sixty-four primes. *)
Definition K : list Z := Eval vm_compute in map (root_fraction 3) primes.

(** The initial hash value: from the square roots of the first eight
    primes. *)
Definition H0 : list Z := Eval vm_compute in map (root_fraction 2) (firstn 8 primes).

(** Big-endian bytes of a word, most significant first. *)
Fixpoint be_bytes (width : nat) (x : Z) : list Z :=
  match width with
  | O => []
  | S w => Z.land (Z.shiftr x (8 * Z.of_nat w)) 255 :: be_bytes w x
  end.

Definition be_word (bs : list Z) : Z :=
  fold_left (fun acc b => Z.lor (Z.shiftl acc 8) b) bs 0.

(** Padding: a one bit, zeros up to 56 mod 64, the bit length on 8 bytes. *)
Definition pad (msg : list Z) : list Z :=
  let len := Z.of_nat (length msg) in
  let zeros := Z.to_nat ((55 - len) mod 64) in
  msg ++ 128 :: repeat 0 zeros ++ be_bytes 8 (8 * len).

Fixpoint words (fuel : nat) (bs : list Z) : list Z :=
  match fuel with
  | O => []
  | S f => be_word (firstn 4 bs) :: words f (skipn 4 bs)
  end.

(** The message schedule, newest word first: [sched] holds
    [W(t-1), W(t-2), ...]. *)
Fixpoint extend (n : nat) (sched : list Z) : list Z :=
  match n with
  | O => sched
  | S n' =>
      let w := add32 (add32 (sigma1 (nth 1 sched 0)) (nth 6 sched 0))
                 (add32 (sigma0 (nth 14 sched 0)) (nth 15 sched 0)) in
      extend n' (w :: sched)
  end.

Definition schedule (block : list Z) : list Z :=
  rev (extend 48 (rev (words 16 block))).

Record regs := Regs { ra : Z; rb : Z; rc : Z; rd : Z; re : Z; rf : Z; rg : Z; rh : Z }.

Definition round (r : regs) (kw : Z * Z) : regs :=
  let t1 := add32 (add32 (add32 (rh r) (Sigma1 (re r))) (Ch (re r) (rf r) (rg r)))
              (add32 (fst kw) (snd kw)) in
  let t2 := add32 (Sigma0 (ra r)) (Maj (ra r) (rb r) (rc r)) in
  Regs (add32 t1 t2) (ra r) (rb r) (rc r) (add32 (rd r) t1) (re r) (rf r) (rg r).

Definition regs_of (h : list Z) : regs :=
  Regs (nth 0 h 0) (nth 1 h 0) (nth 2 h 0) (nth 3 h 0)
       (nth 4 h 0) (nth 5 h 0) (nth 6 h 0) (nth 7 h 0).

Definition list_of (r : regs) : list Z :=
  [ra r; rb r; rc r; rd r; re r; rf r; rg r; rh r].

Definition compress (h : list Z) (block : list Z) : list Z :=
  let r := fold_left round (combine K (schedule block)) (regs_of h) in
  map (fun p => add32 (fst p) (snd p)) (combine h (list_of r)).

Fixpoint blocks (fuel : nat) (h : list Z) (bs : list Z) : list Z :=
  match fuel with
  | O => h
  | S f => blocks f (compress h (firstn 64 bs)) (skipn 64 bs)
  end.

(** The 32 digest bytes of a byte message. *)
Definition digest (msg : list Z) : list Z :=
  let p := pad msg in
  flat_map (be_bytes 4) (blocks (length p / 64) H0 p).

End SHA256.

(** ** Host library: [Date] *)

Module Date.
Import JSString.

Definition msPerDay : Z := 86400000.

(** A time value denotes a date when it is within 100 000 000 days of
    the epoch; [new Date(t)] is an Invalid Date otherwise. *)
Definition valid (t : Z) : bool :=
  (- 8640000000000000 <=? t) && (t <=? 8640000000000000).

(** Year, month and day of a day number (proleptic Gregorian). *)
Definition civil (days : Z) : Z * Z * Z :=
  let z := days + 719468 in
  let era := z / 146097 in
  let doe := z mod 146097 in
  let yoe := (doe - doe / 1460 + doe / 36524 - doe / 146096) / 365 in
  let doy := doe - (365 * yoe + yoe / 4 - yoe / 100) in
  let mp := (5 * doy + 2) / 153 in
  let d := doy - (153 * mp + 2) / 5 + 1 in
  let m := if mp <? 10 then mp + 3 else mp - 9 in
  let y := yoe + era * 400 + (if m <=? 2 then 1 else 0) in
  (y, m, d).

(** Day number of a year, month and day. *)
Definition days_from_civil (y m d : Z) : Z :=
  let y := if m <=? 2 then y - 1 else y in
  let era := y / 400 in
  let yoe := y mod 400 in
  let doy := (153 * (if 2 <? m then m - 3 else m + 9) + 2) / 5 + d - 1 in
  let doe := yoe * 365 + yoe / 4 - yoe / 100 + doy in
  era * 146097 + doe - 719468.

Definition year_string (y : Z) : string :=
  if (0 <=? y) && (y <=? 9999) then pad_digits 4 y EmptyString
  else String (if y <? 0 then "-"%char else "+"%char) (pad_digits 6 (Z.abs y) EmptyString).

(** [new Date(t).toISOString()] for a valid time value [t]. *)
Definition toISOString (t : Z) : string :=
  let '(y, m, d) := civil (t / msPerDay) in
  let ms := t mod msPerDay in
  year_string y +:+ "-" +:+ pad_digits 2 m EmptyString +:+ "-" +:+ pad_digits 2 d EmptyString
    +:+ "T" +:+ pad_digits 2 (ms / 3600000) EmptyString
    +:+ ":" +:+ pad_digits 2 (ms / 60000 mod 60) EmptyString
    +:+ ":" +:+ pad_digits 2 (ms / 1000 mod 60) EmptyString
    +:+ "." +:+ pad_digits 3 (ms mod 1000) EmptyString +:+ "Z".

(** The value of a run of decimal digits. *)
Fixpoint digits_from (acc : Z) (s : string) : option Z :=
  match s with
  | EmptyString => Some acc
  | String c s' =>
      let n := charCode c in
      if (48 <=? n) && (n <=? 57) then digits_from (10 * acc + (n - 48)) s'
      else None
  end.

Definition number_at (start len : nat) (s : string) : option Z :=
  digits_from 0 (substring start len s).

Definition char_at (i : nat) (c : ascii) (s : string) : bool :=
  match String.get i s with
  | Some c' => Ascii.eqb c c'
  | None => false
  end.

Definition days_in_month (y m : Z) : Z :=
  days_from_civil (if m =? 12 then y + 1 else y) (if m =? 12 then 1 else m + 1) 1
  - days_from_civil y m 1.

(** The part after the year: [-MM-DDTHH:mm:ss.sssZ], 20 characters. *)
Definition parse_after_year (y : Z) (s : string) : option Z :=
  if negb (Nat.eqb (String.length s) 20) then None else
  if negb (char_at 0 "-" s && char_at 3 "-" s && char_at 6 "T" s
           && char_at 9 ":" s && char_at 12 ":" s && char_at 15 "." s
           && char_at 19 "Z" s) then None else
  match number_at 1 2 s, number_at 4 2 s, number_at 7 2 s,
        number_at 10 2 s, number_at 13 2 s, number_at 16 3 s with
  | Some m, Some d, Some hh, Some mm, Some ss, Some ms =>
      if (1 <=? m) && (m <=? 12) && (1 <=? d) && (d <=? days_in_month y m)
         && (hh <=? 23) && (mm <=? 59) && (ss <=? 59)
      then
        let t := days_from_civil y m d * msPerDay
                 + hh * 3600000 + mm * 60000 + ss * 1000 + ms in
        if valid t then Some t else None
      else None
  | _, _, _, _, _, _ => None
  end.

(** The complete UTC form of the date-time string format, the one
    [toISOString] prints: a four-digit year, or a sign and six digits. *)
Definition parse_iso (s : string) : option Z :=
  match s with
  | String c rest =>
      if Ascii.eqb c "+" || Ascii.eqb c "-" then
        match number_at 0 6 rest with
        | Some y =>
            if Nat.ltb (String.length rest) 6 then None
            else if Ascii.eqb c "-" && (y =? 0) then None
            else parse_after_year (if Ascii.eqb c "-" then - y else y)
                   (substring 6 (String.length rest - 6) rest)
        | None => None
        end
      else
        match number_at 0 4 s with
        | Some y =>
            if Nat.ltb (String.length s) 4 then None
            else parse_after_year y (substring 4 (String.length s - 4) s)
        | None => None
        end
  | EmptyString => None
  end.

End Date.

(** ** The error taxonomy *)

(** The error classes of [user.ts], the three base classes included. *)
Inductive ErrorClass :=
  | ErrorOAuth2
  | ErrorUnknown
  | ErrorNoAuthCode
  | ErrorInvalidReturnedStateParam
  | ErrorInvalidJson
  | ErrorInvalidScope
  | ErrorInvalidRequest
  | ErrorInvalidToken
  | ErrorAuthenticationGrant
  | ErrorUnauthorizedClient
  | ErrorAccessDenied
  | ErrorUnsupportedResponseType
  | ErrorServerError
  | ErrorTemporarilyUnavailable
  | ErrorAccessTokenResponse
  | ErrorInvalidClient
  | ErrorInvalidGrant
  | ErrorUnsupportedGrantType.

Global Instance ErrorClass_eq_dec : EqDecision ErrorClass.
Proof. solve_decision. Defined.

(** [class C extends P]. *)
Definition extends (c : ErrorClass) : option ErrorClass :=
  match c with
  | ErrorOAuth2 => None
  | ErrorUnauthorizedClient | ErrorAccessDenied | ErrorUnsupportedResponseType
  | ErrorServerError | ErrorTemporarilyUnavailable => Some ErrorAuthenticationGrant
  | ErrorInvalidClient | ErrorInvalidGrant | ErrorUnsupportedGrantType =>
      Some ErrorAccessTokenResponse
  | _ => Some ErrorOAuth2
  end.

Definition RawErrorToErrorClassMap : gmap string ErrorClass :=
  list_to_map
    [ ("invalid_request", ErrorInvalidRequest);
      ("invalid_grant", ErrorInvalidGrant);
      ("unauthorized_client", ErrorUnauthorizedClient);
      ("access_denied", ErrorAccessDenied);
      ("unsupported_response_type", ErrorUnsupportedResponseType);
      ("invalid_scope", ErrorInvalidScope);
      ("server_error", ErrorServerError);
      ("temporarily_unavailable", ErrorTemporarilyUnavailable);
      ("invalid_client", ErrorInvalidClient);
      ("unsupported_grant_type", ErrorUnsupportedGrantType);
      ("invalid_json", ErrorInvalidJson);
      ("invalid_token", ErrorInvalidToken) ].

(** [RawErrorToErrorClassMap] is an object literal, so a key it does not
    own is looked up on [Object.prototype]: ["constructor"] finds [Object],
    the other names find members that cannot be constructed. *)
Inductive Slot :=
  | SlotClass (c : ErrorClass)
  | SlotObject
  | SlotNotConstructor.

Definition Object_prototype (key : string) : option Slot :=
  if String.eqb key "constructor" then Some SlotObject
  else if existsb (String.eqb key)
            [ "__defineGetter__"; "__defineSetter__"; "hasOwnProperty";
              "__lookupGetter__"; "__lookupSetter__"; "isPrototypeOf";
              "propertyIsEnumerable"; "toString"; "valueOf"; "__proto__";
              "toLocaleString" ]
       then Some SlotNotConstructor
  else None.

Definition table_get (key : string) : option Slot :=
  match RawErrorToErrorClassMap !! key with
  | Some c => Some (SlotClass c)
  | None => Object_prototype key
  end.

(** ** Data model *)

Definition Scope := string.

Module AccessToken.
(** [value] and [expiry] are declared strings; at run time either can
    be [undefined] (a response without [access_token], a configuration
    file without [expiration_time]). *)
Record t := mk { value : option string; expiry : option string }.
End AccessToken.

Module RefreshToken.
Record t := mk { value : string }.
End RefreshToken.

Module PKCECodes.
Record t := mk { codeChallenge : string; codeVerifier : string }.
End PKCECodes.

Module State.
Record t := mk {
  accessToken : option AccessToken.t;
  authorizationCode : option string;
  codeChallenge : option string;
  codeVerifier : option string;
  hasAuthCodeBeenExchangedForAccessToken : option bool;
  refreshToken : option RefreshToken.t;
  stateQueryParam : option string;
  scopes : option (list Scope)
}.

Definition empty : t := mk None None None None None None None None.

Definition set_accessToken v (s : t) : t :=
  mk v (authorizationCode s) (codeChallenge s) (codeVerifier s)
     (hasAuthCodeBeenExchangedForAccessToken s) (refreshToken s)
     (stateQueryParam s) (scopes s).
Definition set_authorizationCode v (s : t) : t :=
  mk (accessToken s) v (codeChallenge s) (codeVerifier s)
     (hasAuthCodeBeenExchangedForAccessToken s) (refreshToken s)
     (stateQueryParam s) (scopes s).
Definition set_codeChallenge v (s : t) : t :=
  mk (accessToken s) (authorizationCode s) v (codeVerifier s)
     (hasAuthCodeBeenExchangedForAccessToken s) (refreshToken s)
     (stateQueryParam s) (scopes s).
Definition set_codeVerifier v (s : t) : t :=
  mk (accessToken s) (authorizationCode s) (codeChallenge s) v
     (hasAuthCodeBeenExchangedForAccessToken s) (refreshToken s)
     (stateQueryParam s) (scopes s).
Definition set_hasAuthCodeBeenExchangedForAccessToken v (s : t) : t :=
  mk (accessToken s) (authorizationCode s) (codeChallenge s) (codeVerifier s)
     v (refreshToken s) (stateQueryParam s) (scopes s).
Definition set_refreshToken v (s : t) : t :=
  mk (accessToken s) (authorizationCode s) (codeChallenge s) (codeVerifier s)
     (hasAuthCodeBeenExchangedForAccessToken s) v
     (stateQueryParam s) (scopes s).
Definition set_stateQueryParam v (s : t) : t :=
  mk (accessToken s) (authorizationCode s) (codeChallenge s) (codeVerifier s)
     (hasAuthCodeBeenExchangedForAccessToken s) (refreshToken s)
     v (scopes s).
Definition set_scopes v (s : t) : t :=
  mk (accessToken s) (authorizationCode s) (codeChallenge s) (codeVerifier s)
     (hasAuthCodeBeenExchangedForAccessToken s) (refreshToken s)
     (stateQueryParam s) v.
End State.

Module AccessContext.
Record t := mk {
  token : option AccessToken.t;
  scopes : option (list Scope);
  refreshToken : option RefreshToken.t
}.
End AccessContext.

(** The body of a token-endpoint response: a JSON object, at the type the
    client asserts for it
    ([json as { access_token: string; expires_in: number; ... }], and
    [{ error: string }] on a refusal); a field the body does not carry is
    [undefined], and [expires_in] is a whole number of seconds. *)
Module TokenBody.
Record t := mk {
  error : option string;
  access_token : option string;
  expires_in : option Z;
  refresh_token : option string;
  scope : option string
}.
End TokenBody.

(** What [response.json()] resolves with when the body is JSON.  The
    type the client asserts is only asserted, so two values outside it are
    told apart, because the client does something else on them: [null],
    which has no properties to destructure, and an object whose [scope] is
    truthy without being a string (a number, an array, an object), whose
    [split] cannot be called.  Any other value reads as a [TokenBody.t]; of
    [JsonScopeNotString b] the other four fields are those of [b], and
    [TokenBody.scope b] stands for nothing. *)
Inductive Json :=
  | JsonNull
  | JsonTyped (b : TokenBody.t)
  | JsonScopeNotString (b : TokenBody.t).

(** A response: its status and what its body parses to, [None] when the
    body is not JSON. *)
Record Response := mkResponse { status : Z; parsed : option Json }.

(** The body of a response when it is JSON of the asserted type, and the
    response of a status and such a body. *)
Definition body (r : Response) : option TokenBody.t :=
  match parsed r with
  | Some (JsonTyped b) => Some b
  | _ => None
  end.

Definition Build_Response (status : Z) (body : option TokenBody.t) : Response :=
  mkResponse status (JsonTyped <$> body).

Definition ok (r : Response) : bool := (200 <=? status r) && (status r <? 300).

(** [fetch] resolves with a response or rejects (connection refused,
    timeout). *)
Inductive FetchResult :=
  | Responded (r : Response)
  | Rejected.

(** Every value the client can throw. *)
Inductive Thrown :=
  | Instance (c : ErrorClass)     (* new C() of an error class *)
  | PlainObject                   (* new Object() *)
  | RawBody (j : Json)            (* a parsed response body, thrown as is *)
  | TypeError
  | RangeError                    (* toISOString of an Invalid Date *)
  | JsonParseError                (* response.json() on a body that is not JSON *)
  | FetchRejected                 (* fetch failed at the network level *)
  | QuotaExceededError            (* getRandomValues on more than 65536 bytes *)
  | WriteRejected                 (* writeFile failed (no directory, no permission) *)
  | AssertionError.

(** [err?.error] *)
Definition error_of (err : Thrown) : option string :=
  match err with
  | RawBody (JsonTyped b) | RawBody (JsonScopeNotString b) => TokenBody.error b
  | _ => None
  end.

(** What the client does to the outside, in order. *)
Inductive Event :=
  | ConsoleWarn (msg : string)
  | ConsoleLog (msg : string)
  | ConsoleLogError (err : Thrown)
  | ConsoleLogContext (c : AccessContext.t)
  | Fetch (url body : string)
  | WriteConfigFile (content : string)
  | ResponseEnd (statusCode : Z) (text : string).

(** ** The world the client runs in *)

Record World := mkWorld {
  LocalState : State.t;
  (** the clock, read by [Date.now()] and [new Date()] *)
  now : Z;
  (** the network: the answer to a POST of a body to a URL *)
  network : string -> string -> FetchResult;
  (** the random source and how much of it has been drawn *)
  entropy : nat -> Z;
  drawn : nat;
  (** the host's parser for date strings outside the ISO form *)
  legacy_date : string -> option Z;
  (** the file system: whether a write of a text to the configuration file
      succeeds *)
  disk : string -> bool;
  (** everything done so far, oldest first *)
  trace : list Event
}.

Inductive Outcome (A : Type) :=
  | Return (a : A)
  | Throw (e : Thrown).
Arguments Return {A} a.
Arguments Throw {A} e.

Definition M (A : Type) : Type := World -> Outcome A * World.

Definition ret {A} (a : A) : M A := fun w => (Return a, w).

Definition throw {A} (e : Thrown) : M A := fun w => (Throw e, w).

Definition bind {A B} (m : M A) (k : A -> M B) : M B :=
  fun w =>
    match m w with
    | (Return a, w') => k a w'
    | (Throw e, w') => (Throw e, w')
    end.

(** [try { m } catch (err) { h err }] *)
Definition try_catch {A} (m : M A) (h : Thrown -> M A) : M A :=
  fun w =>
    match m w with
    | (Return a, w') => (Return a, w')
    | (Throw e, w') => h e w'
    end.

Notation "x <- m ;; k" := (bind m (fun x => k))
  (at level 100, m at next level, right associativity).
Notation "m ;; k" := (bind m (fun _ => k))
  (at level 100, right associativity).

Definition when (b : bool) (m : M unit) : M unit := if b then m else ret tt.

(** An expression that returns or throws without touching the world. *)
Definition lift {A} (o : Outcome A) : M A := fun w => (o, w).

Definition getState : M State.t := fun w => (Return (LocalState w), w).

(** The world with another [LocalState], and with one more event. *)
Definition stored (st : State.t) (w : World) : World :=
  mkWorld st (now w) (network w) (entropy w) (drawn w) (legacy_date w) (disk w)
    (trace w).

Definition logged (e : Event) (w : World) : World :=
  mkWorld (LocalState w) (now w) (network w) (entropy w) (drawn w)
    (legacy_date w) (disk w) (trace w ++ [e]).

Definition modify (f : State.t -> State.t) : M unit :=
  fun w => (Return tt, stored (f (LocalState w)) w).

Definition emit (e : Event) : M unit :=
  fun w => (Return tt, logged e w).

Definition Date_now : M Z := fun w => (Return (now w), w).

(** [crypto.getRandomValues(new Uint32Array(n))]: the next [n] draws, each
    stored as an unsigned 32-bit number.  An array of more than 65536 bytes
    is refused with a [QuotaExceededError]. *)
Definition getRandomValues (n : nat) : M (list Z) :=
  fun w =>
    if 65536 <? 4 * Z.of_nat n then (Throw QuotaExceededError, w)
    else
      (Return (map (fun i => entropy w (drawn w + i)%nat mod 4294967296) (seq 0 n)),
       mkWorld (LocalState w) (now w) (network w) (entropy w) (drawn w + n)%nat
         (legacy_date w) (disk w) (trace w)).

(** [await fetch(url, { method: "POST", body, headers })] *)
Definition fetch (url body : string) : M Response :=
  emit (Fetch url body) ;;
  fun w =>
    match network w url body with
    | Responded r => (Return r, w)
    | Rejected => (Throw FetchRejected, w)
    end.

(** [await response.json()] *)
Definition json (r : Response) : M Json :=
  match parsed r with
  | Some j => ret j
  | None => throw JsonParseError
  end.

(** [const { ... } = json]: the properties of the parsed value; [null] has
    none, and destructuring it is a [TypeError]. *)
Definition destructure (j : Json) : M TokenBody.t :=
  match j with
  | JsonNull => throw TypeError
  | JsonTyped b | JsonScopeNotString b => ret b
  end.

(** Whether [scope.split] is reached on a truthy value that has none. *)
Definition scope_not_string (j : Json) : bool :=
  match j with
  | JsonScopeNotString _ => true
  | _ => false
  end.

(** [new Date(t).toISOString()], where [None] is [NaN]. *)
Definition Date_toISOString (t : option Z) : M string :=
  match t with
  | Some t => if Date.valid t then ret (Date.toISOString t) else throw RangeError
  | None => throw RangeError
  end.

(** The time value of [new Date(s)], [None] for an Invalid Date: the
    ISO form is read as printed, any other string is left to the host. *)
Definition Date_parse (w : World) (s : option string) : option Z :=
  match s with
  | Some s =>
      match Date.parse_iso s with
      | Some t => Some t
      | None => legacy_date w s
      end
  | None => None
  end.

(** ** The client, [user.ts] *)

Import JSString.

Definition Scopes : list Scope :=
  [ "account:read"; "user:read"; "workers:write"; "workers_kv:write";
    "workers_routes:write"; "workers_scripts:write"; "workers_tail:read";
    "zone:read" ].

Definition CLIENT_ID : string := "54d11594-84e4-41aa-b438-e81b8fa78ee7".
Definition AUTH_URL : string := "https://dash.cloudflare.com/oauth2/auth".
Definition TOKEN_URL : string := "https://dash.cloudflare.com/oauth2/token".
Definition CALLBACK_URL : string := "http://localhost:8976/oauth/callback".
Definition REVOKE_URL : string := "https://dash.cloudflare.com/oauth2/revoke".

Definition RECOMMENDED_CODE_VERIFIER_LENGTH : nat := 96.
Definition RECOMMENDED_STATE_LENGTH : nat := 32.

Definition PKCE_CHARSET : string :=
  "ABCDEFGHIJKLMNOPQRSTUVWXYZabcdefghijklmnopqrstuvwxyz0123456789-._~".

(** [a || b] on string slots. *)
Definition or_else (a : option string) (b : string) : string :=
  match a with
  | Some s => if String.eqb s EmptyString then b else s
  | None => b
  end.

(** [arr.join(sep)] *)
Fixpoint join (sep : string) (l : list string) : string :=
  match l with
  | [] => EmptyString
  | [s] => s
  | s :: l' => s +:+ sep +:+ join sep l'
  end.

(** [new (RawErrorToErrorClassMap[rawError] || ErrorUnknown)()]: the
    property key of [undefined] is the string ["undefined"]. *)
Definition toErrorClass (rawError : option string) : Outcome Thrown :=
  match table_get (interpolate rawError) with
  | Some (SlotClass c) => Return (Instance c)
  | Some SlotObject => Return PlainObject
  | Some SlotNotConstructor => Throw TypeError
  | None => Return (Instance ErrorUnknown)
  end.

(** What [throw toErrorClass(rawError)] throws: the object built, or the
    [TypeError] of building it. *)
Definition thrown (o : Outcome Thrown) : Thrown :=
  match o with
  | Return e => e
  | Throw e => e
  end.

Definition isReturningFromAuthServer (query : gmap string string) : M bool :=
  if truthy (query !! "error") then
    e <- lift (toErrorClass (query !! "error")) ;;
    throw e
  else
    let code := query !! "code" in
    if negb (truthy code) then ret false
    else
      state <- getState ;;
      let stateQueryParam := query !! "state" in
      if bool_decide (stateQueryParam <> State.stateQueryParam state) then
        emit (ConsoleWarn "state query string parameter doesn't match the one sent! Possible malicious activity somewhere.") ;;
        throw (Instance ErrorInvalidReturnedStateParam)
      else
        modify (State.set_authorizationCode code) ;;
        modify (State.set_hasAuthCodeBeenExchangedForAccessToken (Some false)) ;;
        ret true.

Definition base64urlEncode (value : string) : string :=
  let base64 := Base64.btoa value in
  let base64 := replace_char "+" "-" base64 in
  let base64 := replace_char "/" "_" base64 in
  let base64 := remove_char "=" base64 in
  base64.

(** [Array.from(output).map(num => PKCE_CHARSET[num % PKCE_CHARSET.length])],
    joined with the empty separator. *)
Definition charset_string (output : list Z) : string :=
  join_chars
    (map (fun num => index PKCE_CHARSET (num mod Z.of_nat (String.length PKCE_CHARSET)))
       output).

Definition generatePKCECodes : M PKCECodes.t :=
  output <- getRandomValues RECOMMENDED_CODE_VERIFIER_LENGTH ;;
  let codeVerifier := base64urlEncode (charset_string output) in
  let hash := SHA256.digest (utf8_encode codeVerifier) in
  let binary :=
    fold_left (fun binary byte => binary +:+ String (fromCharCode byte) EmptyString) hash EmptyString in
  let codeChallenge := base64urlEncode binary in
  ret (PKCECodes.mk codeChallenge codeVerifier).

Definition generateRandomState (lengthOfState : nat) : M string :=
  output <- getRandomValues lengthOfState ;;
  ret (charset_string output).

Definition getAuthURL : M string :=
  codes <- generatePKCECodes ;;
  let codeChallenge := PKCECodes.codeChallenge codes in
  let codeVerifier := PKCECodes.codeVerifier codes in
  stateQueryParam <- generateRandomState RECOMMENDED_STATE_LENGTH ;;
  modify (State.set_codeChallenge (Some codeChallenge)) ;;
  modify (State.set_codeVerifier (Some codeVerifier)) ;;
  modify (State.set_stateQueryParam (Some stateQueryParam)) ;;
  ret (AUTH_URL
       +:+ "?response_type=code&"
       +:+ "client_id=" +:+ encodeURIComponent CLIENT_ID +:+ "&"
       +:+ "redirect_uri=" +:+ encodeURIComponent CALLBACK_URL +:+ "&"
       +:+ "scope=" +:+ encodeURIComponent (join " " (Scopes ++ ["offline_access"])) +:+ "&"
       +:+ "state=" +:+ stateQueryParam +:+ "&"
       +:+ "code_challenge=" +:+ encodeURIComponent codeChallenge +:+ "&"
       +:+ "code_challenge_method=S256").

(** The part both exchanges share once the body is parsed and the access
    token built: store the token, the refresh token and the scopes, and
    return the access context. *)
Definition store_tokens (accessToken : AccessToken.t) (j : Json) (b : TokenBody.t)
  : M AccessContext.t :=
  modify (State.set_accessToken (Some accessToken)) ;;
  when (truthy (TokenBody.refresh_token b))
    (modify (State.set_refreshToken
               (Some (RefreshToken.mk (or_else (TokenBody.refresh_token b) EmptyString))))) ;;
  (if scope_not_string j then throw TypeError else ret tt) ;;
  let scopes :=
    if truthy (TokenBody.scope b) then split " " (or_else (TokenBody.scope b) EmptyString)
    else [] in
  when (truthy (TokenBody.scope b)) (modify (State.set_scopes (Some scopes))) ;;
  state <- getState ;;
  ret (AccessContext.mk (Some accessToken) (Some scopes) (State.refreshToken state)).

(** [Date.now() + expires_in * 1000], [NaN] when [expires_in] is
    [undefined]. *)
Definition expiry_time (t0 : Z) (expires_in : option Z) : option Z :=
  match expires_in with
  | Some n => Some (t0 + n * 1000)
  | None => None
  end.

(** The form body of the refresh request. *)
Definition refresh_request (refreshToken : option RefreshToken.t) : string :=
  "grant_type=refresh_token&"
  +:+ "refresh_token=" +:+ interpolate (RefreshToken.value <$> refreshToken) +:+ "&"
  +:+ "client_id=" +:+ CLIENT_ID.

Definition exchangeRefreshTokenForAccessToken : M AccessContext.t :=
  state <- getState ;;
  let refreshToken := State.refreshToken state in
  when (negb (bool_decide (is_Some refreshToken)))
    (emit (ConsoleWarn "No refresh token is present.")) ;;
  let url := TOKEN_URL in
  let body := refresh_request refreshToken in
  response <- fetch url body ;;
  if 400 <=? status response then
    j <- json response ;;
    throw (RawBody j)
  else
    try_catch
      (j <- json response ;;
       b <- destructure j ;;
       t0 <- Date_now ;;
       expiry <- Date_toISOString (expiry_time t0 (TokenBody.expires_in b)) ;;
       let accessToken := AccessToken.mk (TokenBody.access_token b) (Some expiry) in
       store_tokens accessToken j b)
      (fun err =>
         let error := or_else (error_of err) "There was a network error." in
         when (String.eqb error "invalid_grant")
           (emit (ConsoleLog "Expired! Auth code or refresh token needs to be renewed.")) ;;
         e <- lift (toErrorClass (Some error)) ;;
         throw e).

(** The form body of the authorization-code request. *)
Definition code_request (authorizationCode : option string) (codeVerifier : string)
  : string :=
  "grant_type=authorization_code&"
  +:+ "code=" +:+ encodeURIComponent (or_else authorizationCode EmptyString) +:+ "&"
  +:+ "redirect_uri=" +:+ encodeURIComponent CALLBACK_URL +:+ "&"
  +:+ "client_id=" +:+ encodeURIComponent CLIENT_ID +:+ "&"
  +:+ "code_verifier=" +:+ codeVerifier.

Definition exchangeAuthCodeForAccessToken : M AccessContext.t :=
  state <- getState ;;
  let authorizationCode := State.authorizationCode state in
  let codeVerifier := default EmptyString (State.codeVerifier state) in
  (if String.eqb codeVerifier EmptyString then
     emit (ConsoleWarn "No code verifier is being sent.")
   else
     when (negb (truthy authorizationCode))
       (emit (ConsoleWarn "No authorization grant code is being passed."))) ;;
  let url := TOKEN_URL in
  let body := code_request authorizationCode codeVerifier in
  response <- fetch url body ;;
  if negb (ok response) then
    j <- json response ;;
    b <- destructure j ;;
    let error := TokenBody.error b in
    when (bool_decide (error = Some "invalid_grant"))
      (emit (ConsoleLog "Expired! Auth code or refresh token needs to be renewed.")) ;;
    e <- lift (toErrorClass error) ;;
    throw e
  else
    j <- json response ;;
    b <- destructure j ;;
    modify (State.set_hasAuthCodeBeenExchangedForAccessToken (Some true)) ;;
    t0 <- Date_now ;;
    expiry <- Date_toISOString (expiry_time t0 (TokenBody.expires_in b)) ;;
    let accessToken := AccessToken.mk (TokenBody.access_token b) (Some expiry) in
    store_tokens accessToken j b.

Definition newline : string := String (ascii_of_nat 10) EmptyString.
Definition quote : string := String (ascii_of_nat 34) EmptyString.

(** [await writeFile(path, text, { encoding })]: the file is written
    whole, or the write is rejected (the directory is missing, the file is
    not writable) and nothing is written. *)
Definition writeFile (text : string) : M unit :=
  fun w =>
    if disk w text then (Return tt, logged (WriteConfigFile text) w)
    else (Throw WriteRejected, w).

Definition writeToConfigFile (tokenData : AccessContext.t) : M unit :=
  let token := AccessContext.token tokenData in
  writeFile
    ("oauth_token = " +:+ quote
     +:+ or_else (token ≫= AccessToken.value) EmptyString +:+ quote +:+ newline
     +:+ "refresh_token = " +:+ quote
     +:+ interpolate (RefreshToken.value <$> AccessContext.refreshToken tokenData)
     +:+ quote +:+ newline
     +:+ "expiration_time = " +:+ quote
     +:+ interpolate (token ≫= AccessToken.expiry) +:+ quote +:+ newline).


(** An incoming request of the local listener: [req.url] and what
    [url.parse(req.url, true)] makes of it, the query at its declared type
    ([{ [key: string]: string }]: every parameter once). *)
Record Request := {
  req_url : string;
  pathname : option string;
  query : gmap string string
}.

(** The request handler of [http.createServer]. *)
Definition server (req : Request) : M unit :=
  (if String.eqb (req_url req) EmptyString then throw AssertionError else ret tt) ;;
  (if bool_decide (pathname req = Some "/oauth/callback") then
     hasAuthCode <-
       try_catch (isReturningFromAuthServer (query req))
         (fun err => emit (ConsoleLogError err) ;; ret false) ;;
     if negb hasAuthCode then
       emit (ConsoleLog "no auth code, render error page")
     else
       state <- getState ;;
       if bool_decide (query req !! "code" = State.authorizationCode state) then
         tokenData <- exchangeAuthCodeForAccessToken ;;
         emit (ConsoleLogContext tokenData) ;;
         writeToConfigFile tokenData
       else
         emit (ConsoleLog "not matching?")
   else ret tt) ;;
  emit (ResponseEnd 200 ("Hello " +:+ req_url req)).

(** [Boolean(accessToken && new Date() >= new Date(accessToken.expiry))]:
    a comparison with an Invalid Date is false. *)
Definition isAccessTokenExpired (w : World) : bool :=
  match State.accessToken (LocalState w) with
  | Some accessToken =>
      match Date_parse w (AccessToken.expiry accessToken) with
      | Some expiry => expiry <=? now w
      | None => false
      end
  | None => false
  end.

(** ** The rest of the client: [refresh], [logout] *)

(** [refresh]: exchange the refresh token and persist the result; a
    failure is logged and thrown again. *)
Definition refresh : M unit :=
  try_catch
    (refreshed <- exchangeRefreshTokenForAccessToken ;;
     emit (ConsoleLogContext refreshed) ;;
     writeToConfigFile refreshed)
    (fun err =>
       emit (ConsoleLogError err) ;;
       throw err).

(** The form body of the revocation request. *)
Definition revoke_request (refreshToken : option RefreshToken.t) : string :=
  "client_id=" +:+ encodeURIComponent CLIENT_ID +:+ "&"
  +:+ "token_type_hint=refresh_token&"
  +:+ "token="
  +:+ encodeURIComponent (or_else (RefreshToken.value <$> refreshToken) EmptyString).

(** [logout]: post the refresh token to the revocation endpoint and read
    the answer's text, whatever it is. *)
Definition logout : M unit :=
  state <- getState ;;
  let refreshToken := State.refreshToken state in
  let body := revoke_request refreshToken in
  response <- fetch REVOKE_URL body ;;
  ret tt.

(** ** The configuration file *)

(** [TOML.parse] on the documents [writeToConfigFile] writes: lines of a
    bare key, [ = ], and a basic string of printable ASCII characters
    without escapes, each closed by a newline.  Keys map to their strings;
    a key that comes twice is an error. *)
Module Toml.

(** [A-Za-z0-9_-] *)
Definition key_char (c : ascii) : bool :=
  let n := charCode c in
  ((65 <=? n) && (n <=? 90)) || ((97 <=? n) && (n <=? 122))
  || ((48 <=? n) && (n <=? 57)) || (n =? 95) || (n =? 45).

(** Printable ASCII other than the quotation mark and the backslash. *)
Definition plain_char (c : ascii) : bool :=
  let n := charCode c in
  (32 <=? n) && (n <=? 126) && negb (n =? 34) && negb (n =? 92).

(** The longest prefix of characters that pass a test, and the rest. *)
Fixpoint take (test : ascii -> bool) (s : string) : string * string :=
  match s with
  | EmptyString => (EmptyString, EmptyString)
  | String c s' =>
      if test c then
        let '(front, rest) := take test s' in (String c front, rest)
      else (EmptyString, s)
  end.

(** The string without a prefix it starts with. *)
Fixpoint after (prefix s : string) : option string :=
  match prefix, s with
  | EmptyString, _ => Some s
  | String p prefix', String c s' =>
      if Ascii.eqb p c then after prefix' s' else None
  | String _ _, EmptyString => None
  end.

(** One line: its key, its value, and what follows the newline. *)
Definition line (s : string) : option (string * string * string) :=
  let '(key, s1) := take key_char s in
  if String.eqb key EmptyString then None
  else
    match after (" = " +:+ String (ascii_of_nat 34) EmptyString) s1 with
    | Some s2 =>
        let '(value, s3) := take plain_char s2 in
        match after (String (ascii_of_nat 34) (String (ascii_of_nat 10) EmptyString)) s3 with
        | Some rest => Some (key, value, rest)
        | None => None
        end
    | None => None
    end.

Fixpoint lines (fuel : nat) (s : string) (table : gmap string string)
  : option (gmap string string) :=
  if String.eqb s EmptyString then Some table
  else
    match fuel with
    | O => None
    | S fuel' =>
        match line s with
        | Some (key, value, rest) =>
            match table !! key with
            | Some _ => None
            | None => lines fuel' rest (<[key := value]> table)
            end
        | None => None
        end
    end.

Definition parse_simple (s : string) : option (gmap string string) :=
  lines (String.length s) s ∅.

End Toml.

(** [TOML.parse(text)], [None] when it throws: a document of simple
    lines is read as written, any other text is left to the host's
    parser.  Values are strings, the type the client asserts for the three
    it reads. *)
Definition TOML_parse (host : string -> option (gmap string string))
  (text : string) : option (gmap string string) :=
  match Toml.parse_simple text with
  | Some table => Some table
  | None => host text
  end.

(** The block that seeds [LocalState] when the module is loaded, on a
    parsed configuration: the access token when [oauth_token] is set, the
    refresh token when [refresh_token] is set. *)
Definition seed (toml : gmap string string) : State.t :=
  let oauth_token := toml !! "oauth_token" in
  let refresh_token := toml !! "refresh_token" in
  let expiration_time := toml !! "expiration_time" in
  let state := State.empty in
  let state :=
    if truthy oauth_token then
      State.set_accessToken (Some (AccessToken.mk oauth_token expiration_time)) state
    else state in
  if truthy refresh_token then
    State.set_refreshToken
      (Some (RefreshToken.mk (or_else refresh_token EmptyString))) state
  else state.

(** The whole block, on what [readFileSync] finds ([None]: it throws) and
    the host's TOML parser: the seeded state, and whether an error went to
    [console.error]. *)
Definition loadLocalState (host : string -> option (gmap string string))
  (file : option string) : State.t * bool :=
  match file with
  | Some text =>
      match TOML_parse host text with
      | Some toml => (seed toml, false)
      | None => (State.empty, true)
      end
  | None => (State.empty, true)
  end.

(** ** Reference definitions, from the specification's words *)

Module Reference.

Definition url_alphabet : list ascii :=
  list_ascii_of_string
    "ABCDEFGHIJKLMNOPQRSTUVWXYZabcdefghijklmnopqrstuvwxyz0123456789-_".

(** base64url without padding (RFC 4648, section 5): the URL-safe
    alphabet, and a short last group printed without ['=']. *)
Fixpoint base64url (s : string) : string :=
  match s with
  | EmptyString => EmptyString
  | String a EmptyString =>
      let a := charCode a in
      String (Base64.enc url_alphabet (Base64.group1 a))
        (String (Base64.enc url_alphabet (Base64.group2 a 0)) EmptyString)
  | String a (String b EmptyString) =>
      let a := charCode a in
      let b := charCode b in
      String (Base64.enc url_alphabet (Base64.group1 a))
        (String (Base64.enc url_alphabet (Base64.group2 a b))
           (String (Base64.enc url_alphabet (Base64.group3 b 0)) EmptyString))
  | String a (String b (String c rest)) =>
      let a := charCode a in
      let b := charCode b in
      let c := charCode c in
      String (Base64.enc url_alphabet (Base64.group1 a))
        (String (Base64.enc url_alphabet (Base64.group2 a b))
           (String (Base64.enc url_alphabet (Base64.group3 b c))
              (String (Base64.enc url_alphabet (Base64.group4 c)) (base64url rest))))
  end.

(** A digest as the binary string of its bytes. *)
Definition binary_string (bytes : list Z) : string :=
  string_of_list_ascii (map fromCharCode bytes).

(** The challenge of a verifier: base64url(SHA-256(verifier)). *)
Definition challenge_of (codeVerifier : string) : string :=
  base64url (binary_string (SHA256.digest (utf8_encode codeVerifier))).

End Reference.

(** ** Vocabulary of the statements *)

(** Whether a character occurs in a string. *)
Fixpoint contains (c : ascii) (s : string) : bool :=
  match s with
  | EmptyString => false
  | String c' s' => Ascii.eqb c' c || contains c s'
  end.

(** The requests of a trace, as (URL, body) pairs, oldest first. *)
Fixpoint fetches (l : list Event) : list (string * string) :=
  match l with
  | [] => []
  | Fetch url body :: l' => (url, body) :: fetches l'
  | _ :: l' => fetches l'
  end.

(** The two renamings of [base64urlEncode], on one character. *)
Definition rename (c : ascii) : ascii :=
  let c := if Ascii.eqb c "+" then "-"%char else c in
  if Ascii.eqb c "/" then "_"%char else c.

(** The warning of a state mismatch. *)
Definition mismatch_warning : Event :=
  ConsoleWarn "state query string parameter doesn't match the one sent! Possible malicious activity somewhere.".

(** The state after a callback is accepted. *)
Definition accepted (code : option string) (st : State.t) : State.t :=
  State.set_hasAuthCodeBeenExchangedForAccessToken (Some false)
    (State.set_authorizationCode code st).

(** The state after [getAuthURL] stored its three values. *)
Definition requested (codes : PKCECodes.t) (stateQueryParam : string) (st : State.t)
  : State.t :=
  State.set_stateQueryParam (Some stateQueryParam)
    (State.set_codeVerifier (Some (PKCECodes.codeVerifier codes))
       (State.set_codeChallenge (Some (PKCECodes.codeChallenge codes)) st)).

(** The scopes of a grant: the fields of its [scope], none without it. *)
Definition granted_scopes (b : TokenBody.t) : list Scope :=
  if truthy (TokenBody.scope b) then split " " (or_else (TokenBody.scope b) EmptyString)
  else [].

(** The session after a grant: the token, the refresh token when the body
    carries one, the scopes when the body carries them. *)
Definition granted_state (accessToken : AccessToken.t) (b : TokenBody.t)
  (st : State.t) : State.t :=
  let st := State.set_accessToken (Some accessToken) st in
  let st :=
    if truthy (TokenBody.refresh_token b) then
      State.set_refreshToken
        (Some (RefreshToken.mk (or_else (TokenBody.refresh_token b) EmptyString))) st
    else st in
  if truthy (TokenBody.scope b) then State.set_scopes (Some (granted_scopes b)) st
  else st.

(** The session once the tokens of a grant are stored and its scopes are
    not yet looked at. *)
Definition tokens_state (accessToken : AccessToken.t) (b : TokenBody.t)
  (st : State.t) : State.t :=
  let st := State.set_accessToken (Some accessToken) st in
  if truthy (TokenBody.refresh_token b) then
    State.set_refreshToken
      (Some (RefreshToken.mk (or_else (TokenBody.refresh_token b) EmptyString))) st
  else st.

(** The properties a parsed value is read for; [null] has none. *)
Definition properties (j : Json) : option TokenBody.t :=
  match j with
  | JsonNull => None
  | JsonTyped b | JsonScopeNotString b => Some b
  end.

(** The access context a grant returns. *)
Definition granted_context (accessToken : AccessToken.t) (b : TokenBody.t)
  (st : State.t) : AccessContext.t :=
  AccessContext.mk (Some accessToken) (Some (granted_scopes b))
    (State.refreshToken (granted_state accessToken b st)).

(** The token of a body received at [t0], when its expiry is a date. *)
Definition token_at (t0 : Z) (b : TokenBody.t) : option AccessToken.t :=
  match expiry_time t0 (TokenBody.expires_in b) with
  | Some t =>
      if Date.valid t then
        Some (AccessToken.mk (TokenBody.access_token b) (Some (Date.toISOString t)))
      else None
  | None => None
  end.

(** The world after the warnings of the code exchange. *)
Definition code_warned (w : World) : World :=
  let st := LocalState w in
  if String.eqb (default EmptyString (State.codeVerifier st)) EmptyString then
    logged (ConsoleWarn "No code verifier is being sent.") w
  else if negb (truthy (State.authorizationCode st)) then
    logged (ConsoleWarn "No authorization grant code is being passed.") w
  else w.

(** The request [exchangeAuthCodeForAccessToken] sends from a state, and
    the world once it is sent. *)
Definition code_request_of (st : State.t) : string :=
  code_request (State.authorizationCode st)
    (default EmptyString (State.codeVerifier st)).

Definition code_sent (w : World) : World :=
  logged (Fetch TOKEN_URL (code_request_of (LocalState w))) (code_warned w).

(** What both exchanges log on [invalid_grant]. *)
Definition expired_note : Event :=
  ConsoleLog "Expired! Auth code or refresh token needs to be renewed.".

(** The world after the warning of the refresh exchange. *)
Definition refresh_warned (w : World) : World :=
  if bool_decide (is_Some (State.refreshToken (LocalState w))) then w
  else logged (ConsoleWarn "No refresh token is present.") w.

(** The request [exchangeRefreshTokenForAccessToken] sends from a state,
    and the world once it is sent. *)
Definition refresh_request_of (st : State.t) : string :=
  refresh_request (State.refreshToken st).

Definition refresh_sent (w : World) : World :=
  logged (Fetch TOKEN_URL (refresh_request_of (LocalState w))) (refresh_warned w).

(** The two exchanges, to state what they share once. *)
Inductive Exchange :=
  | ByCode
  | ByRefreshToken.

Definition run_exchange (x : Exchange) : M AccessContext.t :=
  match x with
  | ByCode => exchangeAuthCodeForAccessToken
  | ByRefreshToken => exchangeRefreshTokenForAccessToken
  end.

Definition request_of (x : Exchange) (st : State.t) : string :=
  match x with
  | ByCode => code_request_of st
  | ByRefreshToken => refresh_request_of st
  end.

(** A state without its exchanged flag: two states with the same image
    agree on every other field. *)
Definition forget_exchanged (st : State.t) : State.t :=
  State.set_hasAuthCodeBeenExchangedForAccessToken None st.

(** The status test each exchange applies before it reads a grant:
    [!response.ok] for the code, [response.status >= 400] for the refresh
    token. *)
Definition refuses (x : Exchange) (r : Response) : bool :=
  match x with
  | ByCode => negb (ok r)
  | ByRefreshToken => 400 <=? status r
  end.

(** Whether the answer to the request of an exchange carries a [scope] of
    the asserted type: not a truthy value that is no string. *)
Definition scope_is_string (x : Exchange) (w : World) : bool :=
  match network w TOKEN_URL (request_of x (LocalState w)) with
  | Responded r =>
      match parsed r with
      | Some j => negb (scope_not_string j)
      | None => true
      end
  | Rejected => true
  end.

(** ** Vocabulary of the further statements *)

(** What a trace wrote to the configuration file, oldest first. *)
Fixpoint writes (l : list Event) : list string :=
  match l with
  | [] => []
  | WriteConfigFile content :: l' => content :: writes l'
  | _ :: l' => writes l'
  end.

(** The text [writeToConfigFile] writes for an access context. *)
Definition config_content (tokenData : AccessContext.t) : string :=
  let token := AccessContext.token tokenData in
  "oauth_token = " +:+ quote
  +:+ or_else (token ≫= AccessToken.value) EmptyString +:+ quote +:+ newline
  +:+ "refresh_token = " +:+ quote
  +:+ interpolate (RefreshToken.value <$> AccessContext.refreshToken tokenData)
  +:+ quote +:+ newline
  +:+ "expiration_time = " +:+ quote
  +:+ interpolate (token ≫= AccessToken.expiry) +:+ quote +:+ newline.

(** Whether every character of a string passes a test. *)
Fixpoint all_chars (test : ascii -> bool) (s : string) : bool :=
  match s with
  | EmptyString => true
  | String c s' => test c && all_chars test s'
  end.

(** What [encodeURIComponent] makes of one character. *)
Definition encode_char (c : ascii) : string :=
  let n := charCode c in
  if uri_unreserved n then String c EmptyString
  else if n <? 128 then percent n
  else percent (Z.lor 192 (Z.shiftr n 6)) +:+ percent (Z.lor 128 (Z.land n 63)).

(** The authorization URL for a state token and a challenge. *)
Definition authorization_url (stateQueryParam codeChallenge : string) : string :=
  "https://dash.cloudflare.com/oauth2/auth?response_type=code&client_id=54d11594-84e4-41aa-b438-e81b8fa78ee7&redirect_uri=http%3A%2F%2Flocalhost%3A8976%2Foauth%2Fcallback&scope=account%3Aread%20user%3Aread%20workers%3Awrite%20workers_kv%3Awrite%20workers_routes%3Awrite%20workers_scripts%3Awrite%20workers_tail%3Aread%20zone%3Aread%20offline_access&state="
  +:+ stateQueryParam +:+ "&code_challenge=" +:+ codeChallenge
  +:+ "&code_challenge_method=S256".

(** An encoded string consists of unreserved characters, ['%'] and
    hexadecimal digits. *)
Definition encoded_char (c : ascii) : bool :=
  uri_unreserved (charCode c) || Ascii.eqb c "%".

(** The responses a trace ended, and the messages it gave [console.log],
    oldest first. *)
Fixpoint responses (l : list Event) : list (Z * string) :=
  match l with
  | [] => []
  | ResponseEnd statusCode text :: l' => (statusCode, text) :: responses l'
  | _ :: l' => responses l'
  end.

Fixpoint logs (l : list Event) : list string :=
  match l with
  | [] => []
  | ConsoleLog msg :: l' => msg :: logs l'
  | _ :: l' => logs l'
  end.

(** Worlds and requests to run the client on. *)
Module Sample.

(** A token endpoint that gives every request the same answer. *)
Definition always (r : Response) : string -> string -> FetchResult :=
  fun _ _ => Responded r.

Definition granted : TokenBody.t :=
  TokenBody.mk None (Some "T") (Some 3600) (Some "R")
    (Some "account:read workers:write").

Definition invalid_grant : TokenBody.t :=
  TokenBody.mk (Some "invalid_grant") None None None None.

(** 2021-11-04T04:26:40Z *)
Definition t0 : Z := 1636000000000.

Definition world (st : State.t) (net : string -> string -> FetchResult) : World :=
  mkWorld st t0 net (fun i => Z.of_nat i * 7919 + 13) 0 (fun _ => None)
    (fun _ => true) [].

(** A session that waits for the callback of state [xyz]. *)
Definition pending : State.t :=
  State.mk None None (Some "challenge") (Some "verifier") None None (Some "xyz") None.

Definition callback (params : list (string * string)) : Request :=
  {| req_url := "/oauth/callback";
     pathname := Some "/oauth/callback";
     query := list_to_map params |}.

(** Two callbacks of the pending session, with different codes, and the
    world once the listener has handled the first against a granting
    endpoint. *)
Definition first_callback : Request :=
  callback [("code", "first"); ("state", "xyz")].

Definition second_callback : Request :=
  callback [("code", "second"); ("state", "xyz")].

Definition stale_callback : Request :=
  callback [("code", "second"); ("state", "old")].

Definition after_first : World :=
  snd (server first_callback
         (world pending (always (Build_Response 200 (Some granted))))).

End Sample.

(** * Properties *)

(** ** Strings *)

Lemma append_cons (c : ascii) (s1 s2 : string) :
  String c s1 +:+ s2 = String c (s1 +:+ s2).
Proof. reflexivity. Qed.

Lemma append_empty_r (s : string) : s +:+ EmptyString = s.
Proof.
  induction s as [|c s IH]; [reflexivity | now rewrite append_cons, IH].
Qed.

Lemma append_assoc (s1 s2 s3 : string) : (s1 +:+ s2) +:+ s3 = s1 +:+ (s2 +:+ s3).
Proof.
  induction s1 as [|c s1 IH]; [reflexivity | now rewrite !append_cons, IH].
Qed.

Lemma length_append (s1 s2 : string) :
  String.length (s1 +:+ s2) = (String.length s1 + String.length s2)%nat.
Proof.
  induction s1 as [|c s1 IH]; [reflexivity |].
  rewrite append_cons. simpl. now rewrite IH.
Qed.

(** Strings three characters at a time, the way [btoa] reads them. *)
Lemma string_by_threes (P : string -> Prop) :
  P EmptyString ->
  (forall a, P (String a EmptyString)) ->
  (forall a b, P (String a (String b EmptyString))) ->
  (forall a b c s, P s -> P (String a (String b (String c s)))) ->
  forall s, P s.
Proof.
  intros H0 H1 H2 H3 s.
  cut (P s /\ (forall a, P (String a s)) /\ (forall a b, P (String a (String b s)))).
  { tauto. }
  induction s as [|c s (IH0 & IH1 & IH2)].
  - auto.
  - repeat split; auto.
Qed.

(** The loop [binary += String.fromCharCode(hash[i])] builds the string of
    the bytes, in order. *)
Lemma binary_loop (bytes : list Z) (init : string) :
  fold_left (fun binary byte => binary +:+ String (fromCharCode byte) EmptyString)
    bytes init
  = init +:+ Reference.binary_string bytes.
Proof.
  revert init. induction bytes as [|b bytes IH]; intros init; simpl.
  - change (Reference.binary_string []) with EmptyString.
    now rewrite append_empty_r.
  - rewrite IH, append_assoc. reflexivity.
Qed.

(** ** base64url *)

Lemma enc_rename (n : Z) :
  rename (Base64.enc Base64.alphabet n) = Base64.enc Reference.url_alphabet n.
Proof.
  unfold Base64.enc.
  change "A"%char with (rename "A"%char) at 2.
  change Reference.url_alphabet with (map rename Base64.alphabet).
  now rewrite map_nth.
Qed.

Lemma enc_url_in (n : Z) :
  In (Base64.enc Reference.url_alphabet n) Reference.url_alphabet.
Proof.
  unfold Base64.enc.
  destruct (nth_in_or_default (Z.to_nat n) Reference.url_alphabet "A"%char)
    as [Hin | ->]; [exact Hin |].
  vm_compute. auto.
Qed.

Lemma url_alphabet_safe (c x : ascii) :
  In c Reference.url_alphabet ->
  In x ["+"; "/"; "="]%char ->
  Ascii.eqb c x = false.
Proof.
  intros Hc Hx.
  assert (forallb (fun c => forallb (fun x => negb (Ascii.eqb c x)) ["+"; "/"; "="]%char)
            Reference.url_alphabet = true) as Hall by (vm_compute; reflexivity).
  rewrite forallb_forall in Hall. specialize (Hall c Hc).
  rewrite forallb_forall in Hall. specialize (Hall x Hx).
  now apply negb_true_iff in Hall.
Qed.

Lemma enc_url_safe (n : Z) (x : ascii) :
  In x ["+"; "/"; "="]%char ->
  Ascii.eqb (Base64.enc Reference.url_alphabet n) x = false.
Proof. apply url_alphabet_safe, enc_url_in. Qed.

(** One character through the three passes of [base64urlEncode]. *)
Lemma passes_cons (c : ascii) (s : string) :
  remove_char "=" (replace_char "/" "_" (replace_char "+" "-" (String c s)))
  = if Ascii.eqb (rename c) "=" then
      remove_char "=" (replace_char "/" "_" (replace_char "+" "-" s))
    else
      String (rename c) (remove_char "=" (replace_char "/" "_" (replace_char "+" "-" s))).
Proof. reflexivity. Qed.

Lemma passes_enc (n : Z) (s : string) :
  remove_char "=" (replace_char "/" "_" (replace_char "+" "-"
    (String (Base64.enc Base64.alphabet n) s)))
  = String (Base64.enc Reference.url_alphabet n)
      (remove_char "=" (replace_char "/" "_" (replace_char "+" "-" s))).
Proof.
  rewrite passes_cons, enc_rename, enc_url_safe; [reflexivity | simpl; auto].
Qed.

(** [base64urlEncode] is base64url without padding. *)
Lemma base64urlEncode_reference (s : string) :
  base64urlEncode s = Reference.base64url s.
Proof.
  unfold base64urlEncode.
  induction s as [| a | a b | a b c s IH] using string_by_threes.
  - reflexivity.
  - cbn [Base64.btoa Reference.base64url]. now rewrite !passes_enc.
  - cbn [Base64.btoa Reference.base64url]. now rewrite !passes_enc.
  - cbn [Base64.btoa Reference.base64url]. rewrite !passes_enc. now rewrite IH.
Qed.

Lemma base64url_safe (x : ascii) (s : string) :
  In x ["+"; "/"; "="]%char ->
  contains x (Reference.base64url s) = false.
Proof.
  intros Hx.
  induction s as [| a | a b | a b c s IH] using string_by_threes;
    cbn [Reference.base64url contains];
    rewrite ?enc_url_safe by exact Hx; simpl; auto.
Qed.

Lemma base64url_length (s : string) :
  String.length (Reference.base64url s) = ((4 * String.length s + 2) / 3)%nat.
Proof.
  induction s as [| a | a b | a b c s IH] using string_by_threes;
    try reflexivity.
  cbn [Reference.base64url String.length]. rewrite IH.
  replace (4 * S (S (S (String.length s))) + 2)%nat
    with ((4 * String.length s + 2) + 4 * 3)%nat by lia.
  rewrite Nat.div_add by lia. lia.
Qed.

(** ** The PKCE generator *)

Lemma charset_index (num : Z) :
  is_Some (index PKCE_CHARSET (num mod Z.of_nat (String.length PKCE_CHARSET))).
Proof.
  change (Z.of_nat (String.length PKCE_CHARSET)) with 66.
  pose proof (Z.mod_pos_bound num 66 ltac:(lia)) as Hb.
  unfold index. destruct (Z.ltb_spec (num mod 66) 0) as [|_]; [lia |].
  assert (Z.to_nat (num mod 66) < 66)%nat as Hk by lia.
  revert Hk. generalize (Z.to_nat (num mod 66)) as k. intros k Hk.
  do 66 (destruct k as [|k]; [eexists; reflexivity |]). lia.
Qed.

Lemma charset_string_length (output : list Z) :
  String.length (charset_string output) = length output.
Proof.
  unfold charset_string.
  induction output as [|num output IH]; [reflexivity |].
  cbn [map join_chars].
  destruct (charset_index num) as [c ->].
  cbn [String.length]. now rewrite IH.
Qed.

Lemma getRandomValues_length (n : nat) (w : World) :
  Z.of_nat n <= 16384 ->
  exists output w',
    getRandomValues n w = (Return output, w')
    /\ length output = n
    /\ LocalState w' = LocalState w
    /\ trace w' = trace w.
Proof.
  intros Hn. unfold getRandomValues.
  destruct (Z.ltb_spec 65536 (4 * Z.of_nat n)) as [Hbig | _]; [lia |].
  eexists _, _. split; [reflexivity |].
  cbn [LocalState trace]. now rewrite length_map, length_seq.
Qed.

(** The two lengths the client draws are within the quota. *)
Lemma verifier_length_allowed : Z.of_nat RECOMMENDED_CODE_VERIFIER_LENGTH <= 16384.
Proof. unfold RECOMMENDED_CODE_VERIFIER_LENGTH. lia. Qed.

Lemma state_length_allowed : Z.of_nat RECOMMENDED_STATE_LENGTH <= 16384.
Proof. unfold RECOMMENDED_STATE_LENGTH. lia. Qed.

(** The digest has 32 bytes. *)
Lemma compress_length (h block : list Z) :
  length h = 8%nat -> length (SHA256.compress h block) = 8%nat.
Proof.
  intros Hh. unfold SHA256.compress.
  rewrite length_map, length_combine, Hh. reflexivity.
Qed.

Lemma blocks_length (fuel : nat) (h bs : list Z) :
  length h = 8%nat -> length (SHA256.blocks fuel h bs) = 8%nat.
Proof.
  revert h bs. induction fuel as [|fuel IH]; intros h bs Hh; simpl.
  - exact Hh.
  - apply IH, compress_length, Hh.
Qed.

Lemma flat_map_be_bytes_length (l : list Z) :
  length (flat_map (SHA256.be_bytes 4) l) = (4 * length l)%nat.
Proof.
  induction l as [|x l IH]; [reflexivity |].
  cbn [flat_map]. rewrite length_app, IH. simpl. lia.
Qed.

Lemma digest_length (msg : list Z) : length (SHA256.digest msg) = 32%nat.
Proof.
  unfold SHA256.digest.
  rewrite flat_map_be_bytes_length, blocks_length; reflexivity.
Qed.

Lemma binary_string_length (bytes : list Z) :
  String.length (Reference.binary_string bytes) = length bytes.
Proof.
  unfold Reference.binary_string.
  induction bytes as [|b bytes IH]; simpl; [reflexivity | now rewrite IH].
Qed.

(** What [generatePKCECodes] returns, in closed form. *)
Lemma generatePKCECodes_run (w : World) :
  exists output w',
    getRandomValues RECOMMENDED_CODE_VERIFIER_LENGTH w = (Return output, w')
    /\ length output = 96%nat
    /\ generatePKCECodes w
       = (Return
            (PKCECodes.mk
               (Reference.challenge_of (Reference.base64url (charset_string output)))
               (Reference.base64url (charset_string output))),
          w').
Proof.
  destruct (getRandomValues_length RECOMMENDED_CODE_VERIFIER_LENGTH w
              verifier_length_allowed)
    as (output & w' & Hrun & Hlen & _).
  exists output, w'. split; [exact Hrun |]. split; [exact Hlen |].
  unfold generatePKCECodes, bind. rewrite Hrun. unfold ret.
  rewrite binary_loop, !base64urlEncode_reference.
  reflexivity.
Qed.

(** C8. Every pair [generatePKCECodes] produces has a verifier of 43 to
    128 characters (of 128, exactly), a challenge that is the unpadded
    base64url of the SHA-256 digest of the verifier, and neither string
    holds a ['+'], a ['/'] or an ['=']. *)
Theorem generatePKCECodes_sound (w : World) :
  exists codes w',
    generatePKCECodes w = (Return codes, w')
    /\ (43 <= String.length (PKCECodes.codeVerifier codes) <= 128)%nat
    /\ String.length (PKCECodes.codeVerifier codes) = 128%nat
    /\ PKCECodes.codeChallenge codes
       = Reference.challenge_of (PKCECodes.codeVerifier codes)
    /\ (forall x, In x ["+"; "/"; "="]%char ->
          contains x (PKCECodes.codeVerifier codes) = false
          /\ contains x (PKCECodes.codeChallenge codes) = false).
Proof.
  destruct (generatePKCECodes_run w) as (output & w' & _ & Hlen & Hrun).
  eexists _, w'. split; [exact Hrun |].
  cbn [PKCECodes.codeVerifier PKCECodes.codeChallenge].
  assert (String.length (Reference.base64url (charset_string output)) = 128%nat)
    as Hv.
  { rewrite base64url_length, charset_string_length, Hlen. reflexivity. }
  repeat split.
  - rewrite Hv. lia.
  - rewrite Hv. lia.
  - exact Hv.
  - now apply base64url_safe.
  - unfold Reference.challenge_of. now apply base64url_safe.
Qed.

(** The challenge has 43 characters. *)
Lemma challenge_length (codeVerifier : string) :
  String.length (Reference.challenge_of codeVerifier) = 43%nat.
Proof.
  unfold Reference.challenge_of.
  rewrite base64url_length, binary_string_length, digest_length. reflexivity.
Qed.

(** The digest of ["abc"] (FIPS 180-4, appendix B.1). *)
Example digest_abc :
  SHA256.digest (utf8_encode "abc")
  = [ 0xba; 0x78; 0x16; 0xbf; 0x8f; 0x01; 0xcf; 0xea; 0x41; 0x41; 0x40; 0xde;
      0x5d; 0xae; 0x22; 0x23; 0xb0; 0x03; 0x61; 0xa3; 0x96; 0x17; 0x7a; 0x9c;
      0xb4; 0x10; 0xff; 0x61; 0xf2; 0x00; 0x15; 0xad ].
Proof. vm_compute. reflexivity. Qed.

(** The example of RFC 7636, appendix B. *)
Example challenge_rfc7636 :
  Reference.challenge_of "dBjftJeZ4CVP-mB92K27uhbUJU1p1r_wW1gFWFOEjXk"
  = "E9Melhoa2OwvFrEMTJguCHaoeK1t8URWbuGJSstw-cM".
Proof. vm_compute. reflexivity. Qed.

(** ** The callback check *)

Lemma throw_lifted {A} (o : Outcome Thrown) (w : World) :
  (e <- lift o ;; throw e) w = (@Throw A (thrown o), w).
Proof. unfold bind, lift, throw. now destruct o. Qed.

Lemma callback_error (query : gmap string string) (w : World) :
  truthy (query !! "error") = true ->
  isReturningFromAuthServer query w
  = (Throw (thrown (toErrorClass (query !! "error"))), w).
Proof.
  intros He. unfold isReturningFromAuthServer. rewrite He.
  apply throw_lifted.
Qed.

Lemma callback_no_code (query : gmap string string) (w : World) :
  truthy (query !! "error") = false ->
  truthy (query !! "code") = false ->
  isReturningFromAuthServer query w = (Return false, w).
Proof.
  intros He Hc. unfold isReturningFromAuthServer. now rewrite He, Hc.
Qed.

Lemma callback_mismatch (query : gmap string string) (w : World) :
  truthy (query !! "error") = false ->
  truthy (query !! "code") = true ->
  query !! "state" <> State.stateQueryParam (LocalState w) ->
  isReturningFromAuthServer query w
  = (Throw (Instance ErrorInvalidReturnedStateParam), logged mismatch_warning w).
Proof.
  intros He Hc Hs. unfold isReturningFromAuthServer. rewrite He, Hc.
  cbn [negb]. unfold bind at 1, getState.
  rewrite bool_decide_eq_true_2 by exact Hs. reflexivity.
Qed.

Lemma callback_accept (query : gmap string string) (w : World) :
  truthy (query !! "error") = false ->
  truthy (query !! "code") = true ->
  query !! "state" = State.stateQueryParam (LocalState w) ->
  isReturningFromAuthServer query w
  = (Return true, stored (accepted (query !! "code") (LocalState w)) w).
Proof.
  intros He Hc Hs. unfold isReturningFromAuthServer. rewrite He, Hc.
  cbn [negb]. unfold bind at 1, getState.
  rewrite bool_decide_eq_false_2 by (intros Hne; now apply Hne).
  reflexivity.
Qed.

Lemma truthy_Some (s : string) : s <> EmptyString -> truthy (Some s) = true.
Proof.
  intros Hs. unfold truthy. destruct (String.eqb_spec s EmptyString); [contradiction | reflexivity].
Qed.

(** C5. The callback check applies its tests in a fixed order: a provider
    error first, then a missing code, then the state comparison, then
    acceptance.  A query with [error=access_denied] throws
    [ErrorAccessDenied] whatever else it holds, and a query without a code
    (and without an error) returns [false] and leaves the world as it
    was. *)
Theorem callback_priority (query : gmap string string) (w : World) :
  (truthy (query !! "error") = true ->
     isReturningFromAuthServer query w
     = (Throw (thrown (toErrorClass (query !! "error"))), w))
  /\ (query !! "error" = Some "access_denied" ->
     isReturningFromAuthServer query w = (Throw (Instance ErrorAccessDenied), w))
  /\ (truthy (query !! "error") = false ->
      truthy (query !! "code") = false ->
     isReturningFromAuthServer query w = (Return false, w))
  /\ (truthy (query !! "error") = false ->
      truthy (query !! "code") = true ->
      query !! "state" <> State.stateQueryParam (LocalState w) ->
     exists w',
       isReturningFromAuthServer query w
       = (Throw (Instance ErrorInvalidReturnedStateParam), w')
       /\ LocalState w' = LocalState w)
  /\ (truthy (query !! "error") = false ->
      truthy (query !! "code") = true ->
      query !! "state" = State.stateQueryParam (LocalState w) ->
     exists w',
       isReturningFromAuthServer query w = (Return true, w')
       /\ State.authorizationCode (LocalState w') = query !! "code"
       /\ State.hasAuthCodeBeenExchangedForAccessToken (LocalState w') = Some false).
Proof.
  repeat split.
  - apply callback_error.
  - intros He. rewrite callback_error by now rewrite He.
    rewrite He. reflexivity.
  - apply callback_no_code.
  - intros He Hc Hs. eexists. split; [now apply callback_mismatch | reflexivity].
  - intros He Hc Hs. eexists. split; [now apply callback_accept |].
    split; reflexivity.
Qed.

Lemma callback_priority_witness :
  let query : gmap string string :=
    list_to_map [("error", "access_denied"); ("code", "abc"); ("state", "stale")] in
  let w := Sample.world Sample.pending (Sample.always (Build_Response 200 None)) in
  isReturningFromAuthServer query w = (Throw (Instance ErrorAccessDenied), w).
Proof.
  intros query w.
  apply (proj1 (proj2 (callback_priority query w))).
  reflexivity.
Defined.

(** ** The authorization request *)

(** [getAuthURL] always returns, and stores the state token it drew. *)
Lemma getAuthURL_run (w : World) :
  exists url codes stateQueryParam w',
    getAuthURL w = (Return url, w')
    /\ LocalState w' = requested codes stateQueryParam (LocalState w)
    /\ String.length stateQueryParam = RECOMMENDED_STATE_LENGTH.
Proof.
  destruct (generatePKCECodes_run w) as (out1 & w1 & Hr1 & _ & Hcodes).
  destruct (getRandomValues_length RECOMMENDED_STATE_LENGTH w1
              state_length_allowed)
    as (out2 & w2 & Hr2 & Hlen2 & Hst2 & _).
  assert (LocalState w1 = LocalState w) as Hst1.
  { destruct (getRandomValues_length RECOMMENDED_CODE_VERIFIER_LENGTH w
              verifier_length_allowed)
      as (o & w'' & Hr & _ & Hst & _).
    rewrite Hr1 in Hr. now injection Hr as _ <-. }
  unfold getAuthURL. unfold bind at 1. rewrite Hcodes.
  unfold bind at 1. unfold generateRandomState, bind at 1. rewrite Hr2.
  unfold ret at 1.
  eexists _, _, (charset_string out2), _. split; [reflexivity |].
  split.
  - cbn [LocalState stored]. unfold requested. rewrite Hst2, Hst1. reflexivity.
  - now rewrite charset_string_length.
Qed.

(** C6. After [getAuthURL] has stored a state token, a callback with a
    code and exactly that token is accepted: the code is stored and the
    exchanged flag is set to false.  A callback with a code and any other
    state (or none) throws [ErrorInvalidReturnedStateParam] and stores
    nothing. *)
Theorem authorization_round_trip
  (w : World) (query : gmap string string) (code : string) :
  truthy (query !! "error") = false ->
  query !! "code" = Some code ->
  code <> EmptyString ->
  exists url stateQueryParam w1,
    getAuthURL w = (Return url, w1)
    /\ State.stateQueryParam (LocalState w1) = Some stateQueryParam
    /\ (query !! "state" = Some stateQueryParam ->
        exists w2,
          isReturningFromAuthServer query w1 = (Return true, w2)
          /\ State.authorizationCode (LocalState w2) = Some code
          /\ State.hasAuthCodeBeenExchangedForAccessToken (LocalState w2)
             = Some false)
    /\ (query !! "state" <> Some stateQueryParam ->
        exists w2,
          isReturningFromAuthServer query w1
          = (Throw (Instance ErrorInvalidReturnedStateParam), w2)
          /\ LocalState w2 = LocalState w1).
Proof.
  intros He Hc Hne.
  destruct (getAuthURL_run w) as (url & codes & s & w1 & Hrun & Hst & _).
  assert (State.stateQueryParam (LocalState w1) = Some s) as Hs
    by now rewrite Hst.
  assert (truthy (query !! "code") = true) as Hcode
    by (rewrite Hc; now apply truthy_Some).
  exists url, s, w1. repeat split; [exact Hrun | exact Hs | |].
  - intros Hq. eexists. split.
    + apply callback_accept; [exact He | exact Hcode | now rewrite Hs].
    + split; [now rewrite <- Hc | reflexivity].
  - intros Hq. eexists. split.
    + apply callback_mismatch; [exact He | exact Hcode | now rewrite Hs].
    + reflexivity.
Qed.

Lemma authorization_round_trip_witness :
  let w := Sample.world State.empty (Sample.always (Build_Response 200 None)) in
  let query : gmap string string :=
    list_to_map [("code", "abc123"); ("state", "xwvutsrqponmlkjihgfedcbaZYXWVUTS")] in
  exists url stateQueryParam w1,
    getAuthURL w = (Return url, w1)
    /\ State.stateQueryParam (LocalState w1) = Some stateQueryParam
    /\ (query !! "state" = Some stateQueryParam ->
        exists w2,
          isReturningFromAuthServer query w1 = (Return true, w2)
          /\ State.authorizationCode (LocalState w2) = Some "abc123"
          /\ State.hasAuthCodeBeenExchangedForAccessToken (LocalState w2)
             = Some false)
    /\ (query !! "state" <> Some stateQueryParam ->
        exists w2,
          isReturningFromAuthServer query w1
          = (Throw (Instance ErrorInvalidReturnedStateParam), w2)
          /\ LocalState w2 = LocalState w1).
Proof.
  intros w query.
  apply (authorization_round_trip w query "abc123");
    [reflexivity | reflexivity | discriminate].
Defined.

(** The round trip of the sample world, run: the state token drawn is the
    one the callback carries, and the code is stored. *)
Example round_trip_run :
  let w := Sample.world State.empty (Sample.always (Build_Response 200 None)) in
  let query : gmap string string :=
    list_to_map [("code", "abc123"); ("state", "xwvutsrqponmlkjihgfedcbaZYXWVUTS")] in
  let w1 := snd (getAuthURL w) in
  State.stateQueryParam (LocalState w1) = Some "xwvutsrqponmlkjihgfedcbaZYXWVUTS"
  /\ fst (isReturningFromAuthServer query w1) = Return true
  /\ State.authorizationCode (LocalState (snd (isReturningFromAuthServer query w1)))
     = Some "abc123".
Proof. vm_compute. auto. Qed.

(** C7. A callback with a code and no [state] parameter throws
    [ErrorInvalidReturnedStateParam], and stores nothing, whenever a state
    token is stored; it is accepted exactly when no state token was ever
    stored. *)
Theorem callback_without_state
  (w : World) (query : gmap string string) (code : string) :
  truthy (query !! "error") = false ->
  query !! "code" = Some code ->
  code <> EmptyString ->
  query !! "state" = None ->
  (forall stateQueryParam,
     State.stateQueryParam (LocalState w) = Some stateQueryParam ->
     exists w',
       isReturningFromAuthServer query w
       = (Throw (Instance ErrorInvalidReturnedStateParam), w')
       /\ LocalState w' = LocalState w)
  /\ (fst (isReturningFromAuthServer query w) = Return true
      <-> State.stateQueryParam (LocalState w) = None).
Proof.
  intros He Hc Hne Hq.
  assert (truthy (query !! "code") = true) as Hcode
    by (rewrite Hc; now apply truthy_Some).
  split.
  - intros s Hs. eexists. split.
    + apply callback_mismatch; [exact He | exact Hcode | congruence].
    + reflexivity.
  - destruct (State.stateQueryParam (LocalState w)) as [s|] eqn:Hs.
    + rewrite callback_mismatch by (try assumption; congruence).
      cbn [fst]. split; discriminate.
    + rewrite callback_accept by (try assumption; congruence).
      cbn [fst]. split; reflexivity.
Qed.

Lemma callback_without_state_witness :
  let w := Sample.world Sample.pending (Sample.always (Build_Response 200 None)) in
  let query : gmap string string := list_to_map [("code", "abc123")] in
  (forall stateQueryParam,
     State.stateQueryParam (LocalState w) = Some stateQueryParam ->
     exists w',
       isReturningFromAuthServer query w
       = (Throw (Instance ErrorInvalidReturnedStateParam), w')
       /\ LocalState w' = LocalState w)
  /\ (fst (isReturningFromAuthServer query w) = Return true
      <-> State.stateQueryParam (LocalState w) = None).
Proof.
  intros w query.
  apply (callback_without_state w query "abc123");
    [reflexivity | reflexivity | discriminate | reflexivity].
Defined.

(** ** The token exchanges in closed form *)

(** The requests of two traces in a row. *)
Lemma fetches_app (l1 l2 : list Event) :
  fetches (l1 ++ l2) = (fetches l1 ++ fetches l2)%list.
Proof.
  induction l1 as [|e l1 IH]; [reflexivity |].
  destruct e; simpl; now rewrite IH.
Qed.

Lemma body_parsed (r : Response) (b : TokenBody.t) :
  body r = Some b -> parsed r = Some (JsonTyped b).
Proof.
  unfold body. destruct (parsed r) as [[| b' | b'] |]; try discriminate.
  now intros [= ->].
Qed.

Lemma store_tokens_run (accessToken : AccessToken.t) (j : Json) (b : TokenBody.t)
  (w : World) :
  store_tokens accessToken j b w
  = if scope_not_string j then
      (Throw TypeError, stored (tokens_state accessToken b (LocalState w)) w)
    else
      (Return (granted_context accessToken b (LocalState w)),
       stored (granted_state accessToken b (LocalState w)) w).
Proof.
  unfold store_tokens, granted_context, granted_state, granted_scopes, tokens_state,
    bind, when, modify, getState, ret, throw.
  destruct (scope_not_string j), (truthy (TokenBody.refresh_token b)),
    (truthy (TokenBody.scope b)); reflexivity.
Qed.

Lemma exchangeAuthCode_closed (w : World) :
  exchangeAuthCodeForAccessToken w
  = match network w TOKEN_URL (code_request_of (LocalState w)) with
    | Rejected => (Throw FetchRejected, code_sent w)
    | Responded r =>
        match parsed r with
        | None => (Throw JsonParseError, code_sent w)
        | Some j =>
            match properties j with
            | None => (Throw TypeError, code_sent w)
            | Some b =>
                if ok r then
                  let st :=
                    State.set_hasAuthCodeBeenExchangedForAccessToken (Some true)
                      (LocalState w) in
                  match token_at (now w) b with
                  | Some accessToken =>
                      if scope_not_string j then
                        (Throw TypeError,
                         stored (tokens_state accessToken b st) (code_sent w))
                      else
                        (Return (granted_context accessToken b st),
                         stored (granted_state accessToken b st) (code_sent w))
                  | None => (Throw RangeError, stored st (code_sent w))
                  end
                else
                  (Throw (thrown (toErrorClass (TokenBody.error b))),
                   if bool_decide (TokenBody.error b = Some "invalid_grant")
                   then logged expired_note (code_sent w)
                   else code_sent w)
            end
        end
    end.
Proof.
  unfold exchangeAuthCodeForAccessToken, code_sent, code_warned, code_request_of.
  unfold bind at 1. unfold getState at 1.
  set (req := code_request _ _).
  assert (forall w0 : World, network w0 = network w ->
            fetch TOKEN_URL req w0
            = match network w TOKEN_URL req with
              | Responded r => (Return r, logged (Fetch TOKEN_URL req) w0)
              | Rejected => (Throw FetchRejected, logged (Fetch TOKEN_URL req) w0)
              end) as Hfetch.
  { intros w0 Hw0. unfold fetch, bind, emit.
    change (network (logged (Fetch TOKEN_URL req) w0)) with (network w0).
    rewrite Hw0. reflexivity. }
  unfold bind at 1.
  assert (forall w0 : World,
            network w0 = network w -> now w0 = now w -> LocalState w0 = LocalState w ->
            (response <- fetch TOKEN_URL req ;;
             if negb (ok response) then
               j <- json response ;;
               b <- destructure j ;;
               let error := TokenBody.error b in
               when (bool_decide (error = Some "invalid_grant"))
                 (emit expired_note) ;;
               e <- lift (toErrorClass error) ;;
               throw e
             else
               j <- json response ;;
               b <- destructure j ;;
               modify (State.set_hasAuthCodeBeenExchangedForAccessToken (Some true)) ;;
               t0 <- Date_now ;;
               expiry <- Date_toISOString (expiry_time t0 (TokenBody.expires_in b)) ;;
               let accessToken := AccessToken.mk (TokenBody.access_token b) (Some expiry) in
               store_tokens accessToken j b) w0
            = match network w TOKEN_URL req with
              | Rejected => (Throw FetchRejected, logged (Fetch TOKEN_URL req) w0)
              | Responded r =>
                  match parsed r with
                  | None => (Throw JsonParseError, logged (Fetch TOKEN_URL req) w0)
                  | Some j =>
                      match properties j with
                      | None => (Throw TypeError, logged (Fetch TOKEN_URL req) w0)
                      | Some b =>
                          if ok r then
                            let st :=
                              State.set_hasAuthCodeBeenExchangedForAccessToken
                                (Some true) (LocalState w) in
                            match token_at (now w) b with
                            | Some accessToken =>
                                if scope_not_string j then
                                  (Throw TypeError,
                                   stored (tokens_state accessToken b st)
                                     (logged (Fetch TOKEN_URL req) w0))
                                else
                                  (Return (granted_context accessToken b st),
                                   stored (granted_state accessToken b st)
                                     (logged (Fetch TOKEN_URL req) w0))
                            | None =>
                                (Throw RangeError,
                                 stored st (logged (Fetch TOKEN_URL req) w0))
                            end
                          else
                            (Throw (thrown (toErrorClass (TokenBody.error b))),
                             if bool_decide (TokenBody.error b = Some "invalid_grant")
                             then logged expired_note (logged (Fetch TOKEN_URL req) w0)
                             else logged (Fetch TOKEN_URL req) w0)
                      end
                  end
              end) as Hrest.
  { intros w0 Hnet Hnow Hst. unfold bind at 1. rewrite (Hfetch w0 Hnet).
    destruct (network w TOKEN_URL req) as [r|]; [| reflexivity].
    unfold json.
    destruct (parsed r) as [j|]; [| now destruct (ok r)].
    assert (forall (k : Json -> TokenBody.t -> M AccessContext.t) w1,
              (j' <- ret j ;; b <- destructure j' ;; k j' b) w1
              = match properties j with
                | Some b => k j b w1
                | None => (Throw TypeError, w1)
                end) as Hread.
    { intros k w1. unfold bind at 1, ret at 1. now destruct j. }
    destruct (ok r); cbn [negb]; rewrite Hread;
      (destruct (properties j) as [b|]; [| reflexivity]).
    - cbv zeta. unfold bind at 1, modify at 1.
      unfold bind at 1, Date_now at 1.
      change (now (stored _ (logged _ w0))) with (now w0).
      change (LocalState (logged (Fetch TOKEN_URL req) w0)) with (LocalState w0).
      rewrite Hnow, Hst. unfold token_at, Date_toISOString.
      destruct (expiry_time (now w) (TokenBody.expires_in b)) as [t|];
        [| reflexivity].
      destruct (Date.valid t); [| reflexivity].
      unfold bind at 1, ret at 1. rewrite store_tokens_run.
      now destruct (scope_not_string j).
    - unfold bind at 1, when.
      destruct (bool_decide (TokenBody.error b = Some "invalid_grant"));
        unfold emit, ret; apply throw_lifted. }
  destruct (String.eqb (default EmptyString (State.codeVerifier (LocalState w)))
              EmptyString).
  - unfold emit at 1. apply Hrest; reflexivity.
  - unfold when at 1.
    destruct (negb (truthy (State.authorizationCode (LocalState w)))).
    + unfold emit at 1. apply Hrest; reflexivity.
    + unfold ret at 1. apply Hrest; reflexivity.
Qed.

(** What the [catch] of the refresh makes of a failure inside its [try]:
    neither a parse error nor a [RangeError] has an [error] property. *)
Lemma refresh_catch (err : Thrown) (w : World) :
  error_of err = None ->
  (let error := or_else (error_of err) "There was a network error." in
   when (String.eqb error "invalid_grant") (emit expired_note) ;;
   e <- lift (toErrorClass (Some error)) ;;
   throw e) w
  = (@Throw AccessContext.t (Instance ErrorUnknown), w).
Proof. intros ->. reflexivity. Qed.

Lemma exchangeRefresh_closed (w : World) :
  exchangeRefreshTokenForAccessToken w
  = match network w TOKEN_URL (refresh_request_of (LocalState w)) with
    | Rejected => (Throw FetchRejected, refresh_sent w)
    | Responded r =>
        if 400 <=? status r then
          match parsed r with
          | Some j => (Throw (RawBody j), refresh_sent w)
          | None => (Throw JsonParseError, refresh_sent w)
          end
        else
          match parsed r with
          | None => (Throw (Instance ErrorUnknown), refresh_sent w)
          | Some j =>
              match properties j with
              | None => (Throw (Instance ErrorUnknown), refresh_sent w)
              | Some b =>
                  match token_at (now w) b with
                  | Some accessToken =>
                      if scope_not_string j then
                        (Throw (Instance ErrorUnknown),
                         stored (tokens_state accessToken b (LocalState w))
                           (refresh_sent w))
                      else
                        (Return (granted_context accessToken b (LocalState w)),
                         stored (granted_state accessToken b (LocalState w))
                           (refresh_sent w))
                  | None => (Throw (Instance ErrorUnknown), refresh_sent w)
                  end
              end
          end
    end.
Proof.
  unfold exchangeRefreshTokenForAccessToken, refresh_sent, refresh_warned,
    refresh_request_of.
  unfold bind at 1. unfold getState at 1.
  set (req := refresh_request _).
  assert (forall w0 : World,
            network w0 = network w -> now w0 = now w -> LocalState w0 = LocalState w ->
            (response <- fetch TOKEN_URL req ;;
             if 400 <=? status response then
               j <- json response ;;
               throw (RawBody j)
             else
               try_catch
                 (j <- json response ;;
                  b <- destructure j ;;
                  t0 <- Date_now ;;
                  expiry <- Date_toISOString (expiry_time t0 (TokenBody.expires_in b)) ;;
                  let accessToken :=
                    AccessToken.mk (TokenBody.access_token b) (Some expiry) in
                  store_tokens accessToken j b)
                 (fun err =>
                    let error := or_else (error_of err) "There was a network error." in
                    when (String.eqb error "invalid_grant") (emit expired_note) ;;
                    e <- lift (toErrorClass (Some error)) ;;
                    throw e)) w0
            = match network w TOKEN_URL req with
              | Rejected => (Throw FetchRejected, logged (Fetch TOKEN_URL req) w0)
              | Responded r =>
                  if 400 <=? status r then
                    match parsed r with
                    | Some j => (Throw (RawBody j), logged (Fetch TOKEN_URL req) w0)
                    | None => (Throw JsonParseError, logged (Fetch TOKEN_URL req) w0)
                    end
                  else
                    match parsed r with
                    | None =>
                        (Throw (Instance ErrorUnknown), logged (Fetch TOKEN_URL req) w0)
                    | Some j =>
                        match properties j with
                        | None =>
                            (Throw (Instance ErrorUnknown),
                             logged (Fetch TOKEN_URL req) w0)
                        | Some b =>
                            match token_at (now w) b with
                            | Some accessToken =>
                                if scope_not_string j then
                                  (Throw (Instance ErrorUnknown),
                                   stored (tokens_state accessToken b (LocalState w))
                                     (logged (Fetch TOKEN_URL req) w0))
                                else
                                  (Return (granted_context accessToken b (LocalState w)),
                                   stored (granted_state accessToken b (LocalState w))
                                     (logged (Fetch TOKEN_URL req) w0))
                            | None =>
                                (Throw (Instance ErrorUnknown),
                                 logged (Fetch TOKEN_URL req) w0)
                            end
                        end
                    end
              end) as Hrest.
  { intros w0 Hnet Hnow Hst. unfold bind at 1, fetch, bind at 1, emit.
    change (network (logged (Fetch TOKEN_URL req) w0)) with (network w0).
    rewrite Hnet.
    destruct (network w TOKEN_URL req) as [r|]; [| reflexivity].
    destruct (400 <=? status r).
    - unfold json. destruct (parsed r); reflexivity.
    - unfold try_catch, json. destruct (parsed r) as [j|].
      2: { unfold bind at 1, throw at 1. now apply refresh_catch. }
      unfold bind at 1, ret at 1. unfold bind at 1.
      destruct j as [| b | b]; cbn [destructure properties].
      1: { unfold throw at 1. now apply refresh_catch. }
      all: unfold ret at 1; unfold bind at 1, Date_now at 1;
        change (now (logged (Fetch TOKEN_URL req) w0)) with (now w0);
        change (LocalState (logged (Fetch TOKEN_URL req) w0)) with (LocalState w0);
        rewrite Hnow; unfold token_at, Date_toISOString;
        (destruct (expiry_time (now w) (TokenBody.expires_in b)) as [t|];
         [| unfold bind at 1, throw at 1; now apply refresh_catch]);
        (destruct (Date.valid t);
         [| unfold bind at 1, throw at 1; now apply refresh_catch]);
        unfold bind at 1, ret at 1; rewrite store_tokens_run;
        cbn [scope_not_string];
        change (LocalState (logged (Fetch TOKEN_URL req) w0)) with (LocalState w0);
        rewrite Hst.
      + reflexivity.
      + now apply refresh_catch. }
  unfold bind at 1, when.
  destruct (bool_decide (is_Some (State.refreshToken (LocalState w)))); cbn [negb].
  - unfold ret at 1. apply Hrest; reflexivity.
  - unfold emit at 1. apply Hrest; reflexivity.
Qed.

(** ** Failing and succeeding exchanges *)

Lemma code_sent_state (w : World) : LocalState (code_sent w) = LocalState w.
Proof.
  unfold code_sent, code_warned.
  destruct (String.eqb _ _); [reflexivity |].
  destruct (negb _); reflexivity.
Qed.

Lemma code_sent_fetches (w : World) :
  fetches (trace (code_sent w))
  = (fetches (trace w) ++ [(TOKEN_URL, code_request_of (LocalState w))])%list.
Proof.
  unfold code_sent, code_warned. cbn [trace logged].
  destruct (String.eqb _ _); [| destruct (negb _)];
    cbn [trace logged]; rewrite !fetches_app; simpl;
    rewrite ?app_nil_r; reflexivity.
Qed.

Lemma refresh_sent_state (w : World) : LocalState (refresh_sent w) = LocalState w.
Proof.
  unfold refresh_sent, refresh_warned. destruct (bool_decide _); reflexivity.
Qed.

Lemma refresh_sent_fetches (w : World) :
  fetches (trace (refresh_sent w))
  = (fetches (trace w) ++ [(TOKEN_URL, refresh_request_of (LocalState w))])%list.
Proof.
  unfold refresh_sent, refresh_warned. cbn [trace logged].
  destruct (bool_decide _); cbn [trace logged]; rewrite !fetches_app; simpl;
    rewrite ?app_nil_r; reflexivity.
Qed.

Lemma ok_not_refused (x : Exchange) (r : Response) :
  ok r = true -> refuses x r = false.
Proof.
  unfold ok, refuses. intros Hok. apply andb_true_iff in Hok as [H1 H2].
  destruct x.
  - unfold ok. now rewrite H1, H2.
  - apply Z.leb_gt. apply Z.ltb_lt in H2. lia.
Qed.

(** An exchange whose response fails the status test throws and leaves
    [LocalState] exactly as it was; for the code exchange, a body
    [{error: "invalid_grant"}] on such a status throws
    [ErrorInvalidGrant]. *)
Lemma refused_exchange_keeps_state (x : Exchange) (w : World) (r : Response) :
  network w TOKEN_URL (request_of x (LocalState w)) = Responded r ->
  refuses x r = true ->
  exists e w',
    run_exchange x w = (Throw e, w')
    /\ LocalState w' = LocalState w
    /\ (x = ByCode ->
        forall b, body r = Some b ->
                  TokenBody.error b = Some "invalid_grant" ->
                  e = Instance ErrorInvalidGrant).
Proof.
  intros Hnet Href. destruct x; cbn [run_exchange request_of refuses] in *.
  - rewrite exchangeAuthCode_closed, Hnet.
    apply negb_true_iff in Href. unfold body.
    destruct (parsed r) as [[| b | b] |]; cbn [properties]; rewrite ?Href;
      eexists _, _; (split; [reflexivity |]);
      (split; [try destruct (bool_decide _); apply code_sent_state |]);
      intros _ b' [=]. subst b'. intros Herr. now rewrite Herr.
  - rewrite exchangeRefresh_closed, Hnet, Href.
    destruct (parsed r) as [j|]; eexists _, _;
      (split; [reflexivity |]); (split; [apply refresh_sent_state |]);
      intros [=].
Qed.

Lemma tokens_state_frame (accessToken : AccessToken.t) (b : TokenBody.t)
  (st : State.t) :
  let st' := tokens_state accessToken b st in
  State.authorizationCode st' = State.authorizationCode st
  /\ State.codeChallenge st' = State.codeChallenge st
  /\ State.codeVerifier st' = State.codeVerifier st
  /\ State.stateQueryParam st' = State.stateQueryParam st
  /\ State.hasAuthCodeBeenExchangedForAccessToken st'
     = State.hasAuthCodeBeenExchangedForAccessToken st
  /\ State.scopes st' = State.scopes st
  /\ State.accessToken st' = Some accessToken.
Proof.
  unfold tokens_state. destruct (truthy (TokenBody.refresh_token b)); repeat split.
Qed.

(** A failing exchange never changes the stored code, the PKCE pair, the
    state token or the scopes.  When the answer's [scope] has the asserted
    type it leaves every field of [LocalState] but the exchanged flag as
    it was, and a failing refresh leaves them all. *)
Lemma failed_exchange_keeps_fields
  (x : Exchange) (w : World) (e : Thrown) (w' : World) :
  run_exchange x w = (Throw e, w') ->
  (State.authorizationCode (LocalState w') = State.authorizationCode (LocalState w)
   /\ State.codeChallenge (LocalState w') = State.codeChallenge (LocalState w)
   /\ State.codeVerifier (LocalState w') = State.codeVerifier (LocalState w)
   /\ State.stateQueryParam (LocalState w') = State.stateQueryParam (LocalState w)
   /\ State.scopes (LocalState w') = State.scopes (LocalState w)
   /\ (x = ByRefreshToken ->
       State.hasAuthCodeBeenExchangedForAccessToken (LocalState w')
       = State.hasAuthCodeBeenExchangedForAccessToken (LocalState w)))
  /\ (scope_is_string x w = true ->
      forget_exchanged (LocalState w') = forget_exchanged (LocalState w)
      /\ (x = ByRefreshToken -> LocalState w' = LocalState w)).
Proof.
  unfold scope_is_string.
  destruct x; cbn [run_exchange request_of].
  - rewrite exchangeAuthCode_closed. pose proof (code_sent_state w) as Hs.
    destruct (network w TOKEN_URL (code_request_of (LocalState w))) as [r|].
    2: { intros [= <- <-]. rewrite Hs. repeat split; discriminate. }
    destruct (parsed r) as [j|].
    2: { intros [= <- <-]. rewrite Hs. repeat split; discriminate. }
    destruct (properties j) as [b|].
    2: { intros [= <- <-]. rewrite Hs. repeat split; discriminate. }
    destruct (ok r).
    + cbv zeta. destruct (token_at (now w) b) as [tok|].
      * destruct (scope_not_string j); [| discriminate].
        intros [= <- <-]. cbn [LocalState stored].
        destruct (tokens_state_frame tok b
                    (State.set_hasAuthCodeBeenExchangedForAccessToken (Some true)
                       (LocalState w)))
          as (-> & -> & -> & -> & _ & -> & _).
        split; [repeat split |]; discriminate.
      * intros [= <- <-]. cbn [LocalState stored].
        split; [repeat split; discriminate |].
        intros _. split; [reflexivity | discriminate].
    + destruct (bool_decide _); intros [= <- <-]; cbn [LocalState logged];
        rewrite Hs; repeat split; discriminate.
  - rewrite exchangeRefresh_closed. pose proof (refresh_sent_state w) as Hs.
    destruct (network w TOKEN_URL (refresh_request_of (LocalState w))) as [r|].
    2: { intros [= <- <-]. rewrite Hs. repeat split. }
    destruct (400 <=? status r).
    { destruct (parsed r); intros [= <- <-]; rewrite Hs; repeat split. }
    destruct (parsed r) as [j|].
    2: { intros [= <- <-]. rewrite Hs. repeat split. }
    destruct (properties j) as [b|].
    2: { intros [= <- <-]. rewrite Hs. repeat split. }
    destruct (token_at (now w) b) as [tok|].
    2: { intros [= <- <-]. rewrite Hs. repeat split. }
    destruct (scope_not_string j); [| discriminate].
    intros [= <- <-]. cbn [LocalState stored].
    destruct (tokens_state_frame tok b (LocalState w))
      as (-> & -> & -> & -> & -> & -> & _).
    split; [repeat split | discriminate].
Qed.

(** C2, as the code has it. A failing exchange never changes the stored
    code, the PKCE pair, the state token or the scopes.  Unless the answer
    carries a [scope] that is not a string, it leaves every field of
    [LocalState] but the exchanged flag as it was before the call (the
    access token and the refresh token among them), and the refresh
    exchange leaves [LocalState] exactly as it was.  Either exchange leaves
    [LocalState] exactly as it was when the response fails the status test
    ([!response.ok] for the code, [status >= 400] for the refresh token),
    which always makes the exchange fail.  A body
    [{error: "invalid_grant"}] on a non-success status makes the code
    exchange throw [ErrorInvalidGrant]. *)
Theorem failed_exchange_keeps_session (x : Exchange) (w : World) :
  (forall e w',
     run_exchange x w = (Throw e, w') ->
     State.authorizationCode (LocalState w') = State.authorizationCode (LocalState w)
     /\ State.codeChallenge (LocalState w') = State.codeChallenge (LocalState w)
     /\ State.codeVerifier (LocalState w') = State.codeVerifier (LocalState w)
     /\ State.stateQueryParam (LocalState w') = State.stateQueryParam (LocalState w)
     /\ State.scopes (LocalState w') = State.scopes (LocalState w)
     /\ (scope_is_string x w = true ->
         forget_exchanged (LocalState w') = forget_exchanged (LocalState w)
         /\ State.accessToken (LocalState w') = State.accessToken (LocalState w)
         /\ State.refreshToken (LocalState w') = State.refreshToken (LocalState w)
         /\ (x = ByRefreshToken -> LocalState w' = LocalState w)))
  /\ (forall r,
        network w TOKEN_URL (request_of x (LocalState w)) = Responded r ->
        refuses x r = true ->
        exists e w',
          run_exchange x w = (Throw e, w')
          /\ LocalState w' = LocalState w
          /\ (x = ByCode ->
              forall b, body r = Some b ->
                        TokenBody.error b = Some "invalid_grant" ->
                        e = Instance ErrorInvalidGrant)).
Proof.
  split.
  - intros e w' Hrun.
    destruct (failed_exchange_keeps_fields x w e w' Hrun)
      as [(Hcode & Hchal & Hver & Hstate & Hscopes & _) Htyped].
    split; [exact Hcode |]. split; [exact Hchal |]. split; [exact Hver |].
    split; [exact Hstate |]. split; [exact Hscopes |].
    intros Hscope. destruct (Htyped Hscope) as [Hkeep Hrefresh].
    split; [exact Hkeep |].
    split; [exact (f_equal State.accessToken Hkeep) |].
    split; [exact (f_equal State.refreshToken Hkeep) | exact Hrefresh].
  - apply refused_exchange_keeps_state.
Qed.

Lemma failed_exchange_keeps_session_witness :
  let w :=
    Sample.world Sample.pending
      (Sample.always (Build_Response 400 (Some Sample.invalid_grant))) in
  exists e w',
    exchangeAuthCodeForAccessToken w = (Throw e, w')
    /\ LocalState w' = LocalState w
    /\ (ByCode = ByCode ->
        forall b, Some Sample.invalid_grant = Some b ->
                  TokenBody.error b = Some "invalid_grant" ->
                  e = Instance ErrorInvalidGrant).
Proof.
  intros w.
  apply (proj2 (failed_exchange_keeps_session ByCode w)
           (Build_Response 400 (Some Sample.invalid_grant)));
    reflexivity.
Defined.

(** C2 fails as stated.  On a success status with the body
    [{error: "invalid_grant"}] the code exchange has already set the
    exchanged flag when building the expiry date throws, and what it
    throws is a [RangeError], not [ErrorInvalidGrant].  On a grant whose
    [scope] is not a string, either exchange has already stored the tokens
    when [scope.split] throws. *)
Lemma failed_exchange_changes_state :
  let w :=
    Sample.world Sample.pending
      (Sample.always (Build_Response 200 (Some Sample.invalid_grant))) in
  let run := exchangeAuthCodeForAccessToken w in
  let odd :=
    Sample.world Sample.pending
      (Sample.always (mkResponse 200 (Some (JsonScopeNotString Sample.granted)))) in
  (fst run = Throw RangeError
   /\ fst run <> Throw (Instance ErrorInvalidGrant)
   /\ State.hasAuthCodeBeenExchangedForAccessToken (LocalState w) = None
   /\ State.hasAuthCodeBeenExchangedForAccessToken (LocalState (snd run)) = Some true
   /\ LocalState (snd run) <> LocalState w)
  /\ (forall x,
        fst (run_exchange x odd)
        = Throw (match x with ByCode => TypeError | ByRefreshToken => Instance ErrorUnknown end)
        /\ State.accessToken (LocalState odd) = None
        /\ State.accessToken (LocalState (snd (run_exchange x odd)))
           = Some (AccessToken.mk (Some "T") (Some "2021-11-04T05:26:40.000Z"))
        /\ State.refreshToken (LocalState odd) = None
        /\ State.refreshToken (LocalState (snd (run_exchange x odd)))
           = Some (RefreshToken.mk "R")).
Proof.
  cbv zeta. split.
  - rewrite exchangeAuthCode_closed. repeat split; discriminate.
  - intros [|]; cbn [run_exchange];
      rewrite ?exchangeAuthCode_closed, ?exchangeRefresh_closed;
      repeat split.
Qed.

(** Strings the table owns are classified as the table says. *)
Lemma toErrorClass_table (rawError : string) (c : ErrorClass) :
  RawErrorToErrorClassMap !! rawError = Some c ->
  toErrorClass (Some rawError) = Return (Instance c).
Proof.
  intros Hc. unfold toErrorClass, table_get. cbn [interpolate]. now rewrite Hc.
Qed.

(** An absent error field is classified as unknown. *)
Lemma toErrorClass_undefined : toErrorClass None = Return (Instance ErrorUnknown).
Proof. reflexivity. Qed.

(** C3, as the code has it. The code exchange, on a non-success status
    with a body that parses to a value other than [null], throws the
    classification of the body's [error] field: the class the table gives
    it, [ErrorUnknown] when the field is absent.  The refresh exchange, on
    a status below 400, reports a parsed body other than [null] that has
    no usable [expires_in] as [ErrorUnknown], whatever its [error] field. *)
Theorem exchange_error_classification (w : World) (r : Response) :
  (network w TOKEN_URL (code_request_of (LocalState w)) = Responded r ->
   forall j b,
     ok r = false -> parsed r = Some j -> properties j = Some b ->
     fst (exchangeAuthCodeForAccessToken w)
     = Throw (thrown (toErrorClass (TokenBody.error b)))
     /\ (forall raw c, TokenBody.error b = Some raw ->
           RawErrorToErrorClassMap !! raw = Some c ->
           fst (exchangeAuthCodeForAccessToken w) = Throw (Instance c))
     /\ (TokenBody.error b = None ->
           fst (exchangeAuthCodeForAccessToken w) = Throw (Instance ErrorUnknown)))
  /\ (network w TOKEN_URL (refresh_request_of (LocalState w)) = Responded r ->
      status r < 400 ->
      forall j b,
        parsed r = Some j -> properties j = Some b -> token_at (now w) b = None ->
        fst (exchangeRefreshTokenForAccessToken w) = Throw (Instance ErrorUnknown)).
Proof.
  split.
  - intros Hnet j b Hok Hj Hb.
    rewrite exchangeAuthCode_closed, Hnet, Hj, Hb, Hok. cbn [fst]. repeat split.
    + intros raw c Hraw Hc. rewrite Hraw. now rewrite (toErrorClass_table raw c).
    + intros Hnone. now rewrite Hnone.
  - intros Hnet Hstatus j b Hj Hb Htok. rewrite exchangeRefresh_closed, Hnet.
    destruct (Z.leb_spec 400 (status r)) as [|_]; [lia |].
    now rewrite Hj, Hb, Htok.
Qed.

Lemma exchange_error_classification_witness :
  let w :=
    Sample.world Sample.pending
      (Sample.always (Build_Response 400 (Some Sample.invalid_grant))) in
  fst (exchangeAuthCodeForAccessToken w) = Throw (Instance ErrorInvalidGrant).
Proof.
  intros w.
  apply (proj1 (proj2
           (proj1 (exchange_error_classification w
                     (Build_Response 400 (Some Sample.invalid_grant)))
              eq_refl (JsonTyped Sample.invalid_grant) Sample.invalid_grant
              eq_refl eq_refl eq_refl))
           "invalid_grant" ErrorInvalidGrant);
    reflexivity.
Defined.

(** C3 fails as stated. The same body [{error: "invalid_grant"}] is
    classified on status 400 and ends in a [RangeError] on status 200; the
    refresh exchange throws the body itself on status 400 and
    [ErrorUnknown] on status 200; and a body that is not JSON surfaces as
    the parser's error, never as [ErrorInvalidJson]. *)
Lemma error_bodies_not_handled_alike :
  let refused :=
    Sample.world Sample.pending
      (Sample.always (Build_Response 400 (Some Sample.invalid_grant))) in
  let succeeded :=
    Sample.world Sample.pending
      (Sample.always (Build_Response 200 (Some Sample.invalid_grant))) in
  let garbled :=
    Sample.world Sample.pending (Sample.always (Build_Response 400 None)) in
  fst (exchangeAuthCodeForAccessToken refused) = Throw (Instance ErrorInvalidGrant)
  /\ fst (exchangeAuthCodeForAccessToken succeeded) = Throw RangeError
  /\ fst (exchangeRefreshTokenForAccessToken refused)
     = Throw (RawBody (JsonTyped Sample.invalid_grant))
  /\ fst (exchangeRefreshTokenForAccessToken succeeded) = Throw (Instance ErrorUnknown)
  /\ fst (exchangeAuthCodeForAccessToken garbled) = Throw JsonParseError
  /\ fst (exchangeRefreshTokenForAccessToken garbled) = Throw JsonParseError
  /\ RangeError <> Instance ErrorInvalidGrant
  /\ RawBody (JsonTyped Sample.invalid_grant) <> Instance ErrorInvalidGrant
  /\ JsonParseError <> Instance ErrorInvalidJson.
Proof.
  cbv zeta. rewrite !exchangeAuthCode_closed, !exchangeRefresh_closed.
  repeat split; discriminate.
Qed.

(** ** Refreshing without a refresh token *)

(** C4, as the code has it. With no refresh token stored, the refresh
    exchange warns and goes on: it posts the request, with the text
    [undefined] as the token, and ends as the response decides; on a
    grant it returns the access context. *)
Theorem refresh_without_token (w : World) :
  State.refreshToken (LocalState w) = None ->
  exists outcome w',
    exchangeRefreshTokenForAccessToken w = (outcome, w')
    /\ (exists rest,
          trace w'
          = (trace w
             ++ [ ConsoleWarn "No refresh token is present.";
                  Fetch TOKEN_URL
                    "grant_type=refresh_token&refresh_token=undefined&client_id=54d11594-84e4-41aa-b438-e81b8fa78ee7" ]
             ++ rest)%list)
    /\ (forall r b accessToken,
          network w TOKEN_URL (refresh_request_of (LocalState w)) = Responded r ->
          status r < 400 ->
          body r = Some b ->
          token_at (now w) b = Some accessToken ->
          outcome = Return (granted_context accessToken b (LocalState w))).
Proof.
  intros Hnone.
  assert (trace (refresh_sent w)
          = (trace w
             ++ [ ConsoleWarn "No refresh token is present.";
                  Fetch TOKEN_URL
                    "grant_type=refresh_token&refresh_token=undefined&client_id=54d11594-84e4-41aa-b438-e81b8fa78ee7" ]
             ++ [])%list) as Htrace.
  { unfold refresh_sent, refresh_warned, refresh_request_of. rewrite Hnone.
    rewrite bool_decide_eq_false_2 by (intros [? [=]]).
    cbn [trace logged]. rewrite <- app_assoc. reflexivity. }
  rewrite exchangeRefresh_closed.
  destruct (network w TOKEN_URL (refresh_request_of (LocalState w))) as [r|].
  - destruct (Z.leb_spec 400 (status r)) as [Hge | Hlt].
    + destruct (parsed r) as [j|]; eexists _, _;
        (split; [reflexivity |]); (split; [eexists; exact Htrace |]);
        intros r' b' tok [= <-] Hlt; lia.
    + destruct (parsed r) as [[| b | b] |] eqn:Hp; cbn [properties scope_not_string];
        try destruct (token_at (now w) b) as [tok|] eqn:Htok;
        eexists _, _; (split; [reflexivity |]);
        (split; [eexists; exact Htrace |]);
        intros r' b' tok' [= <-] _ Hb' Htok';
        apply body_parsed in Hb'; congruence.
  - eexists _, _. split; [reflexivity |]. split; [eexists; exact Htrace |].
    intros r' b' tok' [=].
Qed.

Lemma refresh_without_token_witness :
  let w :=
    Sample.world State.empty
      (Sample.always (Build_Response 200 (Some Sample.granted))) in
  exists outcome w',
    exchangeRefreshTokenForAccessToken w = (outcome, w')
    /\ (exists rest,
          trace w'
          = (trace w
             ++ [ ConsoleWarn "No refresh token is present.";
                  Fetch TOKEN_URL
                    "grant_type=refresh_token&refresh_token=undefined&client_id=54d11594-84e4-41aa-b438-e81b8fa78ee7" ]
             ++ rest)%list)
    /\ (forall r b accessToken,
          network w TOKEN_URL (refresh_request_of (LocalState w)) = Responded r ->
          status r < 400 ->
          body r = Some b ->
          token_at (now w) b = Some accessToken ->
          outcome = Return (granted_context accessToken b (LocalState w))).
Proof.
  intros w. apply (refresh_without_token w). reflexivity.
Defined.

(** C4 fails as stated: with no refresh token stored, the refresh
    exchange still posts to the token endpoint, and with a granting
    endpoint it returns an access context instead of failing. *)
Lemma refresh_without_token_is_sent :
  let w :=
    Sample.world State.empty
      (Sample.always (Build_Response 200 (Some Sample.granted))) in
  let run := exchangeRefreshTokenForAccessToken w in
  State.refreshToken (LocalState w) = None
  /\ fetches (trace (snd run))
     = [ (TOKEN_URL,
          "grant_type=refresh_token&refresh_token=undefined&client_id=54d11594-84e4-41aa-b438-e81b8fa78ee7") ]
  /\ (exists context, fst run = Return context)
  /\ State.refreshToken (LocalState (snd run)) = Some (RefreshToken.mk "R").
Proof.
  cbv zeta. rewrite exchangeRefresh_closed.
  repeat split. eexists. reflexivity.
Qed.

(** ** A granted exchange *)

(** A grant with a date for its expiry always returns. *)
Lemma granted_exchange_run
  (x : Exchange) (w : World) (r : Response) (b : TokenBody.t)
  (accessToken : AccessToken.t) :
  network w TOKEN_URL (request_of x (LocalState w)) = Responded r ->
  refuses x r = false ->
  body r = Some b ->
  token_at (now w) b = Some accessToken ->
  exists st w',
    run_exchange x w = (Return (granted_context accessToken b st), w')
    /\ LocalState w' = granted_state accessToken b st
    /\ State.refreshToken st = State.refreshToken (LocalState w).
Proof.
  intros Hnet Href Hb Htok. apply body_parsed in Hb.
  destruct x; cbn [run_exchange request_of refuses] in *.
  - rewrite exchangeAuthCode_closed, Hnet, Hb. cbn [properties scope_not_string].
    apply negb_false_iff in Href. rewrite Href. cbv zeta. rewrite Htok.
    eexists _, _. split; [reflexivity |]. split; reflexivity.
  - rewrite exchangeRefresh_closed, Hnet, Href, Hb.
    cbn [properties scope_not_string]. rewrite Htok.
    eexists _, _. split; [reflexivity |]. split; reflexivity.
Qed.

(** C9. A success response [{access_token: "T", expires_in: 3600,
    scope: "account:read workers:write"}] received at time [t0] makes
    either exchange return a context whose token is ["T"] with the expiry
    [t0] plus 3600 seconds (as an ISO date) and whose scopes are
    [account:read] and [workers:write]; with [refresh_token: "R"] the
    context and the session hold ["R"], and with no [refresh_token] field
    they keep the refresh token stored before. *)
Theorem exchange_grant
  (x : Exchange) (w : World) (r : Response) (b : TokenBody.t) :
  network w TOKEN_URL (request_of x (LocalState w)) = Responded r ->
  ok r = true ->
  body r = Some b ->
  TokenBody.access_token b = Some "T" ->
  TokenBody.expires_in b = Some 3600 ->
  TokenBody.scope b = Some "account:read workers:write" ->
  Date.valid (now w + 3600 * 1000) = true ->
  exists context w',
    run_exchange x w = (Return context, w')
    /\ AccessContext.token context
       = Some (AccessToken.mk (Some "T")
                 (Some (Date.toISOString (now w + 3600 * 1000))))
    /\ AccessContext.scopes context = Some ["account:read"; "workers:write"]
    /\ (TokenBody.refresh_token b = Some "R" ->
        AccessContext.refreshToken context = Some (RefreshToken.mk "R")
        /\ State.refreshToken (LocalState w') = Some (RefreshToken.mk "R"))
    /\ (TokenBody.refresh_token b = None ->
        AccessContext.refreshToken context = State.refreshToken (LocalState w)
        /\ State.refreshToken (LocalState w') = State.refreshToken (LocalState w)).
Proof.
  intros Hnet Hok Hb Htoken Hexp Hscope Hvalid.
  assert (token_at (now w) b
          = Some (AccessToken.mk (Some "T")
                    (Some (Date.toISOString (now w + 3600 * 1000))))) as Htok.
  { unfold token_at. rewrite Hexp. cbn [expiry_time]. now rewrite Hvalid, Htoken. }
  destruct (granted_exchange_run x w r b _ Hnet (ok_not_refused x r Hok) Hb Htok)
    as (st & w' & Hrun & Hst & Hprior).
  eexists _, w'. split; [exact Hrun |].
  unfold granted_context.
  cbn [AccessContext.token AccessContext.scopes AccessContext.refreshToken].
  split; [reflexivity |]. split.
  { unfold granted_scopes. rewrite Hscope. reflexivity. }
  rewrite Hst. unfold granted_state. rewrite Hscope.
  split; intros Hr; rewrite Hr; cbn; auto.
Qed.

Lemma exchange_grant_witness :
  let w :=
    Sample.world Sample.pending
      (Sample.always (Build_Response 200 (Some Sample.granted))) in
  exists context w',
    exchangeAuthCodeForAccessToken w = (Return context, w')
    /\ AccessContext.token context
       = Some (AccessToken.mk (Some "T") (Some "2021-11-04T05:26:40.000Z"))
    /\ AccessContext.scopes context = Some ["account:read"; "workers:write"]
    /\ (TokenBody.refresh_token Sample.granted = Some "R" ->
        AccessContext.refreshToken context = Some (RefreshToken.mk "R")
        /\ State.refreshToken (LocalState w') = Some (RefreshToken.mk "R"))
    /\ (TokenBody.refresh_token Sample.granted = None ->
        AccessContext.refreshToken context = State.refreshToken (LocalState w)
        /\ State.refreshToken (LocalState w') = State.refreshToken (LocalState w)).
Proof.
  intros w.
  apply (exchange_grant ByCode w (Build_Response 200 (Some Sample.granted))
           Sample.granted);
    reflexivity.
Defined.

(** A refresh whose grant carries no refresh token, run: the stored one
    stays. *)
Example refresh_keeps_refresh_token :
  let st := State.set_refreshToken (Some (RefreshToken.mk "old")) Sample.pending in
  let grant := TokenBody.mk None (Some "T") (Some 3600) None None in
  let w := Sample.world st (Sample.always (Build_Response 200 (Some grant))) in
  let run := exchangeRefreshTokenForAccessToken w in
  fst run
  = Return (AccessContext.mk
              (Some (AccessToken.mk (Some "T") (Some "2021-11-04T05:26:40.000Z")))
              (Some []) (Some (RefreshToken.mk "old")))
  /\ State.refreshToken (LocalState (snd run)) = Some (RefreshToken.mk "old").
Proof. vm_compute. auto. Qed.

(** ** The expiry test *)

(** C10. [isAccessTokenExpired] is true exactly when an access token is
    stored and the clock is at or past the time its expiry denotes: false
    with no token, true with an expiry in the past, false with an expiry
    in the future. *)
Theorem isAccessTokenExpired_iff (w : World) :
  (isAccessTokenExpired w = true
   <-> exists accessToken expiry,
         State.accessToken (LocalState w) = Some accessToken
         /\ Date_parse w (AccessToken.expiry accessToken) = Some expiry
         /\ expiry <= now w)
  /\ (State.accessToken (LocalState w) = None -> isAccessTokenExpired w = false)
  /\ (forall accessToken expiry,
        State.accessToken (LocalState w) = Some accessToken ->
        Date_parse w (AccessToken.expiry accessToken) = Some expiry ->
        (expiry < now w -> isAccessTokenExpired w = true)
        /\ (now w < expiry -> isAccessTokenExpired w = false)).
Proof.
  unfold isAccessTokenExpired. split; [split |]; [| | split].
  - destruct (State.accessToken (LocalState w)) as [tok|]; [| discriminate].
    destruct (Date_parse w (AccessToken.expiry tok)) as [t|] eqn:Ht;
      [| discriminate].
    intros Hle. exists tok, t. repeat split; [exact Ht | now apply Z.leb_le].
  - intros (tok & t & -> & -> & Hle). now apply Z.leb_le.
  - now intros ->.
  - intros tok t -> ->. split; intros Ht.
    + apply Z.leb_le. lia.
    + apply Z.leb_gt. lia.
Qed.

(** The expiry test, run on dates as [toISOString] prints them. *)
Example isAccessTokenExpired_run :
  let holding expiry :=
    Sample.world
      (State.set_accessToken (Some (AccessToken.mk (Some "T") (Some expiry)))
         State.empty)
      (Sample.always (Build_Response 200 None)) in
  isAccessTokenExpired (Sample.world State.empty (Sample.always (Build_Response 200 None)))
  = false
  /\ isAccessTokenExpired (holding "2021-11-04T04:26:39.999Z") = true
  /\ isAccessTokenExpired (holding "2021-11-04T04:26:40.000Z") = true
  /\ isAccessTokenExpired (holding "2021-11-04T04:26:40.001Z") = false
  /\ isAccessTokenExpired (holding "not a date") = false.
Proof. vm_compute. auto. Qed.

(** ** The listener *)

(** The write, accepted or rejected by the file system. *)
Lemma writeToConfigFile_content (tokenData : AccessContext.t) (w : World) :
  writeToConfigFile tokenData w
  = if disk w (config_content tokenData) then
      (Return tt, logged (WriteConfigFile (config_content tokenData)) w)
    else (Throw WriteRejected, w).
Proof. reflexivity. Qed.

Lemma writeToConfigFile_run (tokenData : AccessContext.t) (w : World) :
  exists outcome w',
    writeToConfigFile tokenData w = (outcome, w')
    /\ LocalState w' = LocalState w
    /\ fetches (trace w') = fetches (trace w).
Proof.
  rewrite writeToConfigFile_content.
  destruct (disk w (config_content tokenData)); eexists _, _;
    (split; [reflexivity |]); (split; [reflexivity |]); [| reflexivity].
  cbn [trace logged]. rewrite fetches_app. simpl. now rewrite app_nil_r.
Qed.

(** Every run of the code exchange posts exactly one request, the one of
    the stored code, and leaves the stored code alone. *)
Lemma exchangeAuthCode_effects (w : World) :
  fetches (trace (snd (exchangeAuthCodeForAccessToken w)))
  = (fetches (trace w) ++ [(TOKEN_URL, code_request_of (LocalState w))])%list
  /\ State.authorizationCode (LocalState (snd (exchangeAuthCodeForAccessToken w)))
     = State.authorizationCode (LocalState w).
Proof.
  rewrite exchangeAuthCode_closed.
  pose proof (code_sent_fetches w) as Hf. pose proof (code_sent_state w) as Hs.
  assert (State.authorizationCode (LocalState (code_sent w))
          = State.authorizationCode (LocalState w)) as Hc by now rewrite Hs.
  destruct (network w TOKEN_URL (code_request_of (LocalState w))) as [r|];
    [| split; [exact Hf | exact Hc]].
  destruct (parsed r) as [j|]; [| split; [exact Hf | exact Hc]].
  destruct (properties j) as [b|]; [| split; [exact Hf | exact Hc]].
  destruct (ok r).
  - cbv zeta.
    destruct (token_at (now w) b) as [tok|]; [destruct (scope_not_string j) |];
      cbn [snd trace LocalState stored].
    + split; [exact Hf |]. unfold tokens_state.
      destruct (truthy (TokenBody.refresh_token b)); reflexivity.
    + split; [exact Hf |]. unfold granted_state.
      destruct (truthy (TokenBody.refresh_token b)), (truthy (TokenBody.scope b));
        reflexivity.
    + split; [exact Hf | reflexivity].
  - destruct (bool_decide (TokenBody.error b = Some "invalid_grant"));
      cbn [snd trace LocalState logged]; [| split; [exact Hf | exact Hc]].
    split; [| exact Hc].
    rewrite fetches_app, Hf. simpl. now rewrite app_nil_r.
Qed.

(** The handler on a callback that the check accepts. *)
Lemma server_accepts (req : Request) (w : World) :
  req_url req <> EmptyString ->
  pathname req = Some "/oauth/callback" ->
  truthy (query req !! "error") = false ->
  truthy (query req !! "code") = true ->
  query req !! "state" = State.stateQueryParam (LocalState w) ->
  let w1 := stored (accepted (query req !! "code") (LocalState w)) w in
  exists outcome w',
    server req w = (outcome, w')
    /\ State.authorizationCode (LocalState w') = query req !! "code"
    /\ fetches (trace w')
       = (fetches (trace w) ++ [(TOKEN_URL, code_request_of (LocalState w1))])%list.
Proof.
  intros Hurl Hpath He Hc Hs w1.
  unfold server. unfold bind at 1.
  destruct (String.eqb_spec (req_url req) EmptyString) as [|_]; [contradiction |].
  unfold ret at 1. unfold bind at 1.
  rewrite bool_decide_eq_true_2 by exact Hpath.
  unfold bind at 1, try_catch.
  rewrite (callback_accept _ _ He Hc Hs). fold w1.
  cbn [negb]. unfold bind at 1, getState at 1.
  rewrite bool_decide_eq_true_2 by reflexivity.
  destruct (exchangeAuthCode_effects w1) as [Hf Hcode].
  unfold bind at 1.
  destruct (exchangeAuthCodeForAccessToken w1) as [[ctx | e] w2];
    cbn [snd] in Hf, Hcode.
  - unfold bind at 1, emit at 1.
    destruct (writeToConfigFile_run ctx (logged (ConsoleLogContext ctx) w2))
      as (written & w3 & Hwrite & Hst3 & Hf3).
    rewrite Hwrite.
    cbn [LocalState trace logged] in Hst3, Hf3.
    rewrite fetches_app in Hf3. simpl in Hf3. rewrite app_nil_r in Hf3.
    destruct written as [[] | e].
    + unfold emit. eexists _, _. split; [reflexivity |].
      cbn [LocalState trace logged]. rewrite Hst3. split; [exact Hcode |].
      rewrite fetches_app, Hf3, Hf. simpl. now rewrite app_nil_r.
    + eexists _, _. split; [reflexivity |]. rewrite Hst3, Hf3.
      split; [exact Hcode | exact Hf].
  - eexists _, _. split; [reflexivity |]. split; [exact Hcode | exact Hf].
Qed.

(** The handler on a callback that the check rejects for its state. *)
Lemma server_rejects_stale (req : Request) (w : World) :
  req_url req <> EmptyString ->
  pathname req = Some "/oauth/callback" ->
  truthy (query req !! "error") = false ->
  truthy (query req !! "code") = true ->
  query req !! "state" <> State.stateQueryParam (LocalState w) ->
  exists w',
    server req w = (Return tt, w')
    /\ LocalState w' = LocalState w
    /\ fetches (trace w') = fetches (trace w).
Proof.
  intros Hurl Hpath He Hc Hs.
  unfold server. unfold bind at 1.
  destruct (String.eqb_spec (req_url req) EmptyString) as [|_]; [contradiction |].
  unfold ret at 1. unfold bind at 1.
  rewrite bool_decide_eq_true_2 by exact Hpath.
  unfold bind at 1, try_catch.
  rewrite (callback_mismatch _ _ He Hc Hs).
  eexists. split; [reflexivity |]. split; [reflexivity |].
  cbn [trace logged]. rewrite !fetches_app. simpl. now rewrite !app_nil_r.
Qed.

(** C1, as the code has it. Once a callback has been accepted, a later
    callback with another code is a no-op only when its state is stale:
    the handler then returns, [LocalState] is untouched and nothing is
    posted.  With the stored state it is accepted like the first: the
    check replaces the stored code and sets the exchanged flag to false,
    and the handler posts a token request for the new code. *)
Theorem later_callback (req : Request) (w : World) (first code : string) :
  req_url req <> EmptyString ->
  pathname req = Some "/oauth/callback" ->
  truthy (query req !! "error") = false ->
  query req !! "code" = Some code ->
  code <> EmptyString ->
  State.authorizationCode (LocalState w) = Some first ->
  code <> first ->
  (query req !! "state" <> State.stateQueryParam (LocalState w) ->
   exists w',
     server req w = (Return tt, w')
     /\ LocalState w' = LocalState w
     /\ fetches (trace w') = fetches (trace w))
  /\ (query req !! "state" = State.stateQueryParam (LocalState w) ->
      (exists w1,
         isReturningFromAuthServer (query req) w = (Return true, w1)
         /\ State.authorizationCode (LocalState w1) = Some code
         /\ State.authorizationCode (LocalState w1)
            <> State.authorizationCode (LocalState w)
         /\ State.hasAuthCodeBeenExchangedForAccessToken (LocalState w1)
            = Some false)
      /\ (exists outcome w',
            server req w = (outcome, w')
            /\ State.authorizationCode (LocalState w') = Some code
            /\ fetches (trace w')
               = (fetches (trace w)
                  ++ [(TOKEN_URL,
                       code_request (Some code)
                         (default EmptyString (State.codeVerifier (LocalState w))))])%list)).
Proof.
  intros Hurl Hpath He Hc Hne Hfirst Hdiff.
  assert (truthy (query req !! "code") = true) as Hcode
    by (rewrite Hc; now apply truthy_Some).
  split; intros Hs.
  - now apply server_rejects_stale.
  - split.
    + eexists. split; [now apply callback_accept |].
      cbn [LocalState stored]. unfold accepted.
      cbn [State.authorizationCode State.set_authorizationCode
           State.set_hasAuthCodeBeenExchangedForAccessToken
           State.hasAuthCodeBeenExchangedForAccessToken].
      rewrite Hc, Hfirst. repeat split. congruence.
    + destruct (server_accepts req w Hurl Hpath He Hcode Hs)
        as (outcome & w' & Hrun & Hstored & Hf).
      exists outcome, w'. split; [exact Hrun |]. split; [congruence |].
      rewrite Hf, Hc. reflexivity.
Qed.

Lemma later_callback_witness :
  let req := Sample.second_callback in
  let w := Sample.after_first in
  (query req !! "state" <> State.stateQueryParam (LocalState w) ->
   exists w',
     server req w = (Return tt, w')
     /\ LocalState w' = LocalState w
     /\ fetches (trace w') = fetches (trace w))
  /\ (query req !! "state" = State.stateQueryParam (LocalState w) ->
      (exists w1,
         isReturningFromAuthServer (query req) w = (Return true, w1)
         /\ State.authorizationCode (LocalState w1) = Some "second"
         /\ State.authorizationCode (LocalState w1)
            <> State.authorizationCode (LocalState w)
         /\ State.hasAuthCodeBeenExchangedForAccessToken (LocalState w1)
            = Some false)
      /\ (exists outcome w',
            server req w = (outcome, w')
            /\ State.authorizationCode (LocalState w') = Some "second"
            /\ fetches (trace w')
               = (fetches (trace w)
                  ++ [(TOKEN_URL,
                       code_request (Some "second")
                         (default EmptyString (State.codeVerifier (LocalState w))))])%list)).
Proof.
  intros req w.
  apply (later_callback req w "first" "second");
    [discriminate | reflexivity | reflexivity | reflexivity | discriminate
    | reflexivity | discriminate].
Defined.

(** C1 fails as stated. After the callback with the code [first] was
    accepted and exchanged, a callback with the same state and the code
    [second] replaces the stored code, puts the exchanged flag back to
    false, and is exchanged in its turn. *)
Lemma second_callback_replaces_code :
  let w1 := Sample.after_first in
  let checked := snd (isReturningFromAuthServer (query Sample.second_callback) w1) in
  let w2 := snd (server Sample.second_callback w1) in
  State.authorizationCode (LocalState w1) = Some "first"
  /\ State.hasAuthCodeBeenExchangedForAccessToken (LocalState w1) = Some true
  /\ query Sample.second_callback !! "state" = State.stateQueryParam (LocalState w1)
  /\ fst (server Sample.second_callback w1) = Return tt
  /\ State.authorizationCode (LocalState w2) = Some "second"
  /\ State.hasAuthCodeBeenExchangedForAccessToken (LocalState checked) = Some false
  /\ fetches (trace w2)
     = [ (TOKEN_URL,
          "grant_type=authorization_code&code=first&redirect_uri=http%3A%2F%2Flocalhost%3A8976%2Foauth%2Fcallback&client_id=54d11594-84e4-41aa-b438-e81b8fa78ee7&code_verifier=verifier");
         (TOKEN_URL,
          "grant_type=authorization_code&code=second&redirect_uri=http%3A%2F%2Flocalhost%3A8976%2Foauth%2Fcallback&client_id=54d11594-84e4-41aa-b438-e81b8fa78ee7&code_verifier=verifier") ].
Proof. vm_compute. repeat split. Qed.

(** The stale callback of the sample, run: nothing is stored, nothing is
    posted. *)
Example stale_callback_run :
  let w1 := Sample.after_first in
  let w2 := snd (server Sample.stale_callback w1) in
  fst (server Sample.stale_callback w1) = Return tt
  /\ LocalState w2 = LocalState w1
  /\ fetches (trace w2) = fetches (trace w1).
Proof. vm_compute. repeat split. Qed.

(** ** Further properties of the client *)

Lemma get_contains (k : nat) (s : string) (c : ascii) :
  String.get k s = Some c -> contains c s = true.
Proof.
  revert k. induction s as [|c' s IH]; intros k Hk; [discriminate |].
  destruct k as [|k]; cbn [String.get contains] in *.
  - injection Hk as ->. now rewrite Ascii.eqb_refl.
  - rewrite (IH k Hk). apply orb_true_r.
Qed.

Lemma charset_string_charset (output : list Z) (c : ascii) :
  contains c (charset_string output) = true -> contains c PKCE_CHARSET = true.
Proof.
  unfold charset_string.
  induction output as [|num output IH]; [discriminate |].
  cbn [map join_chars].
  destruct (index PKCE_CHARSET (num mod Z.of_nat (String.length PKCE_CHARSET)))
    as [c'|] eqn:Hc'; [| exact IH].
  cbn [contains]. intros [Heq | Hin]%orb_true_iff; [| now apply IH].
  apply Ascii.eqb_eq in Heq. subst c'.
  unfold index in Hc'. destruct (_ <? 0); [discriminate |].
  now apply get_contains in Hc'.
Qed.

Lemma getRandomValues_drawn (n : nat) (w : World) :
  Z.of_nat n <= 16384 ->
  drawn (snd (getRandomValues n w)) = (drawn w + n)%nat.
Proof.
  intros Hn. unfold getRandomValues.
  destruct (Z.ltb_spec 65536 (4 * Z.of_nat n)) as [Hbig | _]; [lia |].
  reflexivity.
Qed.

(** X1. [base64urlEncode] is base64url without padding: it agrees with
    the reference encoder, its output has four characters for every three
    of the input (rounded up), and none of them is ['+'], ['/'] or ['=']. *)
Theorem base64urlEncode_unpadded (value : string) :
  base64urlEncode value = Reference.base64url value
  /\ String.length (base64urlEncode value)
     = ((4 * String.length value + 2) / 3)%nat
  /\ contains "+" (base64urlEncode value) = false
  /\ contains "/" (base64urlEncode value) = false
  /\ contains "=" (base64urlEncode value) = false.
Proof.
  rewrite base64urlEncode_reference.
  repeat split; [apply base64url_length | | |];
    apply base64url_safe; simpl; auto.
Qed.

Lemma generateRandomState_run (lengthOfState : nat) (w : World) :
  Z.of_nat lengthOfState <= 16384 ->
  exists stateQueryParam w',
    generateRandomState lengthOfState w = (Return stateQueryParam, w')
    /\ String.length stateQueryParam = lengthOfState
    /\ (forall c, contains c stateQueryParam = true ->
                  contains c PKCE_CHARSET = true)
    /\ LocalState w' = LocalState w
    /\ trace w' = trace w
    /\ drawn w' = (drawn w + lengthOfState)%nat.
Proof.
  intros Hquota.
  destruct (getRandomValues_length lengthOfState w Hquota)
    as (output & w' & Hrun & Hlen & Hst & Htr).
  exists (charset_string output), w'.
  unfold generateRandomState, bind. rewrite Hrun. unfold ret.
  split; [reflexivity |]. split; [now rewrite charset_string_length |].
  split; [apply charset_string_charset |]. split; [exact Hst |].
  split; [exact Htr |].
  pose proof (getRandomValues_drawn lengthOfState w Hquota) as Hd.
  now rewrite Hrun in Hd.
Qed.

(** X2. [generateRandomState] of a length up to 16384 (the most
    [getRandomValues] fills at once) returns a string of that length over
    [PKCE_CHARSET], draws that many random numbers, and touches neither
    [LocalState] nor the trace.  Of a greater length it returns no string:
    it throws, and the world is as before. *)
Theorem generateRandomState_sound (lengthOfState : nat) (w : World) :
  (Z.of_nat lengthOfState <= 16384 ->
   exists stateQueryParam w',
     generateRandomState lengthOfState w = (Return stateQueryParam, w')
     /\ String.length stateQueryParam = lengthOfState
     /\ (forall c, contains c stateQueryParam = true ->
                   contains c PKCE_CHARSET = true)
     /\ LocalState w' = LocalState w
     /\ trace w' = trace w
     /\ drawn w' = (drawn w + lengthOfState)%nat)
  /\ (16384 < Z.of_nat lengthOfState ->
      exists e, generateRandomState lengthOfState w = (Throw e, w)).
Proof.
  split.
  - apply generateRandomState_run.
  - intros Hbig. exists QuotaExceededError.
    unfold generateRandomState, bind, getRandomValues.
    destruct (Z.ltb_spec 65536 (4 * Z.of_nat lengthOfState)) as [_ | Hle];
      [reflexivity | lia].
Qed.

(** X4. [getAuthURL] always returns; it overwrites the challenge, the
    verifier and the state of [LocalState] and nothing else, draws 128
    fresh random numbers (96 for the verifier, then 32 for the state), and
    posts nothing. *)
Theorem getAuthURL_effects (w : World) :
  exists url codes stateQueryParam w',
    getAuthURL w = (Return url, w')
    /\ LocalState w' = requested codes stateQueryParam (LocalState w)
    /\ String.length (PKCECodes.codeVerifier codes) = 128%nat
    /\ String.length (PKCECodes.codeChallenge codes) = 43%nat
    /\ String.length stateQueryParam = 32%nat
    /\ State.accessToken (LocalState w') = State.accessToken (LocalState w)
    /\ State.refreshToken (LocalState w') = State.refreshToken (LocalState w)
    /\ State.authorizationCode (LocalState w')
       = State.authorizationCode (LocalState w)
    /\ drawn w' = (drawn w + 128)%nat
    /\ trace w' = trace w.
Proof.
  destruct (generatePKCECodes_run w) as (out1 & w1 & Hr1 & Hlen1 & Hcodes).
  destruct (generateRandomState_run RECOMMENDED_STATE_LENGTH w1
              state_length_allowed)
    as (s & w2 & Hr2 & Hlen2 & _ & Hst2 & Htr2 & Hdr2).
  assert (LocalState w1 = LocalState w /\ trace w1 = trace w
          /\ drawn w1 = (drawn w + 96)%nat) as (Hst1 & Htr1 & Hdr1).
  { destruct (getRandomValues_length RECOMMENDED_CODE_VERIFIER_LENGTH w
              verifier_length_allowed)
      as (o & w'' & Hr & _ & Hst & Htr).
    pose proof (getRandomValues_drawn RECOMMENDED_CODE_VERIFIER_LENGTH w
                  verifier_length_allowed) as Hd.
    rewrite Hr1 in Hr, Hd. injection Hr as _ <-. auto. }
  unfold getAuthURL. unfold bind at 1. rewrite Hcodes.
  unfold bind at 1. rewrite Hr2.
  eexists _,
    (PKCECodes.mk
       (Reference.challenge_of (Reference.base64url (charset_string out1)))
       (Reference.base64url (charset_string out1))), s, _.
  split; [reflexivity |].
  cbn [LocalState stored trace drawn]. rewrite Hst2, Hst1, Htr2, Htr1, Hdr2, Hdr1.
  cbn [PKCECodes.codeVerifier PKCECodes.codeChallenge].
  split; [reflexivity |]. split.
  { rewrite base64url_length, charset_string_length, Hlen1. reflexivity. }
  split; [apply challenge_length |]. split; [exact Hlen2 |].
  split; [reflexivity |]. split; [reflexivity |]. split; [reflexivity |].
  split; [| reflexivity].
  change RECOMMENDED_STATE_LENGTH with 32%nat. lia.
Qed.

(** ** Refreshing and logging out *)

Lemma writes_app (l1 l2 : list Event) :
  writes (l1 ++ l2) = (writes l1 ++ writes l2)%list.
Proof.
  induction l1 as [|e l1 IH]; [reflexivity |].
  destruct e; simpl; now rewrite IH.
Qed.

Lemma refresh_sent_writes (w : World) :
  writes (trace (refresh_sent w)) = writes (trace w)
  /\ disk (refresh_sent w) = disk w.
Proof.
  unfold refresh_sent, refresh_warned. cbn [trace logged].
  destruct (bool_decide _); cbn [trace logged]; rewrite !writes_app; simpl;
    now rewrite ?app_nil_r.
Qed.

(** The refresh exchange writes nothing to the configuration file and
    leaves the file system alone. *)
Lemma exchangeRefresh_writes (w : World) :
  writes (trace (snd (exchangeRefreshTokenForAccessToken w))) = writes (trace w)
  /\ disk (snd (exchangeRefreshTokenForAccessToken w)) = disk w.
Proof.
  rewrite exchangeRefresh_closed. pose proof (refresh_sent_writes w) as Hw.
  destruct (network w TOKEN_URL (refresh_request_of (LocalState w))) as [r|];
    [| exact Hw].
  destruct (400 <=? status r), (parsed r) as [j|];
    try destruct (properties j) as [b|];
    try destruct (token_at (now w) b);
    try destruct (scope_not_string j); exact Hw.
Qed.

(** X5. [refresh] writes the configuration file exactly when the refresh
    exchange returns and the file system accepts the write: it then
    returns, with the grant stored, and has written the text of the
    returned context.  When the write is rejected, [refresh] throws the
    rejection: the grant is stored in [LocalState] and no file is written.
    When the exchange throws, [refresh] throws the same value, adds no
    change of its own to [LocalState] (which is as before the call unless
    the answer's [scope] is not a string) and writes nothing. *)
Theorem refresh_effects (w : World) :
  (forall tokenData w1,
     exchangeRefreshTokenForAccessToken w = (Return tokenData, w1) ->
     exists outcome w',
       refresh w = (outcome, w')
       /\ LocalState w' = LocalState w1
       /\ (disk w (config_content tokenData) = true ->
           outcome = Return tt
           /\ writes (trace w')
              = (writes (trace w) ++ [config_content tokenData])%list)
       /\ (disk w (config_content tokenData) = false ->
           outcome = Throw WriteRejected
           /\ writes (trace w') = writes (trace w)))
  /\ (forall err w1,
        exchangeRefreshTokenForAccessToken w = (Throw err, w1) ->
        exists w',
          refresh w = (Throw err, w')
          /\ LocalState w' = LocalState w1
          /\ writes (trace w') = writes (trace w)
          /\ (scope_is_string ByRefreshToken w = true ->
              LocalState w' = LocalState w)).
Proof.
  destruct (exchangeRefresh_writes w) as [Hw Hdisk].
  split.
  - intros tokenData w1 Hrun. rewrite Hrun in Hw, Hdisk. cbn [snd] in Hw, Hdisk.
    unfold refresh, try_catch, bind at 1. rewrite Hrun.
    unfold bind at 1, emit at 1. rewrite writeToConfigFile_content.
    change (disk (logged (ConsoleLogContext tokenData) w1)) with (disk w1).
    rewrite Hdisk.
    destruct (disk w (config_content tokenData)).
    + eexists _, _. split; [reflexivity |]. split; [reflexivity |].
      split; [| discriminate]. intros _. split; [reflexivity |].
      cbn [trace logged]. rewrite !writes_app, Hw. simpl.
      now rewrite app_nil_r.
    + unfold bind, emit, throw.
      eexists _, _. split; [reflexivity |]. split; [reflexivity |].
      split; [discriminate |]. intros _. split; [reflexivity |].
      cbn [trace logged]. rewrite !writes_app, Hw. simpl.
      now rewrite !app_nil_r.
  - intros err w1 Hrun. rewrite Hrun in Hw. cbn [snd] in Hw.
    destruct (failed_exchange_keeps_fields ByRefreshToken w err w1 Hrun)
      as [_ Hst].
    unfold refresh, try_catch, bind at 1. rewrite Hrun.
    unfold bind, emit, throw.
    eexists. split; [reflexivity |]. split; [reflexivity |].
    split.
    + cbn [trace logged]. rewrite writes_app, Hw. simpl. now rewrite app_nil_r.
    + intros Hscope. now apply (Hst Hscope).
Qed.

(** X6. [logout] posts one request to the revocation endpoint, with the
    stored refresh token (or nothing) as the token; it returns whatever
    the response is, throws only when the network fails, and in either
    case leaves [LocalState] as it was: the session keeps its tokens, and
    the configuration file is not written. *)
Theorem logout_effects (w : World) :
  exists outcome w',
    logout w = (outcome, w')
    /\ LocalState w' = LocalState w
    /\ trace w'
       = (trace w
          ++ [Fetch REVOKE_URL (revoke_request (State.refreshToken (LocalState w)))])%list
    /\ (forall r,
          network w REVOKE_URL (revoke_request (State.refreshToken (LocalState w)))
          = Responded r ->
          outcome = Return tt)
    /\ (network w REVOKE_URL (revoke_request (State.refreshToken (LocalState w)))
        = Rejected ->
        outcome = Throw FetchRejected)
    /\ isAccessTokenExpired w' = isAccessTokenExpired w.
Proof.
  unfold logout, bind at 1, getState. unfold bind at 1, fetch, bind at 1, emit.
  change (network (logged ?e w)) with (network w).
  destruct (network w REVOKE_URL
              (revoke_request (State.refreshToken (LocalState w)))) as [r|];
    eexists _, _; (split; [reflexivity |]); repeat split;
    try discriminate.
Qed.

(** [logout] with no refresh token stored, run: the token sent is empty. *)
Example logout_without_token :
  let w := Sample.world Sample.pending (Sample.always (Build_Response 500 None)) in
  fst (logout w) = Return tt
  /\ fetches (trace (snd (logout w)))
     = [ (REVOKE_URL,
          "client_id=54d11594-84e4-41aa-b438-e81b8fa78ee7&token_type_hint=refresh_token&token=") ].
Proof. vm_compute. auto. Qed.

(** ** What the exchanges and the callback check leave alone *)

Lemma granted_state_frame (accessToken : AccessToken.t) (b : TokenBody.t)
  (st : State.t) :
  let st' := granted_state accessToken b st in
  State.authorizationCode st' = State.authorizationCode st
  /\ State.codeChallenge st' = State.codeChallenge st
  /\ State.codeVerifier st' = State.codeVerifier st
  /\ State.stateQueryParam st' = State.stateQueryParam st
  /\ State.hasAuthCodeBeenExchangedForAccessToken st'
     = State.hasAuthCodeBeenExchangedForAccessToken st
  /\ State.accessToken st' = Some accessToken.
Proof.
  unfold granted_state.
  destruct (truthy (TokenBody.refresh_token b)), (truthy (TokenBody.scope b));
    repeat split.
Qed.

(** X7. Neither exchange, returning or throwing, ever changes the stored
    authorization code, the PKCE pair or the state token (the code and the
    verifier stay stored after they are spent), and the refresh exchange
    never changes the exchanged flag.  When an exchange returns, the
    context it returns holds the very access token and refresh token now
    stored, and after the code exchange the exchanged flag is true. *)
Theorem exchange_frame (x : Exchange) (w : World) :
  exists outcome w',
    run_exchange x w = (outcome, w')
    /\ State.authorizationCode (LocalState w')
       = State.authorizationCode (LocalState w)
    /\ State.codeChallenge (LocalState w') = State.codeChallenge (LocalState w)
    /\ State.codeVerifier (LocalState w') = State.codeVerifier (LocalState w)
    /\ State.stateQueryParam (LocalState w')
       = State.stateQueryParam (LocalState w)
    /\ (x = ByRefreshToken ->
        State.hasAuthCodeBeenExchangedForAccessToken (LocalState w')
        = State.hasAuthCodeBeenExchangedForAccessToken (LocalState w))
    /\ (forall tokenData,
          outcome = Return tokenData ->
          AccessContext.token tokenData = State.accessToken (LocalState w')
          /\ is_Some (State.accessToken (LocalState w'))
          /\ AccessContext.refreshToken tokenData
             = State.refreshToken (LocalState w')
          /\ (x = ByCode ->
              State.hasAuthCodeBeenExchangedForAccessToken (LocalState w')
              = Some true)).
Proof.
  destruct (run_exchange x w) as [outcome w'] eqn:Hrun.
  exists outcome, w'. split; [reflexivity |].
  destruct outcome as [tokenData | err].
  - (* a grant *)
    destruct x; cbn [run_exchange] in Hrun.
    + rewrite exchangeAuthCode_closed in Hrun.
      destruct (network w TOKEN_URL (code_request_of (LocalState w))) as [r|];
        [| discriminate].
      destruct (parsed r) as [j|]; [| discriminate].
      destruct (properties j) as [b|]; [| discriminate].
      destruct (ok r); [| discriminate]. cbv zeta in Hrun.
      destruct (token_at (now w) b) as [tok|]; [| discriminate].
      destruct (scope_not_string j); [discriminate |].
      injection Hrun as <- <-. cbn [LocalState stored].
      destruct (granted_state_frame tok b
                  (State.set_hasAuthCodeBeenExchangedForAccessToken (Some true)
                     (LocalState w)))
        as (H1 & H2 & H3 & H4 & H5 & H6).
      rewrite H1, H2, H3, H4, H5, H6. unfold granted_context.
      cbn [AccessContext.token AccessContext.refreshToken].
      repeat split; try discriminate; eauto;
        match goal with
        | H : Return _ = Return _ |- _ => injection H as <-; reflexivity
        end.
    + rewrite exchangeRefresh_closed in Hrun.
      destruct (network w TOKEN_URL (refresh_request_of (LocalState w))) as [r|];
        [| discriminate].
      destruct (400 <=? status r); [destruct (parsed r); discriminate |].
      destruct (parsed r) as [j|]; [| discriminate].
      destruct (properties j) as [b|]; [| discriminate].
      destruct (token_at (now w) b) as [tok|]; [| discriminate].
      destruct (scope_not_string j); [discriminate |].
      injection Hrun as <- <-. cbn [LocalState stored].
      destruct (granted_state_frame tok b (LocalState w))
        as (H1 & H2 & H3 & H4 & H5 & H6).
      rewrite H1, H2, H3, H4, H5, H6. unfold granted_context.
      cbn [AccessContext.token AccessContext.refreshToken].
      repeat split; try discriminate; eauto;
        match goal with
        | H : Return _ = Return _ |- _ => injection H as <-; reflexivity
        end.
  - (* a failure *)
    destruct (failed_exchange_keeps_fields x w err w' Hrun)
      as [(Hcode & Hchal & Hver & Hstate & _ & Hflag) _].
    split; [exact Hcode |]. split; [exact Hchal |]. split; [exact Hver |].
    split; [exact Hstate |]. split; [exact Hflag |].
    intros tokenData [=].
Qed.

(** X8. The callback check changes nothing but the stored code and the
    exchanged flag, and it is idempotent: checking the same query a second
    time gives the same outcome and the same [LocalState] as the first
    time, since an accepted state token is not consumed. *)
Theorem callback_check_idempotent (query : gmap string string) (w : World) :
  let first := isReturningFromAuthServer query w in
  let second := isReturningFromAuthServer query (snd first) in
  fst second = fst first
  /\ LocalState (snd second) = LocalState (snd first)
  /\ State.accessToken (LocalState (snd first)) = State.accessToken (LocalState w)
  /\ State.refreshToken (LocalState (snd first))
     = State.refreshToken (LocalState w)
  /\ State.codeChallenge (LocalState (snd first))
     = State.codeChallenge (LocalState w)
  /\ State.codeVerifier (LocalState (snd first))
     = State.codeVerifier (LocalState w)
  /\ State.stateQueryParam (LocalState (snd first))
     = State.stateQueryParam (LocalState w)
  /\ State.scopes (LocalState (snd first)) = State.scopes (LocalState w).
Proof.
  cbv zeta.
  destruct (truthy (query !! "error")) eqn:He.
  { rewrite !callback_error by exact He. repeat split. }
  destruct (truthy (query !! "code")) eqn:Hc.
  2: { rewrite !callback_no_code by assumption. repeat split. }
  destruct (decide (query !! "state" = State.stateQueryParam (LocalState w)))
    as [Hs | Hs].
  - rewrite (callback_accept query w He Hc Hs). cbn [snd fst].
    rewrite callback_accept by (try assumption; exact Hs).
    repeat split.
  - rewrite (callback_mismatch query w He Hc Hs). cbn [snd fst].
    rewrite callback_mismatch by (try assumption; exact Hs).
    repeat split.
Qed.

(** ** Scope lists on the wire *)

Lemma split_from_nonempty (sep : ascii) (field s : string) :
  split_from sep field s <> [].
Proof.
  revert field. induction s as [|c s IH]; intros field; cbn [split_from].
  - discriminate.
  - destruct (Ascii.eqb c sep); [discriminate | apply IH].
Qed.

Lemma join_cons (sep s : string) (l : list string) :
  l <> [] -> join sep (s :: l) = s +:+ sep +:+ join sep l.
Proof. destruct l; [contradiction | reflexivity]. Qed.

(** Joining the fields of a split gives the string back. *)
Lemma join_split_from (sep : ascii) (field s : string) :
  join (String sep EmptyString) (split_from sep field s) = field +:+ s.
Proof.
  revert field. induction s as [|c s IH]; intros field; cbn [split_from].
  - cbn [join]. now rewrite append_empty_r.
  - destruct (Ascii.eqb_spec c sep) as [-> | Hne].
    + rewrite join_cons by apply split_from_nonempty.
      rewrite IH. reflexivity.
    + rewrite IH, append_assoc. reflexivity.
Qed.

Lemma join_split (sep : ascii) (s : string) :
  join (String sep EmptyString) (split sep s) = s.
Proof. unfold split. now rewrite join_split_from. Qed.

(** Splitting reads a field without separator up to the next separator. *)
Lemma split_from_field (sep : ascii) (field x rest : string) :
  contains sep x = false ->
  split_from sep field (x +:+ rest) = split_from sep (field +:+ x) rest.
Proof.
  revert field. induction x as [|c x IH]; intros field Hx.
  - now rewrite append_empty_r.
  - cbn [contains] in Hx. apply orb_false_iff in Hx as [Hc Hx].
    rewrite append_cons. cbn [split_from]. rewrite Hc.
    rewrite IH by exact Hx. rewrite append_assoc. reflexivity.
Qed.

Lemma split_from_join (sep : ascii) (field : string) (l : list string) :
  l <> [] ->
  Forall (fun x => contains sep x = false) l ->
  split_from sep field (join (String sep EmptyString) l)
  = match l with
    | x :: l' => (field +:+ x) :: l'
    | [] => []
    end.
Proof.
  intros Hne Hall. revert field.
  induction Hall as [|x l Hx Hall IH]; [contradiction |]; intros field.
  destruct l as [|y l].
  - cbn [join]. rewrite <- (append_empty_r x) at 1.
    rewrite split_from_field by exact Hx. reflexivity.
  - rewrite join_cons by discriminate.
    rewrite split_from_field by exact Hx.
    rewrite append_cons. cbn [split_from]. rewrite Ascii.eqb_refl.
    change (EmptyString +:+ ?s) with s.
    rewrite IH by discriminate. reflexivity.
Qed.

Lemma split_join (sep : ascii) (l : list string) :
  l <> [] ->
  Forall (fun x => contains sep x = false) l ->
  split sep (join (String sep EmptyString) l) = l.
Proof.
  intros Hne Hall. unfold split. rewrite split_from_join by assumption.
  destruct l; [contradiction | reflexivity].
Qed.

Lemma granted_scopes_split (b : TokenBody.t) (scope : string) :
  TokenBody.scope b = Some scope -> scope <> EmptyString ->
  granted_scopes b = split " " scope.
Proof.
  intros Hb Hne. unfold granted_scopes. rewrite Hb.
  rewrite (truthy_Some scope Hne). unfold or_else.
  destruct (String.eqb_spec scope EmptyString); [contradiction | reflexivity].
Qed.

(** The scopes a granted exchange returns and stores. *)
Lemma granted_exchange_scopes
  (x : Exchange) (w : World) (r : Response) (b : TokenBody.t)
  (accessToken : AccessToken.t) :
  network w TOKEN_URL (request_of x (LocalState w)) = Responded r ->
  refuses x r = false ->
  body r = Some b ->
  token_at (now w) b = Some accessToken ->
  exists tokenData w',
    run_exchange x w = (Return tokenData, w')
    /\ AccessContext.scopes tokenData = Some (granted_scopes b)
    /\ State.scopes (LocalState w')
       = (if truthy (TokenBody.scope b) then Some (granted_scopes b)
          else State.scopes (LocalState w)).
Proof.
  intros Hnet Href Hb Htok. apply body_parsed in Hb.
  destruct x; cbn [run_exchange request_of refuses] in *.
  - rewrite exchangeAuthCode_closed, Hnet, Hb. cbn [properties scope_not_string].
    apply negb_false_iff in Href. rewrite Href. cbv zeta. rewrite Htok.
    eexists _, _. split; [reflexivity |]. split; [reflexivity |].
    cbn [LocalState stored]. unfold granted_state.
    destruct (truthy (TokenBody.refresh_token b)), (truthy (TokenBody.scope b));
      reflexivity.
  - rewrite exchangeRefresh_closed, Hnet, Href, Hb.
    cbn [properties scope_not_string]. rewrite Htok.
    eexists _, _. split; [reflexivity |]. split; [reflexivity |].
    cbn [LocalState stored]. unfold granted_state.
    destruct (truthy (TokenBody.refresh_token b)), (truthy (TokenBody.scope b));
      reflexivity.
Qed.

(** X9. Scope lists survive the wire format.  When either exchange is
    granted a token with a lifetime, the scopes it stores in [LocalState]
    and returns in the context, joined with spaces, are the response's
    [scope] string again; and when that string is a list of space-free
    scopes joined with spaces (as the request builds it), the scopes stored
    and returned are that list.  In particular a provider that echoes the
    requested scope grants exactly [Scopes] and [offline_access].  A grant
    without a [scope] returns no scopes and leaves the stored ones. *)
Theorem scopes_round_trip
  (x : Exchange) (w : World) (r : Response) (b : TokenBody.t) (n : Z) :
  network w TOKEN_URL (request_of x (LocalState w)) = Responded r ->
  ok r = true ->
  body r = Some b ->
  TokenBody.expires_in b = Some n ->
  Date.valid (now w + n * 1000) = true ->
  exists tokenData w',
    run_exchange x w = (Return tokenData, w')
    /\ (forall scope,
          TokenBody.scope b = Some scope -> scope <> EmptyString ->
          exists l,
            State.scopes (LocalState w') = Some l
            /\ AccessContext.scopes tokenData = Some l
            /\ join " " l = scope)
    /\ (forall l,
          TokenBody.scope b = Some (join " " l) ->
          join " " l <> EmptyString ->
          Forall (fun s => contains " " s = false) l ->
          State.scopes (LocalState w') = Some l
          /\ AccessContext.scopes tokenData = Some l)
    /\ (TokenBody.scope b = Some (join " " (Scopes ++ ["offline_access"])) ->
        State.scopes (LocalState w') = Some (Scopes ++ ["offline_access"])%list)
    /\ (truthy (TokenBody.scope b) = false ->
        State.scopes (LocalState w') = State.scopes (LocalState w)
        /\ AccessContext.scopes tokenData = Some []).
Proof.
  intros Hnet Hok Hb Hn Hvalid.
  assert (token_at (now w) b
          = Some (AccessToken.mk (TokenBody.access_token b)
                    (Some (Date.toISOString (now w + n * 1000))))) as Htok.
  { unfold token_at. rewrite Hn. cbn [expiry_time]. now rewrite Hvalid. }
  destruct (granted_exchange_scopes x w r b _ Hnet (ok_not_refused x r Hok) Hb Htok)
    as (tokenData & w' & Hrun & Hctx & Hst).
  exists tokenData, w'. split; [exact Hrun |].
  split; [| split; [| split]].
  - intros scope Hscope Hne.
    rewrite Hscope, (truthy_Some scope Hne) in Hst.
    exists (granted_scopes b). split; [exact Hst |]. split; [exact Hctx |].
    rewrite (granted_scopes_split b scope Hscope Hne). apply join_split.
  - intros l Hscope Hne Hall.
    rewrite Hscope, (truthy_Some _ Hne) in Hst.
    assert (granted_scopes b = l) as Hl.
    { rewrite (granted_scopes_split b _ Hscope Hne).
      apply split_join; [| exact Hall]. intros ->. now apply Hne. }
    rewrite Hl in Hst, Hctx. split; [exact Hst | exact Hctx].
  - intros Hscope. rewrite Hscope in Hst. cbn [truthy] in Hst.
    rewrite Hst. f_equal.
    rewrite (granted_scopes_split b _ Hscope); [reflexivity | discriminate].
  - intros Hnone. rewrite Hnone in Hst. split; [exact Hst |].
    rewrite Hctx. unfold granted_scopes. now rewrite Hnone.
Qed.

Lemma scopes_round_trip_witness :
  let w := Sample.world Sample.pending
             (Sample.always (Build_Response 200 (Some Sample.granted))) in
  exists tokenData w',
    run_exchange ByCode w = (Return tokenData, w')
    /\ State.scopes (LocalState w') = Some ["account:read"; "workers:write"]
    /\ AccessContext.scopes tokenData = Some ["account:read"; "workers:write"].
Proof.
  intros w.
  destruct (scopes_round_trip ByCode w (Build_Response 200 (Some Sample.granted))
              Sample.granted 3600 eq_refl eq_refl eq_refl eq_refl eq_refl)
    as (tokenData & w' & Hrun & _ & Hlist & _).
  exists tokenData, w'. split; [exact Hrun |].
  apply (Hlist ["account:read"; "workers:write"]);
    [reflexivity | discriminate | repeat constructor].
Defined.

(** ** URLs and form bodies *)

Lemma contains_append (x : ascii) (s1 s2 : string) :
  contains x (s1 +:+ s2) = contains x s1 || contains x s2.
Proof.
  induction s1 as [|c s1 IH]; [reflexivity |].
  rewrite append_cons. cbn [contains]. now rewrite IH, orb_assoc.
Qed.

Lemma all_chars_append (test : ascii -> bool) (s1 s2 : string) :
  all_chars test (s1 +:+ s2) = all_chars test s1 && all_chars test s2.
Proof.
  induction s1 as [|c s1 IH]; [reflexivity |].
  rewrite append_cons. cbn [all_chars]. now rewrite IH, andb_assoc.
Qed.

Lemma all_chars_contains (test : ascii -> bool) (x : ascii) (s : string) :
  all_chars test s = true -> test x = false -> contains x s = false.
Proof.
  intros Hall Hx. induction s as [|c s IH]; [reflexivity |].
  cbn [all_chars contains] in *. apply andb_true_iff in Hall as [Hc Hs].
  rewrite (IH Hs), orb_false_r.
  destruct (Ascii.eqb_spec c x) as [-> |]; [congruence | reflexivity].
Qed.

Lemma encodeURIComponent_cons (c : ascii) (s : string) :
  encodeURIComponent (String c s) = encode_char c +:+ encodeURIComponent s.
Proof. reflexivity. Qed.

Lemma encode_char_encoded (c : ascii) :
  all_chars encoded_char (encode_char c) = true.
Proof. destruct c as [[] [] [] [] [] [] [] []]; reflexivity. Qed.

Lemma encodeURIComponent_encoded (s : string) :
  all_chars encoded_char (encodeURIComponent s) = true.
Proof.
  induction s as [|c s IH]; [reflexivity |].
  now rewrite encodeURIComponent_cons, all_chars_append, encode_char_encoded, IH.
Qed.

(** A string of unreserved characters is its own encoding. *)
Lemma encodeURIComponent_unreserved (s : string) :
  all_chars (fun c => uri_unreserved (charCode c)) s = true ->
  encodeURIComponent s = s.
Proof.
  induction s as [|c s IH]; [reflexivity |].
  cbn [all_chars]. intros [Hc Hs]%andb_true_iff.
  rewrite encodeURIComponent_cons, (IH Hs). unfold encode_char. now rewrite Hc.
Qed.

Lemma all_chars_nth (test : ascii -> bool) (alpha : list ascii) (n : Z) :
  forallb test alpha = true -> test "A"%char = true ->
  test (Base64.enc alpha n) = true.
Proof.
  intros Hall HA. unfold Base64.enc.
  destruct (nth_in_or_default (Z.to_nat n) alpha "A"%char) as [Hin | ->];
    [| exact HA].
  rewrite forallb_forall in Hall. now apply Hall.
Qed.

Lemma base64url_all_chars (test : ascii -> bool) (s : string) :
  forallb test Reference.url_alphabet = true ->
  all_chars test (Reference.base64url s) = true.
Proof.
  intros Hall.
  assert (test "A"%char = true) as HA.
  { rewrite forallb_forall in Hall. apply Hall. vm_compute. auto. }
  induction s as [| a | a b | a b c s IH] using string_by_threes;
    cbn [Reference.base64url all_chars];
    rewrite ?all_chars_nth by assumption; auto.
Qed.

Lemma charset_string_all_chars (test : ascii -> bool) (output : list Z) :
  all_chars test PKCE_CHARSET = true ->
  all_chars test (charset_string output) = true.
Proof.
  intros Hall.
  assert (forall k c, String.get k PKCE_CHARSET = Some c -> test c = true) as Hget.
  { generalize dependent PKCE_CHARSET. intros s.
    induction s as [|c' s IH]; intros Hs k c Hk; [discriminate |].
    cbn [all_chars] in Hs. apply andb_true_iff in Hs as [Hc' Hs].
    destruct k as [|k]; cbn [String.get] in Hk.
    - now injection Hk as <-.
    - now apply (IH Hs k). }
  unfold charset_string.
  induction output as [|num output IH]; [reflexivity |].
  cbn [map join_chars].
  destruct (index PKCE_CHARSET (num mod Z.of_nat (String.length PKCE_CHARSET)))
    as [c|] eqn:Hc; [| exact IH].
  cbn [all_chars]. rewrite IH, andb_true_r.
  unfold index in Hc. destruct (_ <? 0); [discriminate |].
  now apply (Hget _ _ Hc).
Qed.

(** A challenge is its own URI encoding. *)
Lemma challenge_unreserved (codeVerifier : string) :
  encodeURIComponent (Reference.challenge_of codeVerifier)
  = Reference.challenge_of codeVerifier.
Proof.
  apply encodeURIComponent_unreserved, base64url_all_chars.
  vm_compute. reflexivity.
Qed.

(** [getAuthURL], run on the numbers it draws. *)
Lemma getAuthURL_url_run (w : World) :
  exists output1 output2 w',
    let codeVerifier := Reference.base64url (charset_string output1) in
    let codeChallenge := Reference.challenge_of codeVerifier in
    let stateQueryParam := charset_string output2 in
    getAuthURL w
    = (Return (authorization_url stateQueryParam (encodeURIComponent codeChallenge)),
       w')
    /\ State.stateQueryParam (LocalState w') = Some stateQueryParam
    /\ State.codeChallenge (LocalState w') = Some codeChallenge
    /\ State.codeVerifier (LocalState w') = Some codeVerifier.
Proof.
  destruct (generatePKCECodes_run w) as (out1 & w1 & Hr1 & _ & Hcodes).
  destruct (getRandomValues_length RECOMMENDED_STATE_LENGTH w1
              state_length_allowed)
    as (out2 & w2 & Hr2 & _).
  unfold getAuthURL. unfold bind at 1. rewrite Hcodes.
  unfold bind at 1. unfold generateRandomState, bind at 1. rewrite Hr2.
  unfold ret at 1.
  cbn [PKCECodes.codeChallenge PKCECodes.codeVerifier].
  exists out1, out2. eexists. cbv zeta.
  split; [reflexivity |]. split; [reflexivity |]. split; reflexivity.
Qed.

(** X10. The URL [getAuthURL] returns is the authorization URL of the
    state token and the challenge it has just stored.  The state token is
    put into the URL as it is and the challenge through
    [encodeURIComponent]; both consist of unreserved characters, so each
    is its own encoding. *)
Theorem getAuthURL_url (w : World) :
  exists url codes stateQueryParam w',
    getAuthURL w = (Return url, w')
    /\ State.stateQueryParam (LocalState w') = Some stateQueryParam
    /\ State.codeChallenge (LocalState w') = Some (PKCECodes.codeChallenge codes)
    /\ State.codeVerifier (LocalState w') = Some (PKCECodes.codeVerifier codes)
    /\ PKCECodes.codeChallenge codes
       = Reference.challenge_of (PKCECodes.codeVerifier codes)
    /\ url = authorization_url stateQueryParam (PKCECodes.codeChallenge codes)
    /\ encodeURIComponent stateQueryParam = stateQueryParam
    /\ encodeURIComponent (PKCECodes.codeChallenge codes)
       = PKCECodes.codeChallenge codes.
Proof.
  destruct (getAuthURL_url_run w) as (out1 & out2 & w' & Hrun & Hs & Hc & Hv).
  cbv zeta in Hrun, Hs, Hc, Hv.
  set (codeVerifier := Reference.base64url (charset_string out1)) in *.
  rewrite challenge_unreserved in Hrun.
  exists (authorization_url (charset_string out2)
            (Reference.challenge_of codeVerifier)),
    (PKCECodes.mk (Reference.challenge_of codeVerifier) codeVerifier),
    (charset_string out2), w'.
  cbn [PKCECodes.codeChallenge PKCECodes.codeVerifier].
  split; [exact Hrun |]. split; [exact Hs |]. split; [exact Hc |].
  split; [exact Hv |]. split; [reflexivity |]. split; [reflexivity |].
  split; [| apply challenge_unreserved].
  apply encodeURIComponent_unreserved, charset_string_all_chars.
  vm_compute. reflexivity.
Qed.

Lemma encodeURIComponent_no_separator (x : ascii) (s : string) :
  In x ["&"; "="; "?"; "#"; " "; "+"; "/"]%char ->
  contains x (encodeURIComponent s) = false.
Proof.
  intros Hx.
  apply (all_chars_contains encoded_char); [apply encodeURIComponent_encoded |].
  simpl in Hx. intuition (subst; reflexivity).
Qed.

(** X11. The form bodies are well formed whatever is stored.  The body of
    the code exchange, split at ['&'], is the five fields intended, the
    code among them in encoded form, as long as the verifier holds no
    ['&'] (a generated verifier holds none); the body of the revocation,
    split at ['&'], is its three fields; and an encoded value holds no
    ['&'], ['='], ['?'], ['#'], space, ['+'] or ['/']. *)
Theorem request_fields :
  (forall authorizationCode codeVerifier,
     contains "&" codeVerifier = false ->
     split "&" (code_request authorizationCode codeVerifier)
     = [ "grant_type=authorization_code";
         "code=" +:+ encodeURIComponent (or_else authorizationCode EmptyString);
         "redirect_uri=http%3A%2F%2Flocalhost%3A8976%2Foauth%2Fcallback";
         "client_id=54d11594-84e4-41aa-b438-e81b8fa78ee7";
         "code_verifier=" +:+ codeVerifier ])
  /\ (forall refreshToken,
        split "&" (revoke_request refreshToken)
        = [ "client_id=54d11594-84e4-41aa-b438-e81b8fa78ee7";
            "token_type_hint=refresh_token";
            "token="
            +:+ encodeURIComponent
                  (or_else (RefreshToken.value <$> refreshToken) EmptyString) ])
  /\ (forall value x,
        In x ["&"; "="; "?"; "#"; " "; "+"; "/"]%char ->
        contains x (encodeURIComponent value) = false)
  /\ (forall value,
        contains "&" (Reference.base64url value) = false).
Proof.
  split; [| split; [| split]].
  - intros code verifier Hv.
    change (code_request code verifier)
      with (join "&"
              [ "grant_type=authorization_code";
                "code=" +:+ encodeURIComponent (or_else code EmptyString);
                "redirect_uri=http%3A%2F%2Flocalhost%3A8976%2Foauth%2Fcallback";
                "client_id=54d11594-84e4-41aa-b438-e81b8fa78ee7";
                "code_verifier=" +:+ verifier ]).
    apply split_join; [discriminate |].
    repeat constructor; rewrite ?contains_append, ?Hv;
      rewrite ?encodeURIComponent_no_separator by (simpl; auto);
      reflexivity.
  - intros refreshToken.
    change (revoke_request refreshToken)
      with (join "&"
              [ "client_id=54d11594-84e4-41aa-b438-e81b8fa78ee7";
                "token_type_hint=refresh_token";
                "token="
                +:+ encodeURIComponent
                      (or_else (RefreshToken.value <$> refreshToken) EmptyString) ]).
    apply split_join; [discriminate |].
    repeat constructor; rewrite ?contains_append;
      rewrite ?encodeURIComponent_no_separator by (simpl; auto);
      reflexivity.
  - intros value x. apply encodeURIComponent_no_separator.
  - intros value.
    apply (all_chars_contains (fun c => negb (Ascii.eqb c "&")));
      [| reflexivity].
    apply base64url_all_chars. vm_compute. reflexivity.
Qed.

(** The refresh request puts the token in as it is: a token with an
    ['&'] splits into more fields. *)
Example refresh_request_raw :
  split "&" (refresh_request (Some (RefreshToken.mk "a&scope=all")))
  = [ "grant_type=refresh_token"; "refresh_token=a"; "scope=all";
      "client_id=54d11594-84e4-41aa-b438-e81b8fa78ee7" ].
Proof. reflexivity. Qed.

(** ** The flow from the URL to the token request *)

Lemma getAuthURL_trace (w : World) : trace (snd (getAuthURL w)) = trace w.
Proof.
  destruct (generatePKCECodes_run w) as (out1 & w1 & Hr1 & _ & Hcodes).
  destruct (generateRandomState_run RECOMMENDED_STATE_LENGTH w1
              state_length_allowed)
    as (s & w2 & Hr2 & _ & _ & _ & Htr2 & _).
  destruct (getRandomValues_length RECOMMENDED_CODE_VERIFIER_LENGTH w
              verifier_length_allowed)
    as (o & w'' & Hr & _ & _ & Htr1).
  rewrite Hr1 in Hr. injection Hr as _ <-.
  unfold getAuthURL. unfold bind at 1. rewrite Hcodes.
  unfold bind at 1. rewrite Hr2.
  unfold bind, modify, ret. cbn [snd trace stored]. now rewrite Htr2.
Qed.

(** X12. The verifier sent is the one the challenge was made from.  When
    [getAuthURL] is followed by a callback with a code and the state token
    it stored, the handler posts exactly one token request: the code
    request of that code and of the verifier whose SHA-256 challenge the
    URL carries. *)
Theorem pkce_binding (w : World) (req : Request) (code : string) :
  req_url req <> EmptyString ->
  pathname req = Some "/oauth/callback" ->
  truthy (query req !! "error") = false ->
  query req !! "code" = Some code ->
  code <> EmptyString ->
  query req !! "state" = State.stateQueryParam (LocalState (snd (getAuthURL w))) ->
  exists url codes stateQueryParam w1 outcome w2,
    getAuthURL w = (Return url, w1)
    /\ server req w1 = (outcome, w2)
    /\ url = authorization_url stateQueryParam (PKCECodes.codeChallenge codes)
    /\ PKCECodes.codeChallenge codes
       = Reference.challenge_of (PKCECodes.codeVerifier codes)
    /\ fetches (trace w2)
       = (fetches (trace w)
          ++ [(TOKEN_URL, code_request (Some code) (PKCECodes.codeVerifier codes))])%list.
Proof.
  intros Hurl Hpath He Hc Hne Hs.
  destruct (getAuthURL_url_run w) as (out1 & out2 & w1 & Hrun & Hstate & _ & Hver).
  cbv zeta in Hrun, Hstate, Hver. rewrite challenge_unreserved in Hrun.
  set (codes :=
         PKCECodes.mk
           (Reference.challenge_of (Reference.base64url (charset_string out1)))
           (Reference.base64url (charset_string out1))).
  set (url := authorization_url (charset_string out2) (PKCECodes.codeChallenge codes)).
  set (s := charset_string out2).
  assert (Hu : url = authorization_url s (PKCECodes.codeChallenge codes))
    by reflexivity.
  assert (Hbind : PKCECodes.codeChallenge codes
                  = Reference.challenge_of (PKCECodes.codeVerifier codes))
    by reflexivity.
  change (getAuthURL w = (Return url, w1)) in Hrun.
  change (State.codeVerifier (LocalState w1) = Some (PKCECodes.codeVerifier codes))
    in Hver.
  pose proof (getAuthURL_trace w) as Htr.
  rewrite Hrun in Hs, Htr. cbn [snd] in Hs, Htr.
  assert (truthy (query req !! "code") = true) as Hcode
    by (rewrite Hc; now apply truthy_Some).
  destruct (server_accepts req w1 Hurl Hpath He Hcode Hs)
    as (outcome & w2 & Hserver & _ & Hf).
  exists url, codes, s, w1, outcome, w2.
  split; [exact Hrun |]. split; [exact Hserver |]. split; [exact Hu |].
  split; [exact Hbind |].
  rewrite Hf, Htr. unfold code_request_of, accepted.
  cbn [LocalState stored State.authorizationCode State.codeVerifier
       State.set_authorizationCode
       State.set_hasAuthCodeBeenExchangedForAccessToken].
  rewrite Hver, Hc. reflexivity.
Qed.

Lemma pkce_binding_witness :
  let w := Sample.world State.empty
             (Sample.always (Build_Response 200 (Some Sample.granted))) in
  let req :=
    Sample.callback
      [("code", "abc123"); ("state", "xwvutsrqponmlkjihgfedcbaZYXWVUTS")] in
  exists url codes stateQueryParam w1 outcome w2,
    getAuthURL w = (Return url, w1)
    /\ server req w1 = (outcome, w2)
    /\ url = authorization_url stateQueryParam (PKCECodes.codeChallenge codes)
    /\ PKCECodes.codeChallenge codes
       = Reference.challenge_of (PKCECodes.codeVerifier codes)
    /\ fetches (trace w2)
       = (fetches (trace w)
          ++ [(TOKEN_URL,
               code_request (Some "abc123") (PKCECodes.codeVerifier codes))])%list.
Proof.
  intros w req.
  apply (pkce_binding w req "abc123");
    [discriminate | reflexivity | reflexivity | reflexivity | discriminate
    | vm_compute; reflexivity].
Defined.

(** ** Dates as [toISOString] prints them *)

Ltac euclid := Z.to_euclidean_division_equations; lia.

Ltac split_ifs :=
  repeat match goal with
    | |- context [if ?b then _ else _] =>
        match b with
        | (?x <? ?y) => destruct (Z.ltb_spec x y)
        | (?x <=? ?y) => destruct (Z.leb_spec x y)
        | (?x =? ?y) => destruct (Z.eqb_spec x y)
        end
    end.

(** The year of a day of the 400-year cycle, counted from March. *)
Lemma year_of_day (doe : Z) :
  0 <= doe < 146097 ->
  let yoe := (doe - doe / 1460 + doe / 36524 - doe / 146096) / 365 in
  0 <= yoe <= 399
  /\ 365 * yoe + yoe / 4 - yoe / 100 <= doe
  /\ doe < 365 * (yoe + 1) + (yoe + 1) / 4 - (yoe + 1) / 100
           + (if yoe =? 399 then 1 else 0).
Proof.
  intros H yoe. subst yoe. split_ifs; euclid.
Qed.

(** The month of a day of the year, counted from March. *)
Lemma month_of_day (doy : Z) :
  0 <= doy <= 365 ->
  let mp := (5 * doy + 2) / 153 in
  0 <= mp <= 11 /\ (153 * mp + 2) / 5 <= doy < (153 * (mp + 1) + 2) / 5.
Proof.
  intros H mp. subst mp. euclid.
Qed.

(** The date of a day is a date of the calendar, and of that day only. *)
Lemma civil_spec (days : Z) :
  let '(y, m, d) := Date.civil days in
  1 <= m <= 12 /\ 1 <= d <= Date.days_in_month y m
  /\ Date.days_from_civil y m d = days.
Proof.
  unfold Date.civil.
  set (z := days + 719468). set (era := z / 146097). set (doe := z mod 146097).
  assert (z = 146097 * era + doe /\ 0 <= doe < 146097) as [Hz Hdoe].
  { subst era doe. euclid. }
  set (yoe := (doe - doe / 1460 + doe / 36524 - doe / 146096) / 365).
  destruct (year_of_day doe Hdoe) as (Hyoe & Hlo & Hhi). fold yoe in Hyoe, Hlo, Hhi.
  set (doy := doe - (365 * yoe + yoe / 4 - yoe / 100)).
  assert (0 <= doy <= 365) as Hdoy.
  { subst doy. revert Hhi. split_ifs; intros; euclid. }
  set (mp := (5 * doy + 2) / 153).
  destruct (month_of_day doy Hdoy) as (Hmp & Hd). fold mp in Hmp, Hd.
  assert (doe = 365 * yoe + yoe / 4 - yoe / 100 + doy) as Hdoe' by (subst doy; lia).
  assert (days = z - 719468) as Hdays by (subst z; lia).
  clearbody mp doy yoe doe era z. subst days doe z. clear Hdoe.
  unfold Date.days_in_month, Date.days_from_civil.
  split_ifs; try lia; revert Hhi; split_ifs; intros; euclid.
Qed.

(** The year of a day within the range of [Date] has at most six digits. *)
Lemma civil_year_range (days : Z) :
  - 100000000 <= days <= 100000000 ->
  - 999999 <= fst (fst (Date.civil days)) <= 999999.
Proof.
  intros Hdays. unfold Date.civil. cbn [fst].
  set (z := days + 719468). set (era := z / 146097). set (doe := z mod 146097).
  assert (z = 146097 * era + doe /\ 0 <= doe < 146097) as [Hz Hdoe].
  { subst era doe. euclid. }
  destruct (year_of_day doe Hdoe) as (Hyoe & _).
  set (yoe := (doe - doe / 1460 + doe / 36524 - doe / 146096) / 365) in *.
  assert (- 680 <= era <= 689) as Hera by (subst z; lia).
  clearbody yoe. split_ifs; lia.
Qed.

(** *** Digits *)

Lemma charCode_fromCharCode (n : Z) :
  0 <= n < 256 -> charCode (fromCharCode n) = n.
Proof.
  intros Hn. unfold charCode, fromCharCode.
  rewrite Z.mod_small by lia.
  rewrite N_ascii_embedding; [apply Z2N.id; lia |].
  apply N2Z.inj_lt. rewrite Z2N.id by lia. exact (proj2 Hn).
Qed.

Lemma charCode_digit (n : Z) : charCode (digit n) = 48 + n mod 10.
Proof.
  unfold digit. apply charCode_fromCharCode.
  pose proof (Z.mod_pos_bound n 10 ltac:(lia)). lia.
Qed.

Lemma digits_from_digit (acc n : Z) (s : string) :
  Date.digits_from acc (String (digit n) s)
  = Date.digits_from (10 * acc + n mod 10) s.
Proof.
  cbn [Date.digits_from]. rewrite charCode_digit.
  pose proof (Z.mod_pos_bound n 10 ltac:(lia)).
  destruct (Z.leb_spec 48 (48 + n mod 10)); [| lia].
  destruct (Z.leb_spec (48 + n mod 10) 57); [| lia].
  cbn [andb]. f_equal. lia.
Qed.

Lemma digit_not_sign (n : Z) :
  Ascii.eqb (digit n) "+" = false /\ Ascii.eqb (digit n) "-" = false.
Proof.
  pose proof (charCode_digit n) as Hc.
  pose proof (Z.mod_pos_bound n 10 ltac:(lia)).
  split; apply Ascii.eqb_neq; intros Heq; rewrite Heq in Hc.
  - change (charCode "+") with 43 in Hc. lia.
  - change (charCode "-") with 45 in Hc. lia.
Qed.

Lemma digits_two (n : Z) :
  0 <= n < 100 -> Date.digits_from 0 (pad_digits 2 n EmptyString) = Some n.
Proof.
  intros Hn. cbn [pad_digits]. rewrite !digits_from_digit.
  cbn [Date.digits_from]. f_equal. euclid.
Qed.

Lemma digits_three (n : Z) :
  0 <= n < 1000 -> Date.digits_from 0 (pad_digits 3 n EmptyString) = Some n.
Proof.
  intros Hn. cbn [pad_digits]. rewrite !digits_from_digit.
  cbn [Date.digits_from]. f_equal. euclid.
Qed.

Lemma digits_four (n : Z) :
  0 <= n < 10000 -> Date.digits_from 0 (pad_digits 4 n EmptyString) = Some n.
Proof.
  intros Hn. cbn [pad_digits]. rewrite !digits_from_digit.
  cbn [Date.digits_from]. f_equal. euclid.
Qed.

Lemma digits_six (n : Z) :
  0 <= n < 1000000 -> Date.digits_from 0 (pad_digits 6 n EmptyString) = Some n.
Proof.
  intros Hn. cbn [pad_digits]. rewrite !digits_from_digit.
  cbn [Date.digits_from]. f_equal. euclid.
Qed.

(** The part after the year, as printed, parses to the time it prints. *)
Lemma parse_after_year_printed (y m d hh mm ss ms : Z) :
  1 <= m <= 12 -> 1 <= d <= Date.days_in_month y m -> d < 100 ->
  0 <= hh <= 23 -> 0 <= mm <= 59 -> 0 <= ss <= 59 -> 0 <= ms <= 999 ->
  Date.parse_after_year y
    ("-" +:+ pad_digits 2 m EmptyString +:+ "-" +:+ pad_digits 2 d EmptyString
     +:+ "T" +:+ pad_digits 2 hh EmptyString
     +:+ ":" +:+ pad_digits 2 mm EmptyString
     +:+ ":" +:+ pad_digits 2 ss EmptyString
     +:+ "." +:+ pad_digits 3 ms EmptyString +:+ "Z")
  = let t := Date.days_from_civil y m d * Date.msPerDay
             + hh * 3600000 + mm * 60000 + ss * 1000 + ms in
    if Date.valid t then Some t else None.
Proof.
  intros Hm Hd Hd' Hhh Hmm Hss Hms.
  set (s := "-" +:+ _).
  assert (String.length s = 20%nat) as Hlen by reflexivity.
  assert (Date.char_at 0 "-" s && Date.char_at 3 "-" s && Date.char_at 6 "T" s
          && Date.char_at 9 ":" s && Date.char_at 12 ":" s
          && Date.char_at 15 "." s && Date.char_at 19 "Z" s = true) as Hsep
    by reflexivity.
  assert (Date.number_at 1 2 s = Some m) as H1
    by (rewrite <- (digits_two m) by lia; reflexivity).
  assert (Date.number_at 4 2 s = Some d) as H2
    by (rewrite <- (digits_two d) by lia; reflexivity).
  assert (Date.number_at 7 2 s = Some hh) as H3
    by (rewrite <- (digits_two hh) by lia; reflexivity).
  assert (Date.number_at 10 2 s = Some mm) as H4
    by (rewrite <- (digits_two mm) by lia; reflexivity).
  assert (Date.number_at 13 2 s = Some ss) as H5
    by (rewrite <- (digits_two ss) by lia; reflexivity).
  assert (Date.number_at 16 3 s = Some ms) as H6
    by (rewrite <- (digits_three ms) by lia; reflexivity).
  clearbody s. unfold Date.parse_after_year.
  rewrite Hlen, Hsep, H1, H2, H3, H4, H5, H6. cbn [Nat.eqb negb].
  destruct (Z.leb_spec 1 m); [| lia]. destruct (Z.leb_spec m 12); [| lia].
  destruct (Z.leb_spec 1 d); [| lia].
  destruct (Z.leb_spec d (Date.days_in_month y m)); [| lia].
  destruct (Z.leb_spec hh 23); [| lia]. destruct (Z.leb_spec mm 59); [| lia].
  destruct (Z.leb_spec ss 59); [| lia].
  reflexivity.
Qed.

Lemma substring_all (s : string) : substring 0 (String.length s) s = s.
Proof. induction s as [|c s IH]; [reflexivity |]. simpl. now rewrite IH. Qed.

Lemma substring_prefix (a rest : string) :
  substring 0 (String.length a) (a +:+ rest) = a.
Proof.
  induction a as [|c a IH]; [now destruct rest |].
  rewrite append_cons. simpl. now rewrite IH.
Qed.

Lemma substring_skip (a rest : string) (n : nat) :
  substring (String.length a) n (a +:+ rest) = substring 0 n rest.
Proof.
  induction a as [|c a IH]; [reflexivity |].
  rewrite append_cons. simpl. exact IH.
Qed.

(** Digits in front of a string: their value, and the string behind. *)
Lemma number_at_prefix (digits rest : string) (n : Z) (width : nat) :
  String.length digits = width ->
  Date.digits_from 0 digits = Some n ->
  Date.number_at 0 width (digits +:+ rest) = Some n
  /\ Nat.ltb (String.length (digits +:+ rest)) width = false
  /\ substring width (String.length (digits +:+ rest) - width) (digits +:+ rest)
     = rest.
Proof.
  intros <- Hn. unfold Date.number_at. rewrite substring_prefix, length_append.
  split; [exact Hn |]. split; [apply Nat.ltb_ge; lia |].
  rewrite substring_skip.
  replace (String.length digits + String.length rest - String.length digits)%nat
    with (String.length rest) by lia.
  apply substring_all.
Qed.

(** A printed year, and what follows it, parse as that year and the rest. *)
Lemma parse_iso_year (y : Z) (rest : string) :
  - 999999 <= y <= 999999 ->
  Date.parse_iso (Date.year_string y +:+ rest) = Date.parse_after_year y rest.
Proof.
  intros Hy. unfold Date.year_string.
  destruct (Z.leb_spec 0 y) as [Hpos | Hneg];
    [destruct (Z.leb_spec y 9999) as [Hsmall | Hbig] |]; cbn [andb].
  - (* four digits *)
    set (s := pad_digits 4 y EmptyString +:+ rest).
    assert (exists c tail, s = String c tail
              /\ Ascii.eqb c "+" = false /\ Ascii.eqb c "-" = false)
      as (c & tail & Hs & Hplus & Hminus).
    { eexists _, _. split; [reflexivity |]. apply digit_not_sign. }
    destruct (number_at_prefix (pad_digits 4 y EmptyString) rest y 4 eq_refl
                (digits_four y ltac:(lia))) as (Hnum & Hlen & Hsub).
    fold s in Hnum, Hlen, Hsub.
    clearbody s. unfold Date.parse_iso.
    rewrite Hnum, Hlen, Hsub. rewrite Hs at 1. now rewrite Hplus, Hminus.
  - (* a plus sign and six digits *)
    destruct (Z.ltb_spec y 0); [lia |].
    set (tail := pad_digits 6 (Z.abs y) EmptyString +:+ rest).
    change (String "+" (pad_digits 6 (Z.abs y) EmptyString) +:+ rest)
      with (String "+" tail).
    destruct (number_at_prefix (pad_digits 6 (Z.abs y) EmptyString) rest
                (Z.abs y) 6 eq_refl (digits_six (Z.abs y) ltac:(lia)))
      as (Hnum & Hlen & Hsub).
    fold tail in Hnum, Hlen, Hsub.
    clearbody tail. cbn [Date.parse_iso Ascii.eqb Bool.eqb orb andb].
    rewrite Hnum, Hlen, Hsub. now rewrite Z.abs_eq by lia.
  - (* a minus sign and six digits *)
    destruct (Z.ltb_spec y 0); [| lia].
    set (tail := pad_digits 6 (Z.abs y) EmptyString +:+ rest).
    change (String "-" (pad_digits 6 (Z.abs y) EmptyString) +:+ rest)
      with (String "-" tail).
    destruct (number_at_prefix (pad_digits 6 (Z.abs y) EmptyString) rest
                (Z.abs y) 6 eq_refl (digits_six (Z.abs y) ltac:(lia)))
      as (Hnum & Hlen & Hsub).
    fold tail in Hnum, Hlen, Hsub.
    clearbody tail. cbn [Date.parse_iso Ascii.eqb Bool.eqb orb andb].
    rewrite Hnum, Hlen, Hsub.
    destruct (Z.eqb_spec (Z.abs y) 0); [lia |].
    now rewrite Z.abs_neq, Z.opp_involutive by lia.
Qed.

(** A printed date parses to the time it prints. *)
Lemma parse_iso_toISOString (t : Z) :
  Date.valid t = true -> Date.parse_iso (Date.toISOString t) = Some t.
Proof.
  intros Hvalid.
  assert (- 8640000000000000 <= t <= 8640000000000000) as Ht.
  { unfold Date.valid in Hvalid. apply andb_true_iff in Hvalid as [H1 H2].
    apply Z.leb_le in H1, H2. lia. }
  unfold Date.toISOString.
  pose proof (civil_spec (t / Date.msPerDay)) as Hcivil.
  pose proof (civil_year_range (t / Date.msPerDay)) as Hyear.
  destruct (Date.civil (t / Date.msPerDay)) as [[y m] d].
  destruct Hcivil as (Hm & Hd & Hdays). cbn [fst] in Hyear.
  assert (- 999999 <= y <= 999999) as Hy.
  { apply Hyear. unfold Date.msPerDay. euclid. }
  assert (d < 100) as Hd'.
  { unfold Date.days_in_month, Date.days_from_civil in Hd.
    revert Hd. split_ifs; intros; euclid. }
  set (ms := t mod Date.msPerDay).
  assert (0 <= ms < 86400000) as Hms by (subst ms; unfold Date.msPerDay; euclid).
  assert (Date.parse_after_year y
            ("-" +:+ pad_digits 2 m EmptyString +:+ "-"
             +:+ pad_digits 2 d EmptyString
             +:+ "T" +:+ pad_digits 2 (ms / 3600000) EmptyString
             +:+ ":" +:+ pad_digits 2 (ms / 60000 mod 60) EmptyString
             +:+ ":" +:+ pad_digits 2 (ms / 1000 mod 60) EmptyString
             +:+ "." +:+ pad_digits 3 (ms mod 1000) EmptyString +:+ "Z")
          = Some t) as Hrest.
  { rewrite parse_after_year_printed by (try assumption; euclid).
    cbv zeta. rewrite Hdays.
    replace (t / Date.msPerDay * Date.msPerDay + ms / 3600000 * 3600000
             + ms / 60000 mod 60 * 60000 + ms / 1000 mod 60 * 1000 + ms mod 1000)
      with t by (subst ms; unfold Date.msPerDay; euclid).
    now rewrite Hvalid. }
  rewrite parse_iso_year by exact Hy. exact Hrest.
Qed.

(** ** The lifetime of a granted token *)

(** X13. A token granted at time [t0] with [expires_in] of [n] seconds
    is reported expired exactly from [t0] plus [n] seconds on: after either
    exchange, in every later world that holds the same [LocalState], whatever
    its host's date parser, [isAccessTokenExpired] is true if and only if
    the clock has reached that time. *)
Theorem token_lifetime
  (x : Exchange) (w : World) (r : Response) (b : TokenBody.t) (n : Z) :
  network w TOKEN_URL (request_of x (LocalState w)) = Responded r ->
  ok r = true ->
  body r = Some b ->
  TokenBody.expires_in b = Some n ->
  Date.valid (now w + n * 1000) = true ->
  exists tokenData w',
    run_exchange x w = (Return tokenData, w')
    /\ forall later,
         LocalState later = LocalState w' ->
         isAccessTokenExpired later = (now w + n * 1000 <=? now later).
Proof.
  intros Hnet Hok Hb Hn Hvalid.
  set (accessToken :=
         AccessToken.mk (TokenBody.access_token b)
           (Some (Date.toISOString (now w + n * 1000)))).
  assert (token_at (now w) b = Some accessToken) as Htok.
  { unfold token_at. rewrite Hn. cbn [expiry_time]. now rewrite Hvalid. }
  destruct (granted_exchange_run x w r b accessToken Hnet
              (ok_not_refused x r Hok) Hb Htok)
    as (st & w' & Hrun & Hst & _).
  eexists _, w'. split; [exact Hrun |].
  intros later Hlater. unfold isAccessTokenExpired.
  rewrite Hlater, Hst.
  destruct (granted_state_frame accessToken b st) as (_ & _ & _ & _ & _ & ->).
  subst accessToken. cbn [AccessToken.expiry Date_parse].
  now rewrite parse_iso_toISOString.
Qed.

Lemma token_lifetime_witness :
  let w := Sample.world Sample.pending
             (Sample.always (Build_Response 200 (Some Sample.granted))) in
  exists tokenData w',
    run_exchange ByCode w = (Return tokenData, w')
    /\ forall later,
         LocalState later = LocalState w' ->
         isAccessTokenExpired later
         = (Sample.t0 + 3600 * 1000 <=? now later).
Proof.
  intros w.
  apply (token_lifetime ByCode w (Build_Response 200 (Some Sample.granted))
           Sample.granted 3600);
    reflexivity.
Defined.

(** *** The configuration file, written and read back *)

Lemma take_append test a rest :
  all_chars test a = true ->
  match rest with EmptyString => True | String c _ => test c = false end ->
  Toml.take test (a +:+ rest) = (a, rest).
Proof.
  intros Ha Hrest. induction a as [|c a IH].
  - change (EmptyString +:+ rest) with rest.
    destruct rest as [|c r]; [reflexivity|]. cbn [Toml.take]. now rewrite Hrest.
  - cbn [all_chars] in Ha. apply andb_true_iff in Ha as [Hc Ha].
    rewrite append_cons. cbn [Toml.take]. rewrite Hc, (IH Ha). reflexivity.
Qed.

Lemma line_written key value rest :
  all_chars Toml.key_char key = true -> key <> EmptyString ->
  all_chars Toml.plain_char value = true ->
  Toml.line (key +:+ " = " +:+ quote +:+ value +:+ quote +:+ newline +:+ rest)
  = Some (key, value, rest).
Proof.
  intros Hk Hne Hv. unfold Toml.line.
  rewrite (take_append Toml.key_char key) by (assumption || reflexivity).
  destruct (String.eqb_spec key EmptyString) as [->|_]; [contradiction|].
  change (Toml.after (" = " +:+ String (ascii_of_nat 34) EmptyString)
            (" = " +:+ quote +:+ value +:+ quote +:+ newline +:+ rest))
    with (Some (value +:+ quote +:+ newline +:+ rest)).
  cbv iota beta.
  rewrite (take_append Toml.plain_char value) by (assumption || reflexivity).
  reflexivity.
Qed.

Lemma lines_written fuel k1 v1 k2 v2 k3 v3 :
  all_chars Toml.key_char k1 = true -> k1 <> EmptyString ->
  all_chars Toml.key_char k2 = true -> k2 <> EmptyString ->
  all_chars Toml.key_char k3 = true -> k3 <> EmptyString ->
  k1 <> k2 -> k1 <> k3 -> k2 <> k3 ->
  all_chars Toml.plain_char v1 = true ->
  all_chars Toml.plain_char v2 = true ->
  all_chars Toml.plain_char v3 = true ->
  (3 <= fuel)%nat ->
  Toml.lines fuel
    (k1 +:+ " = " +:+ quote +:+ v1 +:+ quote +:+ newline
     +:+ k2 +:+ " = " +:+ quote +:+ v2 +:+ quote +:+ newline
     +:+ k3 +:+ " = " +:+ quote +:+ v3 +:+ quote +:+ newline) ∅
  = Some (<[k3 := v3]> (<[k2 := v2]> (<[k1 := v1]> ∅))).
Proof.
  intros Hk1 N1 Hk2 N2 Hk3 N3 D12 D13 D23 Hv1 Hv2 Hv3 Hfuel.
  destruct fuel as [|[|[|fuel]]]; try lia.
  assert (nonempty : forall k r, k <> EmptyString ->
            String.eqb (k +:+ r) EmptyString = false).
  { intros [|c k] r Hk; [contradiction|]. now rewrite append_cons. }
  cbn [Toml.lines].
  rewrite (nonempty k1) by assumption.
  rewrite line_written by assumption. rewrite lookup_empty.
  cbn [Toml.lines].
  rewrite (nonempty k2) by assumption.
  rewrite line_written by assumption.
  rewrite lookup_insert_ne by assumption. rewrite lookup_empty.
  cbn [Toml.lines].
  rewrite <- (append_empty_r newline).
  rewrite (nonempty k3) by assumption.
  rewrite line_written by assumption.
  rewrite !lookup_insert_ne by congruence. rewrite lookup_empty.
  destruct fuel; reflexivity.
Qed.

Lemma parse_written v r e :
  all_chars Toml.plain_char v = true ->
  all_chars Toml.plain_char r = true ->
  all_chars Toml.plain_char e = true ->
  Toml.parse_simple
    ("oauth_token = " +:+ quote +:+ v +:+ quote +:+ newline
     +:+ "refresh_token = " +:+ quote +:+ r +:+ quote +:+ newline
     +:+ "expiration_time = " +:+ quote +:+ e +:+ quote +:+ newline)
  = Some (<["expiration_time" := e]>
            (<["refresh_token" := r]> (<["oauth_token" := v]> ∅))).
Proof.
  intros Hv Hr He. unfold Toml.parse_simple.
  apply (lines_written _ "oauth_token" v "refresh_token" r "expiration_time" e);
    try reflexivity; try discriminate; try assumption.
  rewrite length_append. cbn [String.length]. lia.
Qed.

Lemma seed_written (v r e : string) :
  let st := seed (<["expiration_time" := e]>
                    (<["refresh_token" := r]> (<["oauth_token" := v]> ∅))) in
  State.accessToken st
  = (if truthy (Some v) then Some (AccessToken.mk (Some v) (Some e)) else None)
  /\ State.refreshToken st
     = (if truthy (Some r) then Some (RefreshToken.mk r) else None)
  /\ State.authorizationCode st = None
  /\ State.codeChallenge st = None
  /\ State.codeVerifier st = None
  /\ State.stateQueryParam st = None
  /\ State.hasAuthCodeBeenExchangedForAccessToken st = None
  /\ State.scopes st = None.
Proof.
  unfold seed.
  rewrite (lookup_insert_ne _ "expiration_time" "oauth_token") by discriminate.
  rewrite (lookup_insert_ne _ "refresh_token" "oauth_token") by discriminate.
  rewrite (lookup_insert_ne _ "expiration_time" "refresh_token") by discriminate.
  rewrite !lookup_insert_eq.
  cbn [truthy or_else].
  destruct (String.eqb v EmptyString), (String.eqb r EmptyString);
    repeat split.
Qed.

Lemma load_written (host : string -> option (gmap string string)) (v r e : string) :
  all_chars Toml.plain_char v = true ->
  all_chars Toml.plain_char r = true ->
  all_chars Toml.plain_char e = true ->
  loadLocalState host
    (Some ("oauth_token = " +:+ quote +:+ v +:+ quote +:+ newline
           +:+ "refresh_token = " +:+ quote +:+ r +:+ quote +:+ newline
           +:+ "expiration_time = " +:+ quote +:+ e +:+ quote +:+ newline))
  = (seed (<["expiration_time" := e]>
             (<["refresh_token" := r]> (<["oauth_token" := v]> ∅))), false).
Proof.
  intros Hv Hr He. unfold loadLocalState, TOML_parse.
  now rewrite parse_written.
Qed.

Lemma digit_plain (n : Z) : Toml.plain_char (digit n) = true.
Proof.
  unfold Toml.plain_char. rewrite charCode_digit.
  pose proof (Z.mod_pos_bound n 10 ltac:(lia)).
  repeat (apply andb_true_iff; split); try apply negb_true_iff; lia.
Qed.

Lemma pad_digits_plain (width : nat) (n : Z) (acc : string) :
  all_chars Toml.plain_char acc = true ->
  all_chars Toml.plain_char (pad_digits width n acc) = true.
Proof.
  revert n acc. induction width as [|width IH]; intros n acc Hacc; [exact Hacc |].
  cbn [pad_digits]. apply IH. cbn [all_chars]. now rewrite digit_plain.
Qed.

(** An ISO date is made of digits and punctuation a TOML string takes as
    they are. *)
Lemma toISOString_plain (t : Z) :
  all_chars Toml.plain_char (Date.toISOString t) = true.
Proof.
  unfold Date.toISOString. destruct (Date.civil _) as [[y m] d].
  assert (Hy : all_chars Toml.plain_char (Date.year_string y) = true).
  { unfold Date.year_string.
    destruct ((0 <=? y) && (y <=? 9999)); [now apply pad_digits_plain |].
    cbn [all_chars]. rewrite pad_digits_plain by reflexivity.
    now destruct (y <? 0). }
  rewrite !all_chars_append, Hy, !pad_digits_plain by reflexivity.
  reflexivity.
Qed.

(** X14. Writing an access context to the configuration file and loading
    the file in a new process: when the three values written are plain
    (printable ASCII without quotation mark and backslash), the file is
    read without an error, and the new process starts with the access
    token and its expiry, and with the refresh token, as written.  An
    empty or missing token value is not loaded at all; a missing refresh
    token or expiry was written as the word undefined and is loaded as
    that string.  Nothing else of a session is loaded. *)
Theorem config_round_trip
  (host : string -> option (gmap string string)) (tokenData : AccessContext.t) :
  let token := AccessContext.token tokenData in
  let v := or_else (token ≫= AccessToken.value) EmptyString in
  let r := interpolate (RefreshToken.value <$> AccessContext.refreshToken tokenData) in
  let e := interpolate (token ≫= AccessToken.expiry) in
  all_chars Toml.plain_char v = true ->
  all_chars Toml.plain_char r = true ->
  all_chars Toml.plain_char e = true ->
  exists st,
    loadLocalState host (Some (config_content tokenData)) = (st, false)
    /\ State.accessToken st
       = (if bool_decide (v = EmptyString) then None
          else Some (AccessToken.mk (Some v) (Some e)))
    /\ State.refreshToken st
       = (if bool_decide (r = EmptyString) then None
          else Some (RefreshToken.mk r))
    /\ State.authorizationCode st = None
    /\ State.codeChallenge st = None
    /\ State.codeVerifier st = None
    /\ State.stateQueryParam st = None
    /\ State.hasAuthCodeBeenExchangedForAccessToken st = None
    /\ State.scopes st = None.
Proof.
  intros token v r e Hv Hr He.
  eexists. split; [exact (load_written host v r e Hv Hr He) |].
  destruct (seed_written v r e) as (-> & -> & Hrest).
  split; [| split; [| exact Hrest]]; cbn [truthy].
  - case_bool_decide as H; [now rewrite H |].
    now apply String.eqb_neq in H as ->.
  - case_bool_decide as H; [now rewrite H |].
    now apply String.eqb_neq in H as ->.
Qed.

Lemma config_round_trip_witness :
  exists st,
    loadLocalState (fun _ => None)
      (Some (config_content
               (AccessContext.mk
                  (Some (AccessToken.mk (Some "T") (Some "2021-11-04T05:26:40.000Z")))
                  (Some []) None)))
    = (st, false)
    /\ State.accessToken st
       = Some (AccessToken.mk (Some "T") (Some "2021-11-04T05:26:40.000Z"))
    /\ State.refreshToken st = Some (RefreshToken.mk "undefined").
Proof.
  destruct (config_round_trip (fun _ => None)
              (AccessContext.mk
                 (Some (AccessToken.mk (Some "T") (Some "2021-11-04T05:26:40.000Z")))
                 (Some []) None)
              eq_refl eq_refl eq_refl) as (st & Hload & Ha & Hr & _).
  exists st. split; [exact Hload |]. split; [exact Ha | exact Hr].
Defined.

(** X15. What a new process can start with, whatever the file and the
    host's parser.  Only the two tokens are ever loaded: no authorization
    code, PKCE value, state token, exchanged flag or scope survives a
    restart.  A missing or unreadable file is reported and leaves the
    session empty.  A loaded token is never empty, the refresh token is
    loaded whether or not an access token is, and an access token loaded
    from a file without [expiration_time] never counts as expired. *)
Theorem loadLocalState_edges
  (host : string -> option (gmap string string)) (file : option string) :
  let st := fst (loadLocalState host file) in
  let failed := snd (loadLocalState host file) in
  (State.authorizationCode st = None
   /\ State.codeChallenge st = None
   /\ State.codeVerifier st = None
   /\ State.stateQueryParam st = None
   /\ State.hasAuthCodeBeenExchangedForAccessToken st = None
   /\ State.scopes st = None)
  /\ (file = None -> failed = true)
  /\ (failed = true -> st = State.empty)
  /\ (forall t, State.accessToken st = Some t ->
        exists v, AccessToken.value t = Some v /\ v <> EmptyString)
  /\ (forall t, State.refreshToken st = Some t ->
        RefreshToken.value t <> EmptyString)
  /\ (forall text toml,
        file = Some text -> TOML_parse host text = Some toml ->
        failed = false
        /\ (State.refreshToken st = None
            <-> toml !! "refresh_token" = None
                \/ toml !! "refresh_token" = Some EmptyString)
        /\ (toml !! "expiration_time" = None ->
            forall w, LocalState w = st -> isAccessTokenExpired w = false)).
Proof.
  unfold loadLocalState.
  destruct file as [text|]; [destruct (TOML_parse host text) as [toml|] eqn:Hparse |];
    cbn [fst snd].
  2, 3: repeat split; try discriminate; intros; congruence.
  unfold seed.
  destruct (toml !! "oauth_token") as [v|] eqn:Hv;
    destruct (toml !! "refresh_token") as [r|] eqn:Hr;
    cbn [truthy or_else];
    try (destruct (String.eqb_spec v EmptyString) as [->|Nv]);
    try (destruct (String.eqb_spec r EmptyString) as [->|Nr]);
    cbn [negb];
    (split; [repeat split |]);
    (split; [discriminate |]);
    (split; [discriminate |]);
    (split; [cbn; intros t [= <-]; eauto |]);
    (split; [cbn; intros t [= <-]; assumption |]);
    intros text' toml' [= <-] Ht; rewrite Hparse in Ht; injection Ht as <-;
    rewrite ?Hv, ?Hr;
    (split; [reflexivity |]);
    (split; [cbn; split; [try discriminate; auto | intros [|]; congruence] |]);
    intros He w Hw; unfold isAccessTokenExpired; rewrite Hw; cbn;
    rewrite ?He; reflexivity.
Qed.

(** *** A session across a restart *)

Lemma granted_state_refreshToken (accessToken : AccessToken.t) (b : TokenBody.t)
  (st : State.t) :
  State.refreshToken (granted_state accessToken b st)
  = (if truthy (TokenBody.refresh_token b) then
       Some (RefreshToken.mk (or_else (TokenBody.refresh_token b) EmptyString))
     else State.refreshToken st).
Proof.
  unfold granted_state.
  now destruct (truthy (TokenBody.refresh_token b)), (truthy (TokenBody.scope b)).
Qed.

(** X16. A restart after [refresh].  When the token endpoint grants a
    non-empty plain access token with a lifetime, the refresh tokens in
    play are plain, and the file system accepts the write, [refresh]
    returns and writes one file; a new process that loads this file reads
    it without an error and starts with the very access token the old
    process holds, so that it reports the token expired from the same
    instant on.  It starts with the same refresh token too when there is
    one; when the old process holds none, the new one starts with a refresh
    token that is the string undefined. *)
Theorem refresh_then_restart
  (host : string -> option (gmap string string))
  (w : World) (r : Response) (b : TokenBody.t) (a : string) (n : Z) :
  network w TOKEN_URL (request_of ByRefreshToken (LocalState w)) = Responded r ->
  ok r = true ->
  body r = Some b ->
  TokenBody.access_token b = Some a ->
  a <> EmptyString ->
  all_chars Toml.plain_char a = true ->
  TokenBody.expires_in b = Some n ->
  Date.valid (now w + n * 1000) = true ->
  (forall s,
     TokenBody.refresh_token b = Some s
     \/ RefreshToken.value <$> State.refreshToken (LocalState w) = Some s ->
     all_chars Toml.plain_char s = true) ->
  (forall text, disk w text = true) ->
  exists w' content st,
    refresh w = (Return tt, w')
    /\ writes (trace w') = (writes (trace w) ++ [content])%list
    /\ loadLocalState host (Some content) = (st, false)
    /\ State.accessToken st = State.accessToken (LocalState w')
    /\ (forall t,
          State.refreshToken (LocalState w') = Some t ->
          RefreshToken.value t <> EmptyString ->
          State.refreshToken st = Some t)
    /\ (State.refreshToken (LocalState w') = None ->
        State.refreshToken st = Some (RefreshToken.mk "undefined"))
    /\ (forall later,
          LocalState later = st ->
          isAccessTokenExpired later = (now w + n * 1000 <=? now later)).
Proof.
  intros Hnet Hok Hb Ha Hne Hplain Hn Hvalid Hrefresh Hdisk.
  set (e := Date.toISOString (now w + n * 1000)).
  set (accessToken := AccessToken.mk (Some a) (Some e)).
  assert (token_at (now w) b = Some accessToken) as Htok.
  { unfold token_at. rewrite Hn. cbn [expiry_time]. now rewrite Hvalid, Ha. }
  destruct (granted_exchange_run ByRefreshToken w r b accessToken Hnet
              (ok_not_refused ByRefreshToken r Hok) Hb Htok)
    as (st0 & w1 & Hrun & Hst & Hold).
  cbn [run_exchange] in Hrun.
  destruct (exchangeRefresh_writes w) as [Hw Hsame].
  rewrite Hrun in Hw, Hsame. cbn [snd] in Hw, Hsame.
  set (kept := State.refreshToken (granted_state accessToken b st0)).
  set (rt := interpolate (RefreshToken.value <$> kept)).
  assert (Hkept : State.refreshToken (LocalState w1) = kept)
    by now rewrite Hst.
  assert (Hrt : all_chars Toml.plain_char rt = true).
  { subst rt kept. rewrite granted_state_refreshToken.
    destruct (TokenBody.refresh_token b) as [s|] eqn:Hs; cbn [truthy].
    - destruct (String.eqb_spec s EmptyString) as [->|Ns]; cbn [negb].
      + rewrite Hold.
        destruct (State.refreshToken (LocalState w)) as [t|] eqn:Ht;
          [| reflexivity].
        apply Hrefresh. right. reflexivity.
      + cbn. destruct (String.eqb_spec s EmptyString); [contradiction |].
        apply Hrefresh. now left.
    - rewrite Hold.
      destruct (State.refreshToken (LocalState w)) as [t|] eqn:Ht;
        [| reflexivity].
      apply Hrefresh. right. reflexivity. }
  assert (Hv : or_else (Some a) EmptyString = a).
  { cbn. now destruct (String.eqb_spec a EmptyString). }
  assert (Hcontent :
            config_content (granted_context accessToken b st0)
            = "oauth_token = " +:+ quote +:+ a +:+ quote +:+ newline
              +:+ "refresh_token = " +:+ quote +:+ rt +:+ quote +:+ newline
              +:+ "expiration_time = " +:+ quote +:+ e +:+ quote +:+ newline).
  { unfold config_content, granted_context.
    cbn [AccessContext.token AccessContext.refreshToken accessToken
         AccessToken.value AccessToken.expiry mbind option_bind interpolate].
    now rewrite Hv. }
  destruct (seed_written a rt e) as (Hsa & Hsr & _).
  exists (logged (WriteConfigFile (config_content (granted_context accessToken b st0)))
            (logged (ConsoleLogContext (granted_context accessToken b st0)) w1)).
  eexists _, _.
  split; [| split; [| split; [| split; [| split; [| split]]]]].
  - unfold refresh, try_catch, bind at 1. rewrite Hrun.
    unfold bind at 1, emit at 1. rewrite writeToConfigFile_content.
    change (disk (logged (ConsoleLogContext (granted_context accessToken b st0)) w1))
      with (disk w1).
    now rewrite Hsame, Hdisk.
  - cbn [trace logged]. rewrite !writes_app, Hw. simpl. now rewrite app_nil_r.
  - rewrite Hcontent.
    exact (load_written host a rt e Hplain Hrt (toISOString_plain _)).
  - rewrite Hsa. cbn [LocalState logged truthy]. rewrite Hst.
    destruct (granted_state_frame accessToken b st0) as (_ & _ & _ & _ & _ & ->).
    destruct (String.eqb_spec a EmptyString); [contradiction | reflexivity].
  - intros t Ht Hnt. cbn [LocalState logged] in Ht. rewrite Hkept in Ht.
    rewrite Hsr. subst rt. rewrite Ht. cbn.
    now destruct (String.eqb_spec (RefreshToken.value t) EmptyString), t.
  - intros Hnone. cbn [LocalState logged] in Hnone. rewrite Hkept in Hnone.
    rewrite Hsr. subst rt. now rewrite Hnone.
  - intros later Hlater. unfold isAccessTokenExpired. rewrite Hlater, Hsa.
    cbn [truthy].
    destruct (String.eqb_spec a EmptyString); [contradiction |].
    cbn [negb AccessToken.expiry Date_parse]. subst e.
    now rewrite parse_iso_toISOString.
Qed.

Lemma refresh_then_restart_witness :
  let w :=
    Sample.world (State.set_refreshToken (Some (RefreshToken.mk "old")) State.empty)
      (Sample.always (Build_Response 200 (Some Sample.granted))) in
  exists w' content st,
    refresh w = (Return tt, w')
    /\ writes (trace w') = (writes (trace w) ++ [content])%list
    /\ loadLocalState (fun _ => None) (Some content) = (st, false)
    /\ State.accessToken st = State.accessToken (LocalState w')
    /\ (forall t,
          State.refreshToken (LocalState w') = Some t ->
          RefreshToken.value t <> EmptyString ->
          State.refreshToken st = Some t)
    /\ (State.refreshToken (LocalState w') = None ->
        State.refreshToken st = Some (RefreshToken.mk "undefined"))
    /\ (forall later,
          LocalState later = st ->
          isAccessTokenExpired later = (Sample.t0 + 3600 * 1000 <=? now later)).
Proof.
  intros w.
  apply (refresh_then_restart (fun _ => None) w
           (Build_Response 200 (Some Sample.granted)) Sample.granted "T" 3600);
    try reflexivity; [discriminate |].
  intros s [[= <-] | [= <-]]; reflexivity.
Defined.

(** *** The request handler *)

Lemma responses_app (l1 l2 : list Event) :
  responses (l1 ++ l2) = (responses l1 ++ responses l2)%list.
Proof.
  induction l1 as [|e l1 IH]; [reflexivity |].
  destruct e; simpl; now rewrite IH.
Qed.

Lemma logs_app (l1 l2 : list Event) :
  logs (l1 ++ l2) = (logs l1 ++ logs l2)%list.
Proof.
  induction l1 as [|e l1 IH]; [reflexivity |].
  destruct e; simpl; now rewrite IH.
Qed.

(** What the code exchange adds to the trace: no response, no write, and
    no message of the handler; the file system is left alone. *)
Lemma exchangeAuthCode_trace (w : World) :
  exists l,
    trace (snd (exchangeAuthCodeForAccessToken w)) = (trace w ++ l)%list
    /\ responses l = []
    /\ writes l = []
    /\ ~ In "not matching?" (logs l)
    /\ disk (snd (exchangeAuthCodeForAccessToken w)) = disk w.
Proof.
  rewrite exchangeAuthCode_closed.
  assert (exists l0, trace (code_sent w) = (trace w ++ l0)%list
                     /\ responses l0 = [] /\ writes l0 = [] /\ logs l0 = []
                     /\ disk (code_sent w) = disk w)
    as (l0 & Hl0 & Hr0 & Hw0 & Hg0 & Hd0).
  { unfold code_sent, code_warned. cbn [trace logged].
    destruct (String.eqb _ _); [| destruct (negb _)]; cbn [trace logged];
      rewrite <- ?app_assoc; eexists; (split; [reflexivity |]); repeat split. }
  assert (~ In "not matching?" (logs l0)) as Hn0 by (rewrite Hg0; intros []).
  destruct (network w TOKEN_URL (code_request_of (LocalState w))) as [r|];
    [| now exists l0].
  destruct (parsed r) as [j|]; [| now exists l0].
  destruct (properties j) as [b|]; [| now exists l0].
  destruct (ok r).
  - cbv zeta.
    destruct (token_at (now w) b); [destruct (scope_not_string j) |];
      now exists l0.
  - destruct (bool_decide (TokenBody.error b = Some "invalid_grant"));
      [| now exists l0].
    exists (l0 ++ [expired_note])%list. cbn [snd trace logged].
    rewrite Hl0, <- app_assoc, responses_app, writes_app, logs_app, Hr0, Hw0, Hg0.
    split; [reflexivity |]. split; [reflexivity |]. split; [reflexivity |].
    split; [| exact Hd0].
    cbn. intros [H | []]. discriminate H.
Qed.

(** The handler, branch by branch.  After a check that returned [true]
    the code of the query is the stored one, so the exchange is always
    reached. *)
Lemma server_closed (req : Request) (w : World) :
  let bye := ResponseEnd 200 ("Hello " +:+ req_url req) in
  server req w
  = if String.eqb (req_url req) EmptyString then (Throw AssertionError, w)
    else if bool_decide (pathname req = Some "/oauth/callback") then
      match isReturningFromAuthServer (query req) w with
      | (Return true, w1) =>
          match exchangeAuthCodeForAccessToken w1 with
          | (Return tokenData, w2) =>
              if disk w2 (config_content tokenData) then
                (Return tt,
                 logged bye
                   (logged (WriteConfigFile (config_content tokenData))
                      (logged (ConsoleLogContext tokenData) w2)))
              else (Throw WriteRejected, logged (ConsoleLogContext tokenData) w2)
          | (Throw e, w2) => (Throw e, w2)
          end
      | (Return false, w1) =>
          (Return tt,
           logged bye (logged (ConsoleLog "no auth code, render error page") w1))
      | (Throw err, w1) =>
          (Return tt,
           logged bye
             (logged (ConsoleLog "no auth code, render error page")
                (logged (ConsoleLogError err) w1)))
      end
    else (Return tt, logged bye w).
Proof.
  intros bye. unfold server. unfold bind at 1.
  destruct (String.eqb (req_url req) EmptyString); [reflexivity |].
  unfold ret at 1. unfold bind at 1.
  destruct (bool_decide (pathname req = Some "/oauth/callback")); [| reflexivity].
  unfold bind at 1, try_catch.
  destruct (truthy (query req !! "error")) eqn:He.
  { rewrite callback_error by exact He. reflexivity. }
  destruct (truthy (query req !! "code")) eqn:Hc.
  2: { rewrite callback_no_code by assumption. reflexivity. }
  destruct (decide (query req !! "state" = State.stateQueryParam (LocalState w)))
    as [Hs | Hs].
  2: { rewrite (callback_mismatch _ _ He Hc Hs). reflexivity. }
  rewrite (callback_accept _ _ He Hc Hs).
  cbn [negb]. unfold bind at 1, getState at 1.
  rewrite bool_decide_eq_true_2 by reflexivity.
  unfold bind at 1.
  destruct (exchangeAuthCodeForAccessToken _) as [[tokenData | e] w2];
    [| reflexivity].
  unfold bind at 1, emit at 1. rewrite writeToConfigFile_content.
  change (disk (logged (ConsoleLogContext tokenData) w2)) with (disk w2).
  now destruct (disk w2 (config_content tokenData)).
Qed.

(** X17. What the request handler answers.  It ends the response, with
    status 200 and a greeting, exactly when it returns.  It throws only
    for a request without URL, when the code exchange throws after an
    accepted callback, or when the exchange returned and the write of the
    configuration file is rejected; the response is then never ended and
    the configuration file is not written.  An error the callback check
    throws is swallowed: the handler returns, posts nothing, writes nothing
    and leaves [LocalState] alone.  A request for another path is greeted
    and nothing else happens.  The handler never logs that the code does
    not match. *)
Theorem server_response (req : Request) (w : World) :
  exists outcome w',
    server req w = (outcome, w')
    /\ (outcome = Return tt ->
        responses (trace w')
        = (responses (trace w) ++ [(200, "Hello " +:+ req_url req)])%list)
    /\ (forall e,
          outcome = Throw e ->
          responses (trace w') = responses (trace w)
          /\ writes (trace w') = writes (trace w)
          /\ (req_url req = EmptyString /\ e = AssertionError /\ w' = w
              \/ (exists w1,
                    isReturningFromAuthServer (query req) w = (Return true, w1)
                    /\ exchangeAuthCodeForAccessToken w1 = (Throw e, w'))
              \/ (exists w1 tokenData w2,
                    isReturningFromAuthServer (query req) w = (Return true, w1)
                    /\ exchangeAuthCodeForAccessToken w1 = (Return tokenData, w2)
                    /\ disk w (config_content tokenData) = false
                    /\ e = WriteRejected
                    /\ LocalState w' = LocalState w2)))
    /\ (forall err w1,
          req_url req <> EmptyString ->
          pathname req = Some "/oauth/callback" ->
          isReturningFromAuthServer (query req) w = (Throw err, w1) ->
          outcome = Return tt
          /\ LocalState w' = LocalState w
          /\ fetches (trace w') = fetches (trace w)
          /\ writes (trace w') = writes (trace w)
          /\ In "no auth code, render error page" (logs (trace w')))
    /\ (req_url req <> EmptyString ->
        pathname req <> Some "/oauth/callback" ->
        outcome = Return tt
        /\ w' = logged (ResponseEnd 200 ("Hello " +:+ req_url req)) w)
    /\ (~ In "not matching?" (logs (trace w)) ->
        ~ In "not matching?" (logs (trace w'))).
Proof.
  pose proof (server_closed req w) as Hrun. cbv zeta in Hrun.
  destruct (String.eqb_spec (req_url req) EmptyString) as [Hurl | Hurl].
  { eexists _, _. split; [exact Hrun |].
    split; [discriminate |].
    split; [intros e [= <-]; repeat split; now left |].
    split; [intros err w1 H; contradiction |].
    split; [intros H; contradiction | auto]. }
  case_bool_decide as Hpath.
  2: { eexists _, _. split; [exact Hrun |].
       split; [intros _; cbn [trace logged]; now rewrite responses_app |].
       split; [discriminate |].
       split; [intros err w1 _ H; contradiction |].
       split; [auto |].
       cbn [trace logged]. rewrite logs_app. cbn. now rewrite app_nil_r. }
  destruct (truthy (query req !! "error")) eqn:He.
  { rewrite callback_error in Hrun |- * by exact He.
    eexists _, _. split; [exact Hrun |].
    split; [intros _; cbn [trace logged]; rewrite !responses_app; cbn;
            now rewrite !app_nil_r |].
    split; [discriminate |].
    split.
    { intros err w1 _ _ _. split; [reflexivity |]. split; [reflexivity |].
      cbn [trace logged]. rewrite !fetches_app, !writes_app, !logs_app. cbn.
      rewrite !app_nil_r. repeat split. apply in_or_app. right. now left. }
    split; [intros _ H; contradiction |].
    cbn [trace logged]. rewrite !logs_app. cbn. rewrite !app_nil_r.
    intros Hn [H | [H | []]]%in_app_or; [contradiction | discriminate]. }
  destruct (truthy (query req !! "code")) eqn:Hc.
  2: { rewrite callback_no_code in Hrun |- * by assumption.
       eexists _, _. split; [exact Hrun |].
       split; [intros _; cbn [trace logged]; rewrite !responses_app; cbn;
               now rewrite !app_nil_r |].
       split; [discriminate |].
       split; [intros err w1 _ _ H; discriminate |].
       split; [intros _ H; contradiction |].
       cbn [trace logged]. rewrite !logs_app. cbn. rewrite !app_nil_r.
       intros Hn [H | [H | []]]%in_app_or; [contradiction | discriminate]. }
  destruct (decide (query req !! "state" = State.stateQueryParam (LocalState w)))
    as [Hs | Hs].
  2: { rewrite (callback_mismatch _ _ He Hc Hs) in Hrun |- *.
       eexists _, _. split; [exact Hrun |].
       split; [intros _; cbn [trace logged]; rewrite !responses_app; cbn;
               now rewrite !app_nil_r |].
       split; [discriminate |].
       split.
       { intros err w1 _ _ _. split; [reflexivity |]. split; [reflexivity |].
         cbn [trace logged]. rewrite !fetches_app, !writes_app, !logs_app. cbn.
         rewrite !app_nil_r. repeat split. apply in_or_app. right. now left. }
       split; [intros _ H; contradiction |].
       cbn [trace logged]. rewrite !logs_app. cbn. rewrite !app_nil_r.
       intros Hn [H | [H | []]]%in_app_or; [contradiction | discriminate]. }
  rewrite (callback_accept _ _ He Hc Hs) in Hrun |- *.
  set (w1 := stored (accepted (query req !! "code") (LocalState w)) w) in *.
  destruct (exchangeAuthCode_trace w1) as (l & Hl & Hlr & Hlw & Hlg & Hld).
  change (trace w1) with (trace w) in Hl. change (disk w1) with (disk w) in Hld.
  destruct (exchangeAuthCodeForAccessToken w1) as [[tokenData | e] w2] eqn:Hx;
    cbn [snd] in Hl, Hld.
  - rewrite Hld in Hrun.
    destruct (disk w (config_content tokenData)) eqn:Hdisk.
    + eexists _, _. split; [exact Hrun |].
      split; [intros _; cbn [trace logged]; rewrite Hl, !responses_app, Hlr; cbn;
              now rewrite !app_nil_r |].
      split; [discriminate |].
      split; [intros err w0 _ _ H; discriminate |].
      split; [intros _ H; contradiction |].
      cbn [trace logged]. rewrite Hl, !logs_app. cbn. rewrite !app_nil_r.
      intros Hn [H | H]%in_app_or; contradiction.
    + eexists _, _. split; [exact Hrun |].
      split; [discriminate |].
      split.
      { intros e' [= <-]. cbn [trace logged].
        rewrite Hl, !responses_app, !writes_app, Hlr, Hlw. cbn.
        rewrite !app_nil_r. repeat split.
        right. right. exists w1, tokenData, w2.
        split; [reflexivity |]. split; [exact Hx |].
        split; [exact Hdisk |]. split; reflexivity. }
      split; [intros err w0 _ _ H; discriminate |].
      split; [intros _ H; contradiction |].
      cbn [trace logged]. rewrite Hl, !logs_app. cbn. rewrite !app_nil_r.
      intros Hn [H | H]%in_app_or; contradiction.
  - eexists _, _. split; [exact Hrun |].
    split; [discriminate |].
    split.
    { intros e' [= <-]. rewrite Hl, responses_app, writes_app, Hlr, Hlw.
      rewrite !app_nil_r. repeat split. right. left. now exists w1. }
    split; [intros err w0 _ _ H; discriminate |].
    split; [intros _ H; contradiction |].
    rewrite Hl, logs_app.
    intros Hn [H | H]%in_app_or; contradiction.
Qed.
